(** * Tasklink: priority bucketing and the Canvas -> Todoist reconciliation engine

    A shallow embedding of
      - [backend/src/services/todoistService.ts]
        (clampDay, normalizePrioritySettings, computeConceptualBucket,
         bucketToTodoistPriority, toTodoistDate, syncAssignmentsToTodoist), and
      - the per-assignment window filter of [fetchAndStoreUpcomingAssignments]
        in [backend/src/services/canvasService.ts], with [normalizeDueDate]
        and [fetchAllPages] of the same file,
      - [normalizePriorityCuts] and [formatPriorityLabel] of
        [frontend/src/App.tsx], and
      - the endpoint [POST /api/todoist/sync-assignments] of the server,
    followed by the properties of the design specification, each checked
    against these definitions, and by further properties of the code.

    Conventions of the embedding.
      - A JavaScript [number] is an exact rational or one of NaN, +Infinity,
        -Infinity; values known to be integers (results of [Math.round], of
        [clampDay], counters) are in [Z] or [nat].
      - A [Date] is its time value, milliseconds since the epoch, in [Z], and
        arithmetic on time values is exact.  The server's local zone is a
        fixed offset (milliseconds east of UTC), so local midnights are whole
        days apart; a zone with daylight time has two offsets, and the
        embedding covers the instants that share one.
      - Strings are [string], the bytes of their UTF-8 encoding; [trim]
        strips the white space and line terminator characters of ECMAScript.
      - A [Map] is a [gmap]; the arrays of the source are lists.
      - [await]ed calls to Prisma and to the Todoist REST API are computations
        in a state-and-exception monad over a [World] that holds the tables,
        the remote task list, and two fault schedules saying which external
        call throws. *)

From Stdlib Require Import ZArith QArith Lia Bool DecimalString.
From stdpp Require Import gmap strings list.

Local Open Scope Z_scope.

(* ===================================================================== *)
(** * 1. JavaScript numbers *)
(* ===================================================================== *)

Inductive number : Type :=
| Finite (q : Q)
| NaN
| PosInf
| NegInf.

Definition ofZ (z : Z) : number := Finite (inject_Z z).

(** [a <= b] *)
Definition num_leb (a b : number) : bool :=
  match a, b with
  | NaN, _ | _, NaN => false
  | NegInf, _ => true
  | _, PosInf => true
  | Finite x, Finite y => Qle_bool x y
  | _, _ => false
  end.

(** [a < b] *)
Definition num_ltb (a b : number) : bool :=
  match a, b with
  | NaN, _ | _, NaN => false
  | Finite x, Finite y => negb (Qle_bool y x)
  | NegInf, NegInf => false
  | NegInf, _ => true
  | Finite _, PosInf => true
  | _, _ => false
  end.

(** [a > b] *)
Definition num_gtb (a b : number) : bool := num_ltb b a.

(** [a === b] on numbers *)
Definition num_seq (a b : number) : bool :=
  match a, b with
  | Finite x, Finite y => Qeq_bool x y
  | PosInf, PosInf => true
  | NegInf, NegInf => true
  | _, _ => false
  end.

(** [Math.round(a / d)] for integers [a] and [d > 0]: the nearest integer,
    halves rounded towards +Infinity. *)
Definition mathRoundDiv (a d : Z) : Z := (2 * a + d) / (2 * d).

(** [a ?? b] *)
Definition nullish {A : Type} (a : option A) (b : A) : A :=
  match a with
  | Some x => x
  | None => b
  end.

(** Truthiness of a [string | null | undefined] value. *)
Definition truthy (s : option string) : bool :=
  match s with
  | Some x => negb (String.eqb x "")
  | None => false
  end.

(* ===================================================================== *)
(** * 2. Priority settings (todoistService.ts, lines 16-144) *)
(* ===================================================================== *)

Record PriorityRangeInput : Type := {
  in_enabled : option bool;
  in_to : option number;            (* 1-5, where 5 means 5+ days *)
  in_todoistPriority : option Z      (* Todoist numeric priority *)
}.

Record PrioritySettingsInput : Type := {
  in_p1 : option PriorityRangeInput;
  in_p2 : option PriorityRangeInput;
  in_p3 : option PriorityRangeInput;
  in_p4 : option PriorityRangeInput
}.

Inductive PriorityKey : Type := p1 | p2 | p3 | p4.

Record NormalizedPriorityRange : Type := {
  enabled : bool;
  to : Z;                           (* 1-5 *)
  todoistPriority : Z
}.

(** [Record<PriorityKey, NormalizedPriorityRange>] *)
Record Ranges : Type := {
  r_p1 : NormalizedPriorityRange;
  r_p2 : NormalizedPriorityRange;
  r_p3 : NormalizedPriorityRange;
  r_p4 : NormalizedPriorityRange
}.

Record NormalizedPrioritySettings : Type := {
  ranges : Ranges
}.

(** [settings.ranges[key]] *)
Definition range (settings : NormalizedPrioritySettings) (key : PriorityKey)
  : NormalizedPriorityRange :=
  match key with
  | p1 => r_p1 (ranges settings)
  | p2 => r_p2 (ranges settings)
  | p3 => r_p3 (ranges settings)
  | p4 => r_p4 (ranges settings)
  end.

Definition clampDay (value : number) : Z :=
  if num_leb value (ofZ 1) then 1
  else if num_seq value (ofZ 2) then 2
  else if num_seq value (ofZ 3) then 3
  else if num_seq value (ofZ 4) then 4
  else 5.

(** [settings?.pK?.enabled], [settings?.pK?.to], [settings?.pK?.todoistPriority] *)
Definition opt_enabled (r : option PriorityRangeInput) : option bool :=
  r ≫= in_enabled.
Definition opt_to (r : option PriorityRangeInput) : option number :=
  r ≫= in_to.
Definition opt_todoistPriority (r : option PriorityRangeInput) : option Z :=
  r ≫= in_todoistPriority.

Definition normalizePrioritySettings (settings : option PrioritySettingsInput)
  : NormalizedPrioritySettings :=
  let base_p1 :=
    {| enabled := nullish (opt_enabled (settings ≫= in_p1)) true;
       to := clampDay (nullish (opt_to (settings ≫= in_p1)) (ofZ 2));
       todoistPriority := nullish (opt_todoistPriority (settings ≫= in_p1)) 4 |} in
  let base_p2 :=
    {| enabled := nullish (opt_enabled (settings ≫= in_p2)) true;
       to := clampDay (nullish (opt_to (settings ≫= in_p2)) (ofZ 3));
       todoistPriority := nullish (opt_todoistPriority (settings ≫= in_p2)) 3 |} in
  let base_p3 :=
    {| enabled := nullish (opt_enabled (settings ≫= in_p3)) true;
       to := clampDay (nullish (opt_to (settings ≫= in_p3)) (ofZ 4));
       todoistPriority := nullish (opt_todoistPriority (settings ≫= in_p3)) 2 |} in
  let base_p4 :=
    {| enabled := nullish (opt_enabled (settings ≫= in_p4)) false;
       to := 5;
       todoistPriority := nullish (opt_todoistPriority (settings ≫= in_p4)) 1 |} in
  (* Ensure monotonic non-decreasing cuts for p1..p3 *)
  let c1 := clampDay (ofZ (to base_p1)) in
  let c2 := clampDay (ofZ (to base_p2)) in
  let c3 := clampDay (ofZ (to base_p3)) in
  let c2 := if c2 <? c1 then clampDay (ofZ (c1 + 1)) else c2 in
  let c3 := if c3 <? c2 then clampDay (ofZ (c2 + 1)) else c3 in
  {| ranges :=
       {| r_p1 := {| enabled := enabled base_p1; to := c1;
                     todoistPriority := todoistPriority base_p1 |};
          r_p2 := {| enabled := enabled base_p2; to := c2;
                     todoistPriority := todoistPriority base_p2 |};
          r_p3 := {| enabled := enabled base_p3; to := c3;
                     todoistPriority := todoistPriority base_p3 |};
          r_p4 := {| enabled := enabled base_p4; to := 5;
                     todoistPriority := todoistPriority base_p4 |} |} |}.

(* ===================================================================== *)
(** * 3. Bucket classification and priority (lines 146-178, 311-326) *)
(* ===================================================================== *)

(** Overdue/today (diffDays <= 0) are always P1. *)
Definition computeConceptualBucket (diffDays : Z)
    (settings : NormalizedPrioritySettings) : PriorityKey :=
  if diffDays <=? 0 then p1
  else
    let day := clampDay (ofZ (if diffDays >? 5 then 5 else diffDays)) in
    if day <=? to (range settings p1) then p1
    else if day <=? to (range settings p2) then p2
    else if day <=? to (range settings p3) then p3
    else p4.

Definition order : list PriorityKey := [p1; p2; p3; p4].

Definition PriorityKey_eqb (a b : PriorityKey) : bool :=
  match a, b with
  | p1, p1 | p2, p2 | p3, p3 | p4, p4 => true
  | _, _ => false
  end.

(** [arr.indexOf(x)]; [None] stands for [-1]. *)
Fixpoint indexOf (x : PriorityKey) (arr : list PriorityKey) : option nat :=
  match arr with
  | [] => None
  | y :: rest =>
      if PriorityKey_eqb y x then Some 0%nat
      else S <$> indexOf x rest
  end.

(** [for (let i = idx; i >= 0; i -= 1) { if (enabled) return priority }];
    [None] when the loop runs to its end. *)
Fixpoint scanTowardP1 (settings : NormalizedPrioritySettings) (i : nat)
  : option Z :=
  match nth_error order i with
  | Some key =>
      if enabled (range settings key)
      then Some (todoistPriority (range settings key))
      else match i with
           | O => None
           | S j => scanTowardP1 settings j
           end
  | None =>
      match i with
      | O => None
      | S j => scanTowardP1 settings j
      end
  end.

(** [for (let i = start; i < order.length; i += 1) { ... }], with [steps]
    the number of iterations left, [order.length - i]. *)
Fixpoint scanTowardP4 (settings : NormalizedPrioritySettings)
    (steps : nat) (i : nat) : option Z :=
  match steps with
  | O => None
  | S steps' =>
      match nth_error order i with
      | Some key =>
          if enabled (range settings key)
          then Some (todoistPriority (range settings key))
          else scanTowardP4 settings steps' (S i)
      | None => scanTowardP4 settings steps' (S i)
      end
  end.

(** Map a conceptual bucket to a Todoist priority, respecting enabled flags
    and nearest bucket. *)
Definition bucketToTodoistPriority (bucket : PriorityKey)
    (settings : NormalizedPrioritySettings) : Z :=
  let idx := indexOf bucket order in
  let up := match idx with
            | Some i => scanTowardP1 settings i
            | None => None
            end in
  match up with
  | Some p => p
  | None =>
      let start := match idx with Some i => S i | None => O end in
      match scanTowardP4 settings (length order - start) start with
      | Some p => p
      | None => 2   (* Fallback if everything is disabled. *)
      end
  end.

Definition msPerDay : Z := 1000 * 60 * 60 * 24.

(** [new Date(d.getFullYear(), d.getMonth(), d.getDate()).getTime()]: the
    instant of local midnight of the local calendar day of [t]. *)
Definition localMidnight (tz : Z) (t : Z) : Z :=
  ((t + tz) / msPerDay) * msPerDay - tz.

(** [Math.round((dueMidnight - todayMidnight) / (1000*60*60*24))] *)
Definition diffDaysOf (tz : Z) (now : Z) (dueDateValue : Z) : Z :=
  let todayMidnight := localMidnight tz now in
  let dueMidnight := localMidnight tz dueDateValue in
  let diffMs := dueMidnight - todayMidnight in
  mathRoundDiv diffMs msPerDay.

(** The [conceptualBucket] of the sync loop (lines 311-324). *)
Definition conceptualBucket (tz : Z) (now : Z) (dueDateValue : option Z)
    (settings : NormalizedPrioritySettings) : PriorityKey :=
  match dueDateValue with
  | None => p4
  | Some d => computeConceptualBucket (diffDaysOf tz now d) settings
  end.

(* ===================================================================== *)
(** * 4. The window filter of the fetch cycle (canvasService.ts) *)
(* ===================================================================== *)

(** The loop over a course's assignments first drops an assignment without
    id or name, then normalises [due_at] to a date or null
    ([normalizeDueDate]: unparseable and absent both give null), then applies
    the three guards below to the normalised due date.  The embedding starts
    at the normalised due date. *)

Record FetchAssignmentsOptions : Type := {
  daysAhead : option number;        (* null/undefined/not a number: None *)
  includeNoDueDate : option bool    (* undefined: None *)
}.

(** [typeof daysAhead === 'number' && daysAhead > 0 ? daysAhead : null] *)
Definition maxDaysAheadOf (opts : FetchAssignmentsOptions) : option number :=
  match daysAhead opts with
  | Some n => if num_gtb n (ofZ 0) then Some n else None
  | None => None
  end.

(** The three [continue] guards on the normalised due date, in order;
    [true] when control reaches the upsert. *)
Definition passesWindow (dueDate : option Z) (todayMidnight : Z)
    (maxDaysAhead : option number) (includeNoDueDate : bool) : bool :=
  (* Optionally skip assignments with no due date at all. *)
  if negb (bool_decide (is_Some dueDate)) && negb includeNoDueDate then false
  (* Skip assignments that are clearly in the past. *)
  else if match dueDate with
          | Some d => d <? todayMidnight
          | None => false
          end then false
  (* If a look-ahead window is configured, skip assignments beyond it. *)
  else if match dueDate, maxDaysAhead with
          | Some d, Some m =>
              let diffMs := d - todayMidnight in
              let diffDays := mathRoundDiv diffMs msPerDay in
              num_gtb (ofZ diffDays) m
          | _, _ => false
          end then false
  else true.

(** The filter as the fetch cycle applies it, from the caller's options. *)
Definition fetchKeeps (tz : Z) (now : Z) (opts : FetchAssignmentsOptions)
    (dueDate : option Z) : bool :=
  let todayMidnight := localMidnight tz now in
  passesWindow dueDate todayMidnight (maxDaysAheadOf opts)
    (nullish (includeNoDueDate opts) true).

(** [isInScope] as the specification words it (section 4.3), with whole days
    counted as the fetch cycle counts them. *)
Definition isInScope (dueDate : option Z) (today : Z)
    (lookAheadDays : option number) (includeUndated : bool) : bool :=
  match dueDate with
  | None => includeUndated
  | Some d =>
      if d <? today then false
      else match lookAheadDays with
           | None => true
           | Some n => num_leb (ofZ (mathRoundDiv (d - today) msPerDay)) n
           end
  end.

(* ===================================================================== *)
(** * 5. Tables, the remote task list and the world *)
(* ===================================================================== *)

Record User : Type := {
  user_id : string;
  todoistAccount : option string     (* the account's accessToken *)
}.

Record Course : Type := {
  course_id : string;
  course_userId : string;
  todoistProjectId : option string
}.

Record Assignment : Type := {
  assignment_id : string;
  courseId : string;
  name : string;
  dueDate : option Z;
  todoistTaskId : option string;
  lastSyncedAt : option Z
}.

Inductive SyncStatus : Type := RUNNING | SUCCESS | ERROR.

Record SyncRun : Type := {
  run_id : nat;
  run_userId : string;
  finishedAt : option Z;
  status : SyncStatus;
  message : string
}.

Record TodoistTask : Type := {
  task_id : string;
  content : string;
  project_id : string;
  priority : Z;
  due : option string
}.

(** The external calls the engine makes: Prisma queries and Todoist REST
    requests. *)
Inductive Call : Type :=
| UserFindUnique (userId : string)
| SyncRunCreate (id : nat)
| SyncRunUpdate (id : nat) (s : SyncStatus)
| CourseFindMany
| AssignmentFindMany
| AssignmentUpdate (id : string)
| GetTasks (projectId : string)
| PostTaskUpdate (taskId : string)
| PostTaskCreate (projectId : string) (title : string).

Record Event : Type := {
  ev_call : Call;
  ev_ok : bool                       (* false: the call threw *)
}.

Definition ev (c : Call) (ok : bool) : Event :=
  {| ev_call := c; ev_ok := ok |}.

Record World : Type := {
  tick : nat;                        (* external calls made so far *)
  storeFaults : nat -> bool;         (* the n-th call, if a Prisma call, throws *)
  apiFaults : nat -> bool;           (* the n-th call, if a Todoist call, throws *)
  clock : nat -> Z;                  (* what [new Date()] reads after n calls *)
  tzOffset : Z;                      (* local zone, milliseconds east of UTC *)
  users : list User;
  courses : list Course;
  assignments : list Assignment;
  syncRuns : list SyncRun;
  tasks : list TodoistTask;          (* the tasks on the Todoist side *)
  taskSeq : nat;                     (* ids Todoist has handed out *)
  trace : list Event                 (* newest first *)
}.

Definition advance (e : Event) (w : World) : World :=
  {| tick := S (tick w); storeFaults := storeFaults w; apiFaults := apiFaults w;
     clock := clock w; tzOffset := tzOffset w; users := users w;
     courses := courses w; assignments := assignments w;
     syncRuns := syncRuns w; tasks := tasks w; taskSeq := taskSeq w;
     trace := e :: trace w |}.

Definition set_assignments (l : list Assignment) (w : World) : World :=
  {| tick := tick w; storeFaults := storeFaults w; apiFaults := apiFaults w;
     clock := clock w; tzOffset := tzOffset w; users := users w;
     courses := courses w; assignments := l;
     syncRuns := syncRuns w; tasks := tasks w; taskSeq := taskSeq w;
     trace := trace w |}.

Definition set_syncRuns (l : list SyncRun) (w : World) : World :=
  {| tick := tick w; storeFaults := storeFaults w; apiFaults := apiFaults w;
     clock := clock w; tzOffset := tzOffset w; users := users w;
     courses := courses w; assignments := assignments w;
     syncRuns := l; tasks := tasks w; taskSeq := taskSeq w;
     trace := trace w |}.

Definition set_tasks (l : list TodoistTask) (n : nat) (w : World) : World :=
  {| tick := tick w; storeFaults := storeFaults w; apiFaults := apiFaults w;
     clock := clock w; tzOffset := tzOffset w; users := users w;
     courses := courses w; assignments := assignments w;
     syncRuns := syncRuns w; tasks := l; taskSeq := n;
     trace := trace w |}.

(* ===================================================================== *)
(** * 6. The monad of [async] code: state and exceptions *)
(* ===================================================================== *)

Inductive Outcome (A : Type) : Type :=
| Ok (a : A)
| Throw (msg : string).
Arguments Ok {A} a.
Arguments Throw {A} msg.

Definition M (A : Type) : Type := World -> Outcome A * World.

Definition ret {A : Type} (a : A) : M A := fun w => (Ok a, w).

Definition throw {A : Type} (msg : string) : M A := fun w => (Throw msg, w).

Definition bind {A B : Type} (m : M A) (f : A -> M B) : M B :=
  fun w =>
    match m w with
    | (Ok a, w1) => f a w1
    | (Throw msg, w1) => (Throw msg, w1)
    end.

(** [try { body } catch (err) { handler(err) }] *)
Definition tryCatch {A : Type} (body : M A) (handler : string -> M A) : M A :=
  fun w =>
    match body w with
    | (Ok a, w1) => (Ok a, w1)
    | (Throw msg, w1) => handler msg w1
    end.

Notation "'let!' x ':=' m 'in' k" := (bind m (fun x => k))
  (at level 10, x name, m at level 100, k at level 200).
Notation "'do!' m 'in' k" := (bind m (fun _ => k))
  (at level 10, m at level 100, k at level 200).

(** [new Date().getTime()] *)
Definition getNow : M Z := fun w => (Ok (clock w (tick w)), w).

Definition getZone : M Z := fun w => (Ok (tzOffset w), w).

(** One awaited external call.  The call takes the next tick; it throws when
    its fault schedule says so, or when [effect] itself fails (a missing
    record, a 404); either way the outcome is logged. *)
Definition external {A : Type} (faults : World -> nat -> bool) (c : Call)
    (effect : World -> Outcome A * World) : M A :=
  fun w =>
    if faults w (tick w)
    then (Throw "Request failed", advance {| ev_call := c; ev_ok := false |} w)
    else match effect w with
         | (Ok a, w1) => (Ok a, advance {| ev_call := c; ev_ok := true |} w1)
         | (Throw msg, w1) =>
             (Throw msg, advance {| ev_call := c; ev_ok := false |} w1)
         end.

(* ===================================================================== *)
(** * 7. The record store (Prisma) *)
(* ===================================================================== *)

(** [prisma.user.findUnique({ where: { id }, include: { todoistAccount } })] *)
Definition user_findUnique (userId : string) : M (option User) :=
  external storeFaults (UserFindUnique userId) (fun w =>
    (Ok (List.find (fun u => String.eqb (user_id u) userId) (users w)), w)).

(** The store gives a new record an id no other record has. *)
Definition freshRunId (l : list SyncRun) : nat :=
  S (foldr Nat.max 0%nat (map run_id l)).

(** [prisma.syncRun.create({ data: { userId, status, message } })] *)
Definition syncRun_create (userId : string) (s : SyncStatus) (msg : string)
  : M SyncRun :=
  fun w =>
    let r := {| run_id := freshRunId (syncRuns w); run_userId := userId;
                finishedAt := None; status := s; message := msg |} in
    external storeFaults (SyncRunCreate (run_id r)) (fun w =>
      (Ok r, set_syncRuns (syncRuns w ++ [r]) w)) w.

Definition hasRun (id : nat) (l : list SyncRun) : bool :=
  existsb (fun r => Nat.eqb (run_id r) id) l.

Definition finalizeRun (id : nat) (fin : Z) (s : SyncStatus) (msg : string)
    (l : list SyncRun) : list SyncRun :=
  map (fun r => if Nat.eqb (run_id r) id
                then {| run_id := run_id r; run_userId := run_userId r;
                        finishedAt := Some fin; status := s; message := msg |}
                else r) l.

(** [prisma.syncRun.update({ where: { id }, data: { finishedAt, status, message } })] *)
Definition syncRun_update (id : nat) (fin : Z) (s : SyncStatus) (msg : string)
  : M unit :=
  external storeFaults (SyncRunUpdate id s) (fun w =>
    if hasRun id (syncRuns w)
    then (Ok tt, set_syncRuns (finalizeRun id fin s msg (syncRuns w)) w)
    else (Throw "Record to update not found.", w)).

Definition inList (x : string) (l : list string) : bool :=
  existsb (String.eqb x) l.

(** [where: { id: { in: courseIds }, userId, todoistProjectId: { not: null } }] *)
Definition selectCourses (courseIds : list string) (userId : string)
    (l : list Course) : list Course :=
  List.filter (fun c => inList (course_id c) courseIds
                        && String.eqb (course_userId c) userId
                        && bool_decide (is_Some (todoistProjectId c))) l.

(** [prisma.course.findMany({ where })] *)
Definition course_findMany (courseIds : list string) (userId : string)
  : M (list Course) :=
  external storeFaults CourseFindMany (fun w =>
    (Ok (selectCourses courseIds userId (courses w)), w)).

(** [where: { courseId: { in: ids } }] *)
Definition selectAssignments (ids : list string) (l : list Assignment)
  : list Assignment :=
  List.filter (fun a => inList (courseId a) ids) l.

(** [prisma.assignment.findMany({ where, include: { course: true } })] *)
Definition assignment_findMany (ids : list string) : M (list Assignment) :=
  external storeFaults AssignmentFindMany (fun w =>
    (Ok (selectAssignments ids (assignments w)), w)).

Definition hasAssignment (id : string) (l : list Assignment) : bool :=
  existsb (fun r => String.eqb (assignment_id r) id) l.

(** The [data] of an assignment update: [todoistTaskId] is written only when
    given ([Some None] writes [null]); [lastSyncedAt] always is. *)
Record AssignmentPatch : Type := {
  set_todoistTaskId : option (option string);
  set_lastSyncedAt : Z
}.

Definition patchAssignment (p : AssignmentPatch) (r : Assignment) : Assignment :=
  {| assignment_id := assignment_id r; courseId := courseId r;
     name := name r; dueDate := dueDate r;
     todoistTaskId := nullish (set_todoistTaskId p) (todoistTaskId r);
     lastSyncedAt := Some (set_lastSyncedAt p) |}.

Definition patchWhere (id : string) (p : AssignmentPatch)
    (l : list Assignment) : list Assignment :=
  map (fun r => if String.eqb (assignment_id r) id
                then patchAssignment p r else r) l.

(** [prisma.assignment.update({ where: { id }, data })] *)
Definition assignment_update (id : string) (p : AssignmentPatch) : M unit :=
  external storeFaults (AssignmentUpdate id) (fun w =>
    if hasAssignment id (assignments w)
    then (Ok tt, set_assignments (patchWhere id p (assignments w)) w)
    else (Throw "Record to update not found.", w)).

(* ===================================================================== *)
(** * 8. The destination (Todoist REST API) *)
(* ===================================================================== *)

Definition natStr (n : nat) : string := NilZero.string_of_uint (Nat.to_uint n).

(** [GET /tasks?project_id=...] *)
Definition todoist_getTasks (projectId : string) : M (list TodoistTask) :=
  external apiFaults (GetTasks projectId) (fun w =>
    (Ok (List.filter (fun t => String.eqb (project_id t) projectId) (tasks w)), w)).

Definition hasTask (id : string) (l : list TodoistTask) : bool :=
  existsb (fun t => String.eqb (task_id t) id) l.

(** [POST /tasks/:id] with body [{ priority, due_date }]; a task that is gone
    answers 404. *)
Definition retask (taskId : string) (prio : Z) (due_date : option string)
    (l : list TodoistTask) : list TodoistTask :=
  map (fun t => if String.eqb (task_id t) taskId
                then {| task_id := task_id t; content := content t;
                        project_id := project_id t; priority := prio;
                        due := due_date |}
                else t) l.

Definition todoist_updateTask (taskId : string) (prio : Z)
    (due_date : option string) : M unit :=
  external apiFaults (PostTaskUpdate taskId) (fun w =>
    if hasTask taskId (tasks w)
    then (Ok tt, set_tasks (retask taskId prio due_date (tasks w)) (taskSeq w) w)
    else (Throw "Request failed with status code 404", w)).

(** [POST /tasks] with body [{ content, project_id, priority, due_date? }];
    answers the new task, whose id is the next one in Todoist's sequence. *)
Definition todoist_createTask (title : string) (projectId : string) (prio : Z)
    (due_date : option string) : M string :=
  external apiFaults (PostTaskCreate projectId title) (fun w =>
    let id := natStr (taskSeq w) in
    (Ok id,
     set_tasks
       (tasks w ++ [{| task_id := id; content := title; project_id := projectId;
                       priority := prio; due := due_date |}])
       (S (taskSeq w)) w)).

(* ===================================================================== *)
(** * 9. Dates on the wire (lines 78-84) *)
(* ===================================================================== *)

(** Civil date (year, month 1-12, day) of a day count since 1970-01-01, in
    the proleptic Gregorian calendar that [Date] uses. *)
Definition civilFromDays (z : Z) : Z * Z * Z :=
  let z := z + 719468 in
  let era := z / 146097 in
  let doe := z - era * 146097 in
  let yoe := (doe - doe / 1460 + doe / 36524 - doe / 146096) / 365 in
  let y := yoe + era * 400 in
  let doy := doe - (365 * yoe + yoe / 4 - yoe / 100) in
  let mp := (5 * doy + 2) / 153 in
  let d := doy - (153 * mp + 2) / 5 + 1 in
  let m := if mp <? 10 then mp + 3 else mp - 9 in
  (if m <=? 2 then y + 1 else y, m, d).

Definition localCivil (tz : Z) (t : Z) : Z * Z * Z :=
  civilFromDays ((t + tz) / msPerDay).

Definition getFullYear (tz t : Z) : Z := (localCivil tz t).1.1.
Definition getMonth (tz t : Z) : Z := (localCivil tz t).1.2 - 1.
Definition getDate (tz t : Z) : Z := (localCivil tz t).2.

(** [`${n}`] for an integer *)
Definition intStr (n : Z) : string := NilZero.string_of_int (Z.to_int n).

(** [s.padStart(2, '0')] *)
Definition padStart2 (s : string) : string :=
  match String.length s with
  | O => "00"
  | S O => "0" +:+ s
  | _ => s
  end.

Definition toTodoistDate (tz : Z) (date : option Z) : option string :=
  match date with
  | None => None
  | Some t =>
      let year := getFullYear tz t in
      let month := padStart2 (intStr (getMonth tz t + 1)) in
      let day := padStart2 (intStr (getDate tz t)) in
      Some (intStr year +:+ "-" +:+ month +:+ "-" +:+ day)
  end.

(* ===================================================================== *)
(** * 10. The reconciliation engine (lines 180-462) *)
(* ===================================================================== *)

(** The white space and line terminator characters of ECMAScript, which
    [trim] strips, by the bytes of their UTF-8 encoding: U+0009 to U+000D
    and U+0020 in one byte; U+00A0 in two; U+1680, U+2000 to U+200A, U+2028,
    U+2029, U+202F, U+205F, U+3000 and U+FEFF in three. *)
Definition isSpace (c : Ascii.ascii) : bool :=
  match Ascii.nat_of_ascii c with
  | 9%nat | 10%nat | 11%nat | 12%nat | 13%nat | 32%nat => true
  | _ => false
  end.

Definition isSpace2 (c1 c2 : Ascii.ascii) : bool :=
  Nat.eqb (Ascii.nat_of_ascii c1) 194 && Nat.eqb (Ascii.nat_of_ascii c2) 160.

Definition isSpace3 (c1 c2 c3 : Ascii.ascii) : bool :=
  let b1 := Ascii.nat_of_ascii c1 in
  let b2 := Ascii.nat_of_ascii c2 in
  let b3 := Ascii.nat_of_ascii c3 in
  (Nat.eqb b1 225 && Nat.eqb b2 154 && Nat.eqb b3 128)
  || (Nat.eqb b1 226 && Nat.eqb b2 128
      && ((Nat.leb 128 b3 && Nat.leb b3 138)
          || Nat.eqb b3 168 || Nat.eqb b3 169 || Nat.eqb b3 175))
  || (Nat.eqb b1 226 && Nat.eqb b2 129 && Nat.eqb b3 159)
  || (Nat.eqb b1 227 && Nat.eqb b2 128 && Nat.eqb b3 128)
  || (Nat.eqb b1 239 && Nat.eqb b2 187 && Nat.eqb b3 191).

(** The string without the white space characters at its start. *)
Fixpoint dropSpaces (l : list Ascii.ascii) : list Ascii.ascii :=
  match l with
  | [] => []
  | c1 :: r1 =>
      if isSpace c1 then dropSpaces r1
      else
        match r1 with
        | [] => l
        | c2 :: r2 =>
            if isSpace2 c1 c2 then dropSpaces r2
            else
              match r2 with
              | [] => l
              | c3 :: r3 => if isSpace3 c1 c2 c3 then dropSpaces r3 else l
              end
        end
  end.

(** The same on the reversed string, whose characters have their bytes in
    reverse order. *)
Fixpoint dropSpacesRev (l : list Ascii.ascii) : list Ascii.ascii :=
  match l with
  | [] => []
  | c1 :: r1 =>
      if isSpace c1 then dropSpacesRev r1
      else
        match r1 with
        | [] => l
        | c2 :: r2 =>
            if isSpace2 c2 c1 then dropSpacesRev r2
            else
              match r2 with
              | [] => l
              | c3 :: r3 => if isSpace3 c3 c2 c1 then dropSpacesRev r3 else l
              end
        end
  end.

(** [s.trim()] *)
Definition trim (s : string) : string :=
  String.string_of_list_ascii
    (rev (dropSpacesRev (rev (dropSpaces (String.list_ascii_of_string s))))).

(** [`${projectId}::${content.trim()}`] *)
Definition makeTaskKey (projectId : string) (title : string) : string :=
  projectId +:+ "::" +:+ trim title.

(** [new Map(courses.map((c) => [c.id, c]))]: a later entry replaces an
    earlier one with the same id. *)
Definition courseMap (cs : list Course) : gmap string Course :=
  foldl (fun m c => <[course_id c := c]> m) ∅ cs.

(** [Array.from(new Set(l))]: first occurrences, in order. *)
Fixpoint uniq (seen : list string) (l : list string) : list string :=
  match l with
  | [] => []
  | x :: rest =>
      if inList x seen then uniq seen rest else x :: uniq (x :: seen) rest
  end.

(** [courses.map((c) => c.todoistProjectId).filter(non-empty string)] *)
Definition linkedProjects (cs : list Course) : list string :=
  omap (fun c => match todoistProjectId c with
                 | Some p => if String.eqb p "" then None else Some p
                 | None => None
                 end) cs.

Definition projectIdsOf (cs : list Course) : list string :=
  uniq [] (linkedProjects cs).

(** [if (!existingTasksByKey.has(key)) existingTasksByKey.set(key, task.id)] *)
Definition rememberTask (projectId : string) (m : gmap string string)
    (task : TodoistTask) : gmap string string :=
  let key := makeTaskKey projectId (content task) in
  match m !! key with
  | Some _ => m
  | None => <[key := task_id task]> m
  end.

(** The cache of existing Todoist tasks per project (lines 276-299): a
    project whose listing fails contributes nothing. *)
Fixpoint loadExistingTasks (projectIds : list string) (m : gmap string string)
  : M (gmap string string) :=
  match projectIds with
  | [] => ret m
  | projectId :: rest =>
      let! m1 :=
        tryCatch
          (let! data := todoist_getTasks projectId in
           ret (foldl (rememberTask projectId) m data))
          (fun _ => ret m) in
      loadExistingTasks rest m1
  end.

(** The variables the loop over the assignments updates. *)
Record LoopState : Type := {
  st_created : nat;
  st_skipped : nat;
  existingTasksByKey : gmap string string
}.

Definition addSkipped (st : LoopState) : LoopState :=
  {| st_created := st_created st; st_skipped := S (st_skipped st);
     existingTasksByKey := existingTasksByKey st |}.

Definition addCreated (key id : string) (st : LoopState) : LoopState :=
  {| st_created := S (st_created st); st_skipped := st_skipped st;
     existingTasksByKey := <[key := id]> (existingTasksByKey st) |}.

(** Lines 337-372: an unlinked assignment whose key is in the cache.  The
    comment in the [catch] announces a fall back to creation, but the
    [continue] that follows the [try] statement ends the iteration. *)
Definition relinkExisting (existingTaskId : string) (prio : Z)
    (due : option string) (assignment : Assignment) (st : LoopState)
  : M LoopState :=
  tryCatch
    (do! todoist_updateTask existingTaskId prio due in
     let! stamp := getNow in
     do! assignment_update (assignment_id assignment)
           {| set_todoistTaskId := Some (Some existingTaskId);
              set_lastSyncedAt := stamp |} in
     ret (addSkipped st))
    (fun _ => ret st).

(** Lines 375-410: an unlinked assignment without a cached task. *)
Definition createNew (taskKey projectId : string) (prio : Z)
    (due : option string) (assignment : Assignment) (st : LoopState)
  : M LoopState :=
  tryCatch
    (let! id := todoist_createTask (name assignment) projectId prio due in
     let! stamp := getNow in
     do! assignment_update (assignment_id assignment)
           {| set_todoistTaskId := Some (Some id);
              set_lastSyncedAt := stamp |} in
     ret (addCreated taskKey id st))
    (fun _ => ret (addSkipped st)).

(** Lines 413-453: an assignment that already has a Todoist task. *)
Definition updateLinked (taskId : string) (prio : Z) (due : option string)
    (assignment : Assignment) (st : LoopState) : M LoopState :=
  tryCatch
    (do! todoist_updateTask taskId prio due in
     let! stamp := getNow in
     do! assignment_update (assignment_id assignment)
           {| set_todoistTaskId := None; set_lastSyncedAt := stamp |} in
     ret st)
    (fun _ =>
       let! stamp := getNow in
       do! assignment_update (assignment_id assignment)
             {| set_todoistTaskId := Some None; set_lastSyncedAt := stamp |} in
       ret (addSkipped st)).

(** The body of [for (const assignment of assignments)] (lines 305-453). *)
Definition syncOne (courseById : gmap string Course)
    (normalizedSettings : NormalizedPrioritySettings)
    (assignment : Assignment) (st : LoopState) : M LoopState :=
  match courseById !! courseId assignment with
  | None => ret (addSkipped st)
  | Some course =>
      if negb (truthy (todoistProjectId course)) then ret (addSkipped st)
      else
        let projectId := nullish (todoistProjectId course) "" in
        let! today := getNow in
        let! tz := getZone in
        let bucket := conceptualBucket tz today (dueDate assignment)
                        normalizedSettings in
        let prio := bucketToTodoistPriority bucket normalizedSettings in
        let due := toTodoistDate tz (dueDate assignment) in
        if negb (truthy (todoistTaskId assignment)) then
          let taskKey := makeTaskKey projectId (name assignment) in
          let existingTaskId := existingTasksByKey st !! taskKey in
          if truthy existingTaskId
          then relinkExisting (nullish existingTaskId "") prio due assignment st
          else createNew taskKey projectId prio due assignment st
        else
          updateLinked (nullish (todoistTaskId assignment) "") prio due
            assignment st
  end.

Fixpoint syncLoop (courseById : gmap string Course)
    (normalizedSettings : NormalizedPrioritySettings)
    (l : list Assignment) (st : LoopState) : M LoopState :=
  match l with
  | [] => ret st
  | assignment :: rest =>
      let! st1 := syncOne courseById normalizedSettings assignment st in
      syncLoop courseById normalizedSettings rest st1
  end.

Record SyncResult : Type := {
  created : nat;
  skipped : nat
}.

Definition startMessage (n : nat) : string :=
  "Starting sync for " +:+ natStr n +:+ " course(s).".

Definition successMessage (c s : nat) : string :=
  "Created " +:+ natStr c +:+ " task(s), skipped " +:+ natStr s +:+ ".".

Definition markSuccess (run : SyncRun) (c s : nat) : M unit :=
  let! fin := getNow in
  syncRun_update (run_id run) fin SUCCESS (successMessage c s).

Definition markError (run : SyncRun) (err : string) : M unit :=
  let! fin := getNow in
  syncRun_update (run_id run) fin ERROR err.

(** The [try] block of [syncAssignmentsToTodoist] (lines 237-457). *)
Definition syncBody (run : SyncRun) (userId : string) (courseIds : list string)
    (normalizedSettings : NormalizedPrioritySettings) : M SyncResult :=
  let! cs := course_findMany courseIds userId in
  if Nat.eqb (length cs) 0 then
    do! markSuccess run 0 0 in
    ret {| created := 0; skipped := 0 |}
  else
    let courseById := courseMap cs in
    (* [Array.from(courseById.keys())]: the ids of [cs], used as a set *)
    let! l := assignment_findMany (map course_id cs) in
    let! index := loadExistingTasks (projectIdsOf cs) ∅ in
    let! st := syncLoop courseById normalizedSettings l
                 {| st_created := 0; st_skipped := 0;
                    existingTasksByKey := index |} in
    do! markSuccess run (st_created st) (st_skipped st) in
    ret {| created := st_created st; skipped := st_skipped st |}.

Definition syncAssignmentsToTodoist (userId : string) (courseIds : list string)
    (prioritySettings : option PrioritySettingsInput) : M SyncResult :=
  if Nat.eqb (length courseIds) 0 then ret {| created := 0; skipped := 0 |}
  else
    let! user := user_findUnique userId in
    match user ≫= todoistAccount with
    | None =>
        throw "Todoist configuration not found. Please save your Todoist token first."
    | Some accessToken =>
        let normalizedSettings := normalizePrioritySettings prioritySettings in
        (* Create a sync run record for visibility in the UI. *)
        let! run := syncRun_create userId RUNNING
                      (startMessage (length courseIds)) in
        tryCatch
          (syncBody run userId courseIds normalizedSettings)
          (fun err => do! markError run err in throw err)
    end.

(* ===================================================================== *)
(** * 11. Reference definitions, worded as the specification words them *)
(* ===================================================================== *)

(** A canonical date: a calendar day, counted in days since 1970-01-01.
    The canonical date of an instant is its calendar day in the server's
    zone. *)
Definition calendarDay (tz : Z) (t : Z) : Z := (t + tz) / msPerDay.

(** [classifyBucket] (section 4.2, steps 1-5), from the canonical due date
    ([None]: no due date), the canonical date of today and the thresholds of
    B1, B2, B3. *)
Definition classifyBucket_reference (dueDate : option Z) (today : Z)
    (t1 t2 t3 : Z) : PriorityKey :=
  match dueDate with
  | None => p4                                            (* step 1 *)
  | Some d =>
      let diffDays := d - today in                        (* step 2 *)
      if diffDays <=? 0 then p1                           (* step 3 *)
      else
        let clamped := Z.max 1 (Z.min 5 diffDays) in      (* step 4 *)
        if clamped <=? t1 then p1                         (* step 5 *)
        else if clamped <=? t2 then p2
        else if clamped <=? t3 then p3
        else p4
  end.

(** The buckets from [bucket] towards B1, [bucket] included. *)
Definition towardB1 (bucket : PriorityKey) : list PriorityKey :=
  match bucket with
  | p1 => [p1]
  | p2 => [p2; p1]
  | p3 => [p3; p2; p1]
  | p4 => [p4; p3; p2; p1]
  end.

(** The buckets after [bucket] towards B4. *)
Definition towardB4 (bucket : PriorityKey) : list PriorityKey :=
  match bucket with
  | p1 => [p2; p3; p4]
  | p2 => [p3; p4]
  | p3 => [p4]
  | p4 => []
  end.

(** [resolvePriority] (section 4.2): the first enabled bucket towards B1,
    else towards B4, else the fixed fallback. *)
Definition resolvePriority_reference (bucket : PriorityKey)
    (settings : NormalizedPrioritySettings) : Z :=
  match List.find (fun k => enabled (range settings k))
                  (towardB1 bucket ++ towardB4 bucket) with
  | Some k => todoistPriority (range settings k)
  | None => 2
  end.

(** The three [to] inputs of a settings value. *)
Definition thresholdInputs (settings : option PrioritySettingsInput)
  : option number * option number * option number :=
  (opt_to (settings ≫= in_p1), opt_to (settings ≫= in_p2),
   opt_to (settings ≫= in_p3)).

(* ===================================================================== *)
(** * 12. Vocabulary of the statements about the engine *)
(* ===================================================================== *)

(** What a fetch cycle stores of an assignment and a sync never changes. *)
Definition identity (a : Assignment) : string * string * string * option Z :=
  (assignment_id a, courseId a, name a, dueDate a).

Definition isRunCall (c : Call) : bool :=
  match c with
  | SyncRunCreate _ | SyncRunUpdate _ _ => true
  | _ => false
  end.

Definition isDestinationCall (c : Call) : bool :=
  match c with
  | GetTasks _ | PostTaskUpdate _ | PostTaskCreate _ _ => true
  | _ => false
  end.

(** A task update or task creation that threw. *)
Definition isFailedWrite (e : Event) : bool :=
  match ev_call e with
  | PostTaskUpdate _ | PostTaskCreate _ _ => negb (ev_ok e)
  | _ => false
  end.

Definition failedWrites (tr : list Event) : nat :=
  length (List.filter (fun e => isFailedWrite e) tr).

(** A write of a final status that went through. *)
Definition isFinalization (e : Event) : bool :=
  match ev_call e with
  | SyncRunUpdate _ _ => ev_ok e
  | _ => false
  end.

Definition finalizations (tr : list Event) : nat :=
  length (List.filter (fun e => isFinalization e) tr).

Definition isTaskCreation (e : Event) : bool :=
  match ev_call e with
  | PostTaskCreate _ _ => true
  | _ => false
  end.

(** The loop acts on the assignment: its course is in the map and has a
    non-empty project id. *)
Definition actionable (courseById : gmap string Course) (a : Assignment)
  : bool :=
  match courseById !! courseId a with
  | Some c => truthy (todoistProjectId c)
  | None => false
  end.

(** The next call, an update of task [taskId], throws. *)
Definition updateFails (taskId : string) (w : World) : bool :=
  apiFaults w (tick w) || negb (hasTask taskId (tasks w)).

(** What the parts of a run between the creation of the SyncRun record and
    its finalization leave alone. *)
Record steps (w w' : World) : Prop := {
  steps_storeFaults : storeFaults w' = storeFaults w;
  steps_apiFaults : apiFaults w' = apiFaults w;
  steps_clock : clock w' = clock w;
  steps_tzOffset : tzOffset w' = tzOffset w;
  steps_users : users w' = users w;
  steps_courses : courses w' = courses w;
  steps_syncRuns : syncRuns w' = syncRuns w;
  steps_identity :
    map identity (assignments w') = map identity (assignments w);
  steps_trace :
    exists evs, trace w' = evs ++ trace w
                /\ forallb (fun e => negb (isRunCall (ev_call e))) evs = true
}.

Definition keeps {A : Type} (m : M A) : Prop := forall w, steps w (m w).2.

(** The key under which the cache files a task, and the tasks of a key. *)
Definition keyOfTask (t : TodoistTask) : string :=
  makeTaskKey (project_id t) (content t).

Definition tasksWithKey (key : string) (l : list TodoistTask)
  : list TodoistTask :=
  List.filter (fun t => String.eqb (keyOfTask t) key) l.

(** The Todoist priority the loop body computes for an assignment in [w]. *)
Definition priorityFor (w : World) (settings : NormalizedPrioritySettings)
    (a : Assignment) : Z :=
  bucketToTodoistPriority
    (conceptualBucket (tzOffset w) (clock w (tick w)) (dueDate a) settings)
    settings.

(** The SyncRun record an invocation inserts, and the world once the user
    lookup and the insert have gone through. *)
Definition startedRun (userId : string) (courseIds : list string) (w : World)
  : SyncRun :=
  {| run_id := freshRunId (syncRuns w); run_userId := userId;
     finishedAt := None; status := RUNNING;
     message := startMessage (length courseIds) |}.

Definition afterStart (userId : string) (courseIds : list string) (w : World)
  : World :=
  advance (ev (SyncRunCreate (freshRunId (syncRuns w))) true)
    (set_syncRuns (syncRuns w ++ [startedRun userId courseIds w])
       (advance (ev (UserFindUnique userId) true) w)).

(** What a run that has created its SyncRun record and then runs [m] leaves
    behind: at most one finalization, to SUCCESS exactly when [m] returns. *)
Definition finishes (run : SyncRun) (m : M SyncResult) : Prop :=
  forall w, hasRun (run_id run) (syncRuns w) = true ->
    storeFaults (m w).2 = storeFaults w
    /\ clock (m w).2 = clock w
    /\ exists evs,
         trace (m w).2 = evs ++ trace w
         /\ forallb (fun e => match ev_call e with
                              | SyncRunCreate _ => false
                              | _ => true
                              end) evs = true
         /\ match (m w).1 with
            | Ok r =>
                finalizations evs = 1%nat
                /\ exists fin,
                     syncRuns (m w).2
                     = finalizeRun (run_id run) fin SUCCESS
                         (successMessage (created r) (skipped r)) (syncRuns w)
            | Throw _ =>
                finalizations evs = 0%nat /\ syncRuns (m w).2 = syncRuns w
            end.

(** What the parts of a run outside the loop over the assignments leave
    alone: the tables read by the loop, the task list, and the record of
    task updates and creations. *)
Record sameData (w w' : World) : Prop := {
  sd_storeFaults : storeFaults w' = storeFaults w;
  sd_users : users w' = users w;
  sd_courses : courses w' = courses w;
  sd_assignments : assignments w' = assignments w;
  sd_tasks : tasks w' = tasks w;
  sd_failedWrites : failedWrites (trace w') = failedWrites (trace w);
  sd_creations :
    List.filter (fun e => isTaskCreation e) (trace w')
    = List.filter (fun e => isTaskCreation e) (trace w)
}.

Definition quiet {A : Type} (m : M A) : Prop := forall w, sameData w (m w).2.

(** Every stored assignment the loop acts on is linked, or is still to be
    visited unlinked. *)
Definition linkedOrPending (courseById : gmap string Course)
    (pending : list Assignment) (w : World) : Prop :=
  forall r, In r (assignments w) -> actionable courseById r = true ->
    truthy (todoistTaskId r) = true
    \/ exists a, In a pending
                 /\ assignment_id a = assignment_id r
                 /\ courseId a = courseId r
                 /\ truthy (todoistTaskId a) = false.

(* ===================================================================== *)
(** * 13. Worlds of the worked examples *)
(* ===================================================================== *)

Definition never : nat -> bool := fun _ => false.

(** The n-th external call throws, no other does. *)
Definition onlyAt (n : nat) : nat -> bool := fun k => Nat.eqb k n.

(** One user "u" with a Todoist account, one course "c" mapped to project
    "P", an empty SyncRun table; noon UTC of 2025-12-22 on the clock, one
    second per external call. *)
Definition exampleWorld (apiF : nat -> bool) (l : list Assignment)
    (ts : list TodoistTask) : World :=
  {| tick := 0; storeFaults := never; apiFaults := apiF;
     clock := fun n => Z.of_nat n * 1000 + 1766404800000; tzOffset := 0;
     users := [{| user_id := "u"; todoistAccount := Some "token" |}];
     courses := [{| course_id := "c"; course_userId := "u";
                    todoistProjectId := Some "P" |}];
     assignments := l; syncRuns := []; tasks := ts; taskSeq := 100;
     trace := [] |}.

Definition homework (id : string) (link : option string) : Assignment :=
  {| assignment_id := id; courseId := "c"; name := "HW1";
     dueDate := Some (1766404800000 + 2 * msPerDay);
     todoistTaskId := link; lastSyncedAt := None |}.

Definition existingTask : TodoistTask :=
  {| task_id := "77"; content := " HW1"; project_id := "P";
     priority := 1; due := None |}.

(** A linked assignment whose task was deleted on the Todoist side. *)
Definition deletedRemotely : World :=
  exampleWorld never [homework "a1" (Some "gone")] [].

(** An unlinked assignment, a task of the same title, and the update of
    that task (the sixth external call of the run) throwing. *)
Definition relinkFails : World :=
  exampleWorld (onlyAt 5) [homework "a1" None] [existingTask].

(** An unlinked assignment, no task, and the creation throwing. *)
Definition creationFails : World :=
  exampleWorld (onlyAt 5) [homework "a1" None] [].

(** Two unlinked assignments of the same title in the same project. *)
Definition sameTitleTwice : World :=
  exampleWorld never [homework "a1" None; homework "a2" None] [].

Definition exampleCourse : Course :=
  {| course_id := "c"; course_userId := "u"; todoistProjectId := Some "P" |}.

Definition exampleCourses : gmap string Course := courseMap [exampleCourse].

Definition exampleSettings : NormalizedPrioritySettings :=
  normalizePrioritySettings None.


Definition emptyState : LoopState :=
  {| st_created := 0; st_skipped := 0; existingTasksByKey := ∅ |}.

(** A world without a mapped course, and one whose store stops answering
    after the SyncRun record has been created. *)
Definition nothingMapped : World :=
  {| tick := 0; storeFaults := never; apiFaults := never;
     clock := fun n => Z.of_nat n * 1000 + 1766404800000; tzOffset := 0;
     users := [{| user_id := "u"; todoistAccount := Some "token" |}];
     courses := [{| course_id := "c"; course_userId := "u";
                    todoistProjectId := None |}];
     assignments := [homework "a1" None]; syncRuns := []; tasks := [];
     taskSeq := 100; trace := [] |}.

Definition storeBreaksAt (n : nat) : World :=
  {| tick := 0; storeFaults := onlyAt n; apiFaults := never;
     clock := fun n => Z.of_nat n * 1000 + 1766404800000; tzOffset := 0;
     users := [{| user_id := "u"; todoistAccount := Some "token" |}];
     courses := [exampleCourse];
     assignments := [homework "a1" None]; syncRuns := []; tasks := [];
     taskSeq := 100; trace := [] |}.

(* ===================================================================== *)
(** * 14. The settings on their way to the engine *)
(* ===================================================================== *)

(** The place of a bucket in the order of urgency, 1 the most urgent. *)
Definition rank (k : PriorityKey) : Z :=
  match k with
  | p1 => 1
  | p2 => 2
  | p3 => 3
  | p4 => 4
  end.

(** A settings object with every field present, as [JSON.stringify] of the
    frontend state sends it in the body of the sync request. *)
Definition rangeAsInput (r : NormalizedPriorityRange) : PriorityRangeInput :=
  {| in_enabled := Some (enabled r);
     in_to := Some (ofZ (to r));
     in_todoistPriority := Some (todoistPriority r) |}.

Definition settingsAsInput (s : NormalizedPrioritySettings)
  : PrioritySettingsInput :=
  {| in_p1 := Some (rangeAsInput (range s p1));
     in_p2 := Some (rangeAsInput (range s p2));
     in_p3 := Some (rangeAsInput (range s p3));
     in_p4 := Some (rangeAsInput (range s p4)) |}.

(** frontend/src/App.tsx, [normalizePriorityCuts] (lines 368-385); the
    frontend's [PrioritySettings] has the shape of the backend's normalised
    settings (its [to] is a whole day), and on whole numbers its [clampDay]
    (lines 334-340) returns what the backend's does. *)
Definition normalizePriorityCuts (settings : NormalizedPrioritySettings)
  : NormalizedPrioritySettings :=
  let c1 := clampDay (ofZ (to (range settings p1))) in
  let c2 := clampDay (ofZ (to (range settings p2))) in
  let c3 := clampDay (ofZ (to (range settings p3))) in
  let c2 := if c2 <? c1 then clampDay (ofZ (c1 + 1)) else c2 in
  let c3 := if c3 <? c2 then clampDay (ofZ (c2 + 1)) else c3 in
  {| ranges :=
       {| r_p1 := {| enabled := enabled (range settings p1); to := c1;
                     todoistPriority := todoistPriority (range settings p1) |};
          r_p2 := {| enabled := enabled (range settings p2); to := c2;
                     todoistPriority := todoistPriority (range settings p2) |};
          r_p3 := {| enabled := enabled (range settings p3); to := c3;
                     todoistPriority := todoistPriority (range settings p3) |};
          r_p4 := {| enabled := enabled (range settings p4); to := 5;
                     todoistPriority := todoistPriority (range settings p4) |}
       |} |}.

(** App.tsx, [clampAndBucket] of [formatPriorityLabel] (lines 722-735). *)
Definition clampAndBucket (prioritySettings : NormalizedPrioritySettings)
    (diffDays : Z) : PriorityKey :=
  if diffDays <=? 0 then p1
  else
    let day := clampDay (ofZ (if diffDays >? 5 then 5 else diffDays)) in
    let cuts_p1 := to (range prioritySettings p1) in
    let cuts_p2 := to (range prioritySettings p2) in
    let cuts_p3 := to (range prioritySettings p3) in
    if day <=? cuts_p1 then p1
    else if day <=? cuts_p2 then p2
    else if day <=? cuts_p3 then p3
    else p4.

(** The two loops of [adjustForEnabled] (lines 737-749), which return the
    key of the bucket, not its priority. *)
Fixpoint adjustTowardP1 (prioritySettings : NormalizedPrioritySettings)
    (i : nat) : option PriorityKey :=
  match nth_error order i with
  | Some key =>
      if enabled (range prioritySettings key) then Some key
      else match i with
           | O => None
           | S j => adjustTowardP1 prioritySettings j
           end
  | None =>
      match i with
      | O => None
      | S j => adjustTowardP1 prioritySettings j
      end
  end.

Fixpoint adjustTowardP4 (prioritySettings : NormalizedPrioritySettings)
    (steps : nat) (i : nat) : option PriorityKey :=
  match steps with
  | O => None
  | S steps' =>
      match nth_error order i with
      | Some key =>
          if enabled (range prioritySettings key) then Some key
          else adjustTowardP4 prioritySettings steps' (S i)
      | None => adjustTowardP4 prioritySettings steps' (S i)
      end
  end.

Definition adjustForEnabled (prioritySettings : NormalizedPrioritySettings)
    (bucket : PriorityKey) : PriorityKey :=
  let idx := indexOf bucket order in
  let up := match idx with
            | Some i => adjustTowardP1 prioritySettings i
            | None => None
            end in
  match up with
  | Some key => key
  | None =>
      let start := match idx with Some i => S i | None => O end in
      match adjustTowardP4 prioritySettings (length order - start) start with
      | Some key => key
      | None => bucket
      end
  end.

(** The label and the CSS class of [formatPriorityLabel] (lines 720-788),
    from the due date of the listed assignment. *)
Definition labelOf (effective : PriorityKey) : string * string :=
  match effective with
  | p1 => ("P1", "priority-p1")
  | p2 => ("P2", "priority-p2")
  | p3 => ("P3", "priority-p3")
  | p4 => ("P4", "priority-p3")
  end.

Definition formatPriorityLabel (prioritySettings : NormalizedPrioritySettings)
    (tz now : Z) (dueDate : option Z) : string * string :=
  match dueDate with
  | None => labelOf (adjustForEnabled prioritySettings p4)
  | Some d =>
      let rawDiffDays := diffDaysOf tz now d in
      let conceptual := clampAndBucket prioritySettings rawDiffDays in
      labelOf (adjustForEnabled prioritySettings conceptual)
  end.

(* ===================================================================== *)
(** * 15. What a run may change *)
(* ===================================================================== *)

(** [m] relates the world it starts in to the world it leaves by [R],
    whether it returns or throws. *)
Definition respects (R : World -> World -> Prop) {A : Type} (m : M A) : Prop :=
  forall w, R w (m w).2.

(** A relation every write of the engine stays within: the log entry of a
    call, the patch of an assignment, the update and the creation of a task,
    the insert and the finalization of a SyncRun record. *)
Record frame (R : World -> World -> Prop) : Prop := {
  frame_refl : forall w, R w w;
  frame_trans : forall w1 w2 w3, R w1 w2 -> R w2 w3 -> R w1 w3;
  frame_advance : forall e w, R w (advance e w);
  frame_patch : forall id p w,
    R w (set_assignments (patchWhere id p (assignments w)) w);
  frame_retask : forall id prio due_date w,
    R w (set_tasks (retask id prio due_date (tasks w)) (taskSeq w) w);
  frame_create : forall t w,
    R w (set_tasks (tasks w ++ [t]) (S (taskSeq w)) w);
  frame_insertRun : forall r w,
    R w (set_syncRuns (syncRuns w ++ [r]) w);
  frame_finalize : forall id fin s msg w,
    R w (set_syncRuns (finalizeRun id fin s msg (syncRuns w)) w)
}.

(** What Todoist shows of a task besides its priority and its due date. *)
Definition taskIdentity (t : TodoistTask) : string * string * string :=
  (task_id t, content t, project_id t).

(** What a run leaves of the world it found. *)
Record preserved (w w' : World) : Prop := {
  pr_storeFaults : storeFaults w' = storeFaults w;
  pr_apiFaults : apiFaults w' = apiFaults w;
  pr_clock : clock w' = clock w;
  pr_tzOffset : tzOffset w' = tzOffset w;
  pr_users : users w' = users w;
  pr_courses : courses w' = courses w;
  pr_identity : map identity (assignments w') = map identity (assignments w);
  pr_tasks :
    exists added,
      map taskIdentity (tasks w') = map taskIdentity (tasks w) ++ added;
  pr_runs :
    exists added,
      map run_id (syncRuns w') = map run_id (syncRuns w) ++ added;
  pr_trace :
    exists evs, trace w' = evs ++ trace w
                /\ tick w' = (length evs + tick w)%nat
}.

(** A project id without a colon, as the ids Todoist hands out are. *)
Definition colonFree (s : string) : bool :=
  forallb (fun c => negb (Nat.eqb (Ascii.nat_of_ascii c) 58))
    (String.list_ascii_of_string s).

(* ===================================================================== *)
(** * 16. The fetch side (canvasService.ts) *)
(* ===================================================================== *)

Definition perPage : nat := 50.

(** [fetchAllPages] (lines 553-583).  [get page] is what the request for
    page [page] answers: the items of the page ([res.data ?? []]) or an
    exception, which the function lets through.  The loop is a
    [while (true)]; [fuel] bounds the number of requests, and [None] says
    that the loop is still running after that many. *)
Fixpoint fetchAllPagesFrom {T : Type} (fuel : nat)
    (get : nat -> Outcome (list T)) (page : nat) (all : list T)
  : option (Outcome (list T)) :=
  match fuel with
  | O => None
  | S fuel' =>
      match get page with
      | Throw msg => Some (Throw msg)
      | Ok data =>
          if Nat.eqb (length data) 0 then Some (Ok all)
          else
            let all := all ++ data in
            if Nat.ltb (length data) perPage then Some (Ok all)
            else fetchAllPagesFrom fuel' get (S page) all
      end
  end.

Definition fetchAllPages {T : Type} (fuel : nat)
    (get : nat -> Outcome (list T)) : option (Outcome (list T)) :=
  fetchAllPagesFrom fuel get 1 [].

(** A server that serves [items] in pages of [size] items, pages counted
    from 1. *)
Definition pageOf {T : Type} (size : nat) (items : list T) (page : nat)
  : Outcome (list T) :=
  Ok (List.firstn size (List.skipn (size * (page - 1)) items)).

(** Days since 1970-01-01 of a civil date with month 1-12 and a day of that
    month, in the proleptic Gregorian calendar. *)
Definition daysFromCivil (y m d : Z) : Z :=
  let y := if m <=? 2 then y - 1 else y in
  let era := y / 400 in
  let yoe := y - era * 400 in
  let doy := (153 * (if m >? 2 then m - 3 else m + 9) + 2) / 5 + d - 1 in
  let doe := yoe * 365 + yoe / 4 - yoe / 100 + doy in
  era * 146097 + doe - 719468.

Definition msPerHour : Z := 1000 * 60 * 60.

(** [Date.UTC(year, monthIndex, day, hours, 0, 0)] for a month index 0-11
    and a day of that month; a year from 0 to 99 stands for 1900 + year. *)
Definition dateUTC (year monthIndex day hours : Z) : Z :=
  let year := if (0 <=? year) && (year <=? 99) then 1900 + year else year in
  daysFromCivil year (monthIndex + 1) day * msPerDay + hours * msPerHour.

(** [normalizeDueDate] (lines 524-549).  [instant] is [new Date(dueAt)]:
    [None] for an absent, empty or unparseable [due_at].  [zone t] is the
    offset of America/Los_Angeles from UTC at the instant [t], in
    milliseconds, which [Intl.DateTimeFormat] looks up; the parts it formats
    are the numbers of the civil date there (of a date of the common era:
    before it the formatted year is counted backwards). *)
Definition normalizeDueDate (zone : Z -> Z) (instant : option Z) : option Z :=
  match instant with
  | None => None
  | Some t =>
      let parts := localCivil (zone t) t in
      let year := parts.1.1 in
      let month := parts.1.2 - 1 in   (* 0-based *)
      let day := parts.2 in
      Some (dateUTC year month day 12)
  end.

(** The conditions the algorithm of [civilFromDays] rests on, for a day of
    the 400-year era: the year of the era, the day of the year and the month
    are in range, and the day of the era is found again from them. *)
Definition doeOk (doe : Z) : bool :=
  let yoe := (doe - doe / 1460 + doe / 36524 - doe / 146096) / 365 in
  let doy := doe - (365 * yoe + yoe / 4 - yoe / 100) in
  let mp := (5 * doy + 2) / 153 in
  let d := doy - (153 * mp + 2) / 5 + 1 in
  (0 <=? yoe) && (yoe <=? 399) && (0 <=? doy) && (0 <=? mp) && (mp <=? 11)
  && (1 <=? d) && (d <=? 31).

(** [f] holds of the [fuel] integers from [z] on. *)
Fixpoint checkFrom (f : Z -> bool) (fuel : nat) (z : Z) : bool :=
  match fuel with
  | O => true
  | S fuel' => f z && checkFrom f fuel' (z + 1)
  end.


(* ===================================================================== *)
(** * 17. The sync endpoint (index.ts) *)
(* ===================================================================== *)

Inductive ResponseBody : Type :=
| Synced (message : string) (created skipped : nat)
| Failed (error : string).

Record Response : Type := {
  http_status : Z;
  body : ResponseBody
}.

(** [getUserIdFromRequest] (auth.ts): the user id [requireAuth] has put on
    the request, which must be a non-empty string. *)
Definition getUserIdFromRequest (userId : string) : Outcome string :=
  if String.eqb userId ""
  then Throw "User ID missing on request. Did you forget to use requireAuth?"
  else Ok userId.

(** [app.post('/api/todoist/sync-assignments', requireAuth, ...)].
    [session] is the user id of the session cookie, [None] without a valid
    one; [courseIds] is [None] when the body has no array of that name. *)
Definition postSyncAssignments (session : option string)
    (courseIds : option (list string))
    (prioritySettings : option PrioritySettingsInput)
  : World -> Response * World :=
  fun w =>
    match session with
    | None =>
        ({| http_status := 401; body := Failed "Not authenticated" |}, w)
    | Some sessionUser =>
        match getUserIdFromRequest sessionUser with
        | Throw msg => ({| http_status := 500; body := Failed msg |}, w)
        | Ok userId =>
            match courseIds with
            | None =>
                ({| http_status := 400;
                    body := Failed "courseIds must be a non-empty array" |}, w)
            | Some ids =>
                if Nat.eqb (length ids) 0
                then ({| http_status := 400;
                         body := Failed "courseIds must be a non-empty array" |},
                      w)
                else
                  match syncAssignmentsToTodoist userId ids prioritySettings w
                  with
                  | (Ok result, w') =>
                      ({| http_status := 200;
                          body := Synced "Synced assignments to Todoist"
                                    (created result) (skipped result) |}, w')
                  | (Throw msg, w') =>
                      ({| http_status := 500; body := Failed msg |}, w')
                  end
            end
        end
    end.

(* ===================================================================== *)
(** * 18. Numbers and thresholds *)
(* ===================================================================== *)

Lemma Qle_bool_inject_Z (a b : Z) :
  Qle_bool (inject_Z a) (inject_Z b) = (a <=? b).
Proof.
  unfold Qle_bool, inject_Z; simpl. now rewrite !Z.mul_1_r.
Qed.

Lemma Qeq_bool_inject_Z (a b : Z) :
  Qeq_bool (inject_Z a) (inject_Z b) = (a =? b).
Proof.
  unfold Qeq_bool, inject_Z; simpl. now rewrite !Z.mul_1_r.
Qed.

(** On an integer, [clampDay] is the clamp to [1, 5]. *)
Lemma clampDay_ofZ (z : Z) : clampDay (ofZ z) = Z.max 1 (Z.min 5 z).
Proof.
  unfold clampDay, ofZ, num_leb, num_seq.
  rewrite Qle_bool_inject_Z, !Qeq_bool_inject_Z.
  destruct (Z.leb_spec z 1); [lia|].
  destruct (Z.eqb_spec z 2); [lia|].
  destruct (Z.eqb_spec z 3); [lia|].
  destruct (Z.eqb_spec z 4); lia.
Qed.

(** Whatever the number, [clampDay] answers one of 1, 2, 3, 4, 5. *)
Lemma clampDay_range (v : number) : 1 <= clampDay v <= 5.
Proof.
  unfold clampDay.
  destruct (num_leb v (ofZ 1)); [lia|].
  destruct (num_seq v (ofZ 2)); [lia|].
  destruct (num_seq v (ofZ 3)); [lia|].
  destruct (num_seq v (ofZ 4)); lia.
Qed.

Lemma clampDay_idem (v : number) : clampDay (ofZ (clampDay v)) = clampDay v.
Proof. rewrite clampDay_ofZ. pose proof (clampDay_range v). lia. Qed.

(** The normalised thresholds in terms of the clamped inputs. *)
Lemma normalized_thresholds (settings : option PrioritySettingsInput) :
  let n := normalizePrioritySettings settings in
  let raw1 := clampDay (nullish (opt_to (settings ≫= in_p1)) (ofZ 2)) in
  let raw2 := clampDay (nullish (opt_to (settings ≫= in_p2)) (ofZ 3)) in
  let raw3 := clampDay (nullish (opt_to (settings ≫= in_p3)) (ofZ 4)) in
  to (range n p1) = raw1
  /\ to (range n p2) = (if raw2 <? raw1 then Z.min 5 (raw1 + 1) else raw2)
  /\ to (range n p3)
     = (if raw3 <? to (range n p2) then Z.min 5 (to (range n p2) + 1)
        else raw3)
  /\ to (range n p4) = 5
  /\ 1 <= raw1 <= 5 /\ 1 <= raw2 <= 5 /\ 1 <= raw3 <= 5.
Proof.
  intros n raw1 raw2 raw3.
  pose proof (clampDay_range (nullish (opt_to (settings ≫= in_p1)) (ofZ 2))) as B1.
  pose proof (clampDay_range (nullish (opt_to (settings ≫= in_p2)) (ofZ 3))) as B2.
  pose proof (clampDay_range (nullish (opt_to (settings ≫= in_p3)) (ofZ 4))) as B3.
  fold raw1 in B1. fold raw2 in B2. fold raw3 in B3.
  assert (E1 : to (range n p1) = raw1)
    by (subst n raw1; simpl; apply clampDay_idem).
  assert (E2 : to (range n p2)
               = if raw2 <? raw1 then clampDay (ofZ (raw1 + 1)) else raw2).
  { subst n raw1 raw2; simpl. now rewrite !clampDay_idem. }
  assert (E3 : to (range n p3)
               = if raw3 <? to (range n p2)
                 then clampDay (ofZ (to (range n p2) + 1)) else raw3).
  { subst n raw3; simpl. now rewrite !clampDay_idem. }
  rewrite clampDay_ofZ in E2, E3.
  assert (H2 : 1 <= to (range n p2)).
  { rewrite E2. destruct (raw2 <? raw1); lia. }
  split; [exact E1|]. split.
  { rewrite E2. destruct (raw2 <? raw1); [lia|reflexivity]. }
  split.
  { rewrite E3. destruct (raw3 <? to (range n p2)); [lia|reflexivity]. }
  split; [reflexivity|]. auto.
Qed.

(** C8 -- Threshold normalization invariant.  For every settings value, also
    a partial, missing or out-of-order one, the normalised thresholds satisfy
    [1 <= t1 <= t2 <= t3 <= 5] and the threshold of the fourth bucket is the
    5+ sentinel; the first threshold is the clamped input, a later one is
    never below its clamped input and differs from it only where the input
    violated the order (later thresholds are pushed upward); and two settings
    values with the same [to] inputs, whatever their [enabled] flags and
    priorities, get the same thresholds. *)
Theorem normalize_thresholds_invariant
    (settings settings' : option PrioritySettingsInput)
    (Hsame : thresholdInputs settings = thresholdInputs settings') :
  let n := normalizePrioritySettings settings in
  let raw1 := clampDay (nullish (opt_to (settings ≫= in_p1)) (ofZ 2)) in
  let raw2 := clampDay (nullish (opt_to (settings ≫= in_p2)) (ofZ 3)) in
  let raw3 := clampDay (nullish (opt_to (settings ≫= in_p3)) (ofZ 4)) in
  let t1 := to (range n p1) in
  let t2 := to (range n p2) in
  let t3 := to (range n p3) in
  (1 <= t1 /\ t1 <= t2 /\ t2 <= t3 /\ t3 <= 5)
  /\ to (range n p4) = 5
  /\ (t1 = raw1 /\ raw2 <= t2 /\ raw3 <= t3)
  /\ (t2 = raw2 \/ raw2 < raw1) /\ (t3 = raw3 \/ raw3 < t2)
  /\ (forall k, to (range (normalizePrioritySettings settings') k)
                = to (range n k)).
Proof.
  intros n raw1 raw2 raw3 t1 t2 t3.
  destruct (normalized_thresholds settings)
    as (E1 & E2 & E3 & E4 & B1 & B2 & B3).
  fold n raw1 raw2 raw3 in E1, E2, E3, E4, B1, B2, B3.
  fold t1 in E1. fold t2 in E2, E3. fold t3 in E3.
  assert (Hk : forall k, to (range (normalizePrioritySettings settings') k)
                         = to (range n k)).
  { unfold thresholdInputs in Hsame. injection Hsame as H1 H2 H3.
    intros k; subst n; destruct k; simpl; rewrite ?H1, ?H2, ?H3; reflexivity. }
  destruct (Z.ltb_spec raw2 raw1); destruct (Z.ltb_spec raw3 t2);
    repeat split; try lia; try exact Hk; auto.
Qed.

(** Thresholds 4, 1 and the default 4: the later two are pushed up to 5, with
    every flag and priority changed in the second settings value. *)
Lemma normalize_thresholds_invariant_witness :
  let s : option PrioritySettingsInput :=
    Some {| in_p1 := Some {| in_enabled := Some false; in_to := Some (ofZ 4);
                             in_todoistPriority := None |};
            in_p2 := Some {| in_enabled := None; in_to := Some (ofZ 1);
                             in_todoistPriority := Some 3 |};
            in_p3 := None; in_p4 := None |} in
  let s' : option PrioritySettingsInput :=
    Some {| in_p1 := Some {| in_enabled := Some true; in_to := Some (ofZ 4);
                             in_todoistPriority := Some 1 |};
            in_p2 := Some {| in_enabled := Some false; in_to := Some (ofZ 1);
                             in_todoistPriority := None |};
            in_p3 := Some {| in_enabled := Some false; in_to := None;
                             in_todoistPriority := None |};
            in_p4 := None |} in
  thresholdInputs s = thresholdInputs s'
  /\ (1 <= to (range (normalizePrioritySettings s) p1)
      /\ to (range (normalizePrioritySettings s) p1)
         <= to (range (normalizePrioritySettings s) p2)
      /\ to (range (normalizePrioritySettings s) p2)
         <= to (range (normalizePrioritySettings s) p3)
      /\ to (range (normalizePrioritySettings s) p3) <= 5)
  /\ (forall k, to (range (normalizePrioritySettings s') k)
                = to (range (normalizePrioritySettings s) k)).
Proof.
  intros s s'.
  assert (H : thresholdInputs s = thresholdInputs s') by reflexivity.
  pose proof (normalize_thresholds_invariant s s' H) as W.
  destruct W as (Hord & _ & _ & _ & _ & Hk).
  exact (conj H (conj Hord Hk)).
Defined.

(* ===================================================================== *)
(** * 19. Classification and priority *)
(* ===================================================================== *)

(** [computeConceptualBucket] against the reference, for any thresholds:
    the bucket of a day difference is the reference's bucket of a due date
    that many days after today. *)
Lemma computeConceptualBucket_reference (d : Z)
    (settings : NormalizedPrioritySettings) :
  computeConceptualBucket d settings
  = classifyBucket_reference (Some d) 0 (to (range settings p1))
      (to (range settings p2)) (to (range settings p3)).
Proof.
  unfold computeConceptualBucket, classifyBucket_reference. cbv zeta.
  rewrite Z.sub_0_r.
  destruct (Z.leb_spec d 0) as [Hd|Hd]; [reflexivity|].
  rewrite clampDay_ofZ.
  replace (Z.max 1 (Z.min 5 (if d >? 5 then 5 else d)))
    with (Z.max 1 (Z.min 5 d)); [reflexivity|].
  destruct (Z.gtb_spec d 5); lia.
Qed.

(** The day difference of the sync loop is the difference of the calendar
    days: the two local midnights are whole days apart, which [Math.round]
    leaves as they are. *)
Lemma diffDaysOf_calendarDay (tz now d : Z) :
  diffDaysOf tz now d = calendarDay tz d - calendarDay tz now.
Proof.
  unfold diffDaysOf, localMidnight, mathRoundDiv, calendarDay, msPerDay.
  set (D := (d + tz) / (1000 * 60 * 60 * 24)).
  set (T := (now + tz) / (1000 * 60 * 60 * 24)).
  symmetry. apply (Z.div_unique _ _ (D - T) (1000 * 60 * 60 * 24)); lia.
Qed.


(** The specification's worked example: thresholds 2, 3, 4; due in two days
    gives B1, due in six days is clamped to 5 and gives B4. *)
Example classify_example :
  let input := Some {| in_p1 := Some {| in_enabled := None;
                                        in_to := Some (ofZ 2);
                                        in_todoistPriority := None |};
                       in_p2 := Some {| in_enabled := None;
                                        in_to := Some (ofZ 3);
                                        in_todoistPriority := None |};
                       in_p3 := Some {| in_enabled := None;
                                        in_to := Some (ofZ 4);
                                        in_todoistPriority := None |};
                       in_p4 := None |} in
  let cfg := normalizePrioritySettings input in
  conceptualBucket 0 0 (Some (2 * msPerDay)) cfg = p1
  /\ conceptualBucket 0 0 (Some (6 * msPerDay)) cfg = p4
  /\ conceptualBucket 0 0 None cfg = p4.
Proof. repeat split; reflexivity. Qed.

(** The two loops of [bucketToTodoistPriority] visit the buckets in the
    order of the reference. *)
Lemma bucketToTodoistPriority_reference (bucket : PriorityKey)
    (settings : NormalizedPrioritySettings) :
  bucketToTodoistPriority bucket settings
  = resolvePriority_reference bucket settings.
Proof.
  destruct settings as [[[e1 t1 q1] [e2 t2 q2] [e3 t3 q3] [e4 t4 q4]]].
  unfold bucketToTodoistPriority, resolvePriority_reference.
  destruct bucket, e1, e2, e3, e4; reflexivity.
Qed.

(** C7 -- resolvePriority.  For every bucket and every configuration the
    result is the configured priority of the first enabled bucket met when
    scanning from the classified bucket towards B1 and, failing that, towards
    B4: the bucket it is taken from is enabled.  When no bucket is met, every
    bucket is disabled and the result is the fixed fallback 2. *)
Theorem resolvePriority_first_enabled (bucket : PriorityKey)
    (settings : NormalizedPrioritySettings) :
  match List.find (fun k => enabled (range settings k))
                  (towardB1 bucket ++ towardB4 bucket) with
  | Some k =>
      enabled (range settings k) = true
      /\ bucketToTodoistPriority bucket settings
         = todoistPriority (range settings k)
  | None =>
      (forall k, enabled (range settings k) = false)
      /\ bucketToTodoistPriority bucket settings = 2
  end.
Proof.
  rewrite bucketToTodoistPriority_reference.
  unfold resolvePriority_reference.
  destruct (List.find _ _) as [k|] eqn:Hfind.
  - apply List.find_some in Hfind. destruct Hfind as [_ Hk]. auto.
  - split; [|reflexivity].
    intros k. pose proof (List.find_none _ _ Hfind k) as Hnone.
    apply Hnone. destruct bucket, k; simpl; tauto.
Qed.

(** The specification's worked example: B1 disabled, B2 enabled with level
    3; an assignment classified B1 resolves to 3. *)
Example resolve_example :
  let input := Some {| in_p1 := Some {| in_enabled := Some false;
                                        in_to := None;
                                        in_todoistPriority := None |};
                       in_p2 := Some {| in_enabled := Some true;
                                        in_to := None;
                                        in_todoistPriority := Some 3 |};
                       in_p3 := None; in_p4 := None |} in
  bucketToTodoistPriority p1 (normalizePrioritySettings input) = 3.
Proof. reflexivity. Qed.

(* ===================================================================== *)
(** * 20. The window filter *)
(* ===================================================================== *)

(** C9, as stated, fails.  With a look-ahead of 0 days and an assignment due
    ten days after today, the fetch cycle keeps the assignment, while
    [(dueDate - today in days) <= lookAheadDays] is [10 <= 0]. *)
Lemma window_filter_zero_lookahead :
  let opts := {| daysAhead := Some (ofZ 0); includeNoDueDate := Some true |} in
  let due := Some (10 * msPerDay) in
  fetchKeeps 0 0 opts due = true
  /\ isInScope due (localMidnight 0 0) (daysAhead opts) true = false.
Proof. split; reflexivity. Qed.

Lemma num_gtb_leb (z : Z) (n : number) :
  num_gtb n (ofZ 0) = true ->
  negb (num_gtb (ofZ z) n) = num_leb (ofZ z) n.
Proof.
  destruct n as [q| | |]; simpl; try discriminate; intros _.
  - unfold num_gtb, ofZ; simpl. apply negb_involutive.
  - reflexivity.
Qed.

#[local] Arguments num_gtb : simpl never.
#[local] Arguments num_leb : simpl never.
#[local] Arguments ofZ : simpl never.

(** C9, amended -- Window filter semantics.  An assignment without due date
    is kept iff [includeNoDueDate] is true (its default); a due date strictly
    before today's local midnight is excluded; when [daysAhead] is null or is
    not a number above 0 the horizon is unbounded and the assignment is kept;
    otherwise it is kept iff the rounded day difference is at most
    [daysAhead]. *)
Theorem window_filter_semantics (tz now : Z) (opts : FetchAssignmentsOptions)
    (due : option Z) :
  let today := localMidnight tz now in
  let include := nullish (includeNoDueDate opts) true in
  fetchKeeps tz now opts due
  = match due with
    | None => include
    | Some d =>
        if d <? today then false
        else match daysAhead opts with
             | None => true
             | Some n =>
                 if num_gtb n (ofZ 0)
                 then num_leb (ofZ (mathRoundDiv (d - today) msPerDay)) n
                 else true
             end
    end.
Proof.
  intros today include. unfold fetchKeeps, passesWindow, maxDaysAheadOf.
  fold today. fold include.
  destruct due as [d|]; simpl.
  - destruct (d <? today); [reflexivity|].
    destruct (daysAhead opts) as [n|]; [|reflexivity].
    destruct (num_gtb n (ofZ 0)) eqn:Hn; [|reflexivity].
    rewrite <- (num_gtb_leb _ _ Hn).
    destruct (num_gtb _ n); reflexivity.
  - destruct include; reflexivity.
Qed.

(* ===================================================================== *)
(** * 21. What the loops leave alone *)
(* ===================================================================== *)

Lemma steps_refl (w : World) : steps w w.
Proof. split; try reflexivity. exists []. split; reflexivity. Qed.

Lemma steps_trans (w1 w2 w3 : World) :
  steps w1 w2 -> steps w2 w3 -> steps w1 w3.
Proof.
  intros [a1 b1 c1 d1 e1 f1 g1 h1 (evs1 & t1 & p1)]
         [a2 b2 c2 d2 e2 f2 g2 h2 (evs2 & t2 & p2)].
  split; try congruence.
  exists (evs2 ++ evs1). split.
  - rewrite t2, t1. apply app_assoc.
  - rewrite forallb_app, p1, p2. reflexivity.
Qed.

Lemma steps_advance (e : Event) (w w1 : World) :
  isRunCall (ev_call e) = false -> steps w w1 -> steps w (advance e w1).
Proof.
  intros He Hs. apply (steps_trans _ _ _ Hs).
  split; try reflexivity.
  exists [e]. split; [reflexivity|]. simpl. now rewrite He.
Qed.

Lemma steps_set_tasks (l : list TodoistTask) (n : nat) (w w1 : World) :
  steps w w1 -> steps w (set_tasks l n w1).
Proof.
  intros Hs. apply (steps_trans _ _ _ Hs).
  split; try reflexivity. exists []. split; reflexivity.
Qed.

Lemma map_identity_patch (f : Assignment -> bool) (p : AssignmentPatch)
    (l : list Assignment) :
  map identity (map (fun r => if f r then patchAssignment p r else r) l)
  = map identity l.
Proof.
  rewrite map_map. apply map_ext. intros r. now destruct (f r).
Qed.

Lemma steps_set_assignments (l : list Assignment) (w w1 : World) :
  map identity l = map identity (assignments w1) ->
  steps w w1 -> steps w (set_assignments l w1).
Proof.
  intros Hl Hs. apply (steps_trans _ _ _ Hs).
  split; try reflexivity; [exact Hl|]. exists []. split; reflexivity.
Qed.

Lemma keeps_ret {A : Type} (a : A) : keeps (ret a).
Proof. intros w. apply steps_refl. Qed.

Lemma keeps_throw {A : Type} (msg : string) : keeps (@throw A msg).
Proof. intros w. apply steps_refl. Qed.

Lemma keeps_getNow : keeps getNow.
Proof. intros w. apply steps_refl. Qed.

Lemma keeps_getZone : keeps getZone.
Proof. intros w. apply steps_refl. Qed.

Lemma keeps_bind {A B : Type} (m : M A) (f : A -> M B) :
  keeps m -> (forall a, keeps (f a)) -> keeps (bind m f).
Proof.
  intros Hm Hf w. unfold bind. specialize (Hm w).
  destruct (m w) as [[a|msg] w1]; simpl in *; [|exact Hm].
  exact (steps_trans _ _ _ Hm (Hf a w1)).
Qed.

Lemma keeps_tryCatch {A : Type} (body : M A) (handler : string -> M A) :
  keeps body -> (forall msg, keeps (handler msg)) -> keeps (tryCatch body handler).
Proof.
  intros Hm Hf w. unfold tryCatch. specialize (Hm w).
  destruct (body w) as [[a|msg] w1]; simpl in *; [exact Hm|].
  exact (steps_trans _ _ _ Hm (Hf msg w1)).
Qed.

Lemma keeps_external {A : Type} (faults : World -> nat -> bool) (c : Call)
    (effect : World -> Outcome A * World) :
  isRunCall c = false -> (forall w, steps w (effect w).2) ->
  keeps (external faults c effect).
Proof.
  intros Hc He w. unfold external.
  destruct (faults w (tick w)); simpl.
  - apply steps_advance; [exact Hc|apply steps_refl].
  - specialize (He w). destruct (effect w) as [[a|msg] w1]; simpl in *;
      apply steps_advance; assumption.
Qed.

Lemma keeps_course_findMany ids userId : keeps (course_findMany ids userId).
Proof. apply keeps_external; [reflexivity|]. intros w. apply steps_refl. Qed.

Lemma keeps_assignment_findMany ids : keeps (assignment_findMany ids).
Proof. apply keeps_external; [reflexivity|]. intros w. apply steps_refl. Qed.

Lemma keeps_assignment_update id p : keeps (assignment_update id p).
Proof.
  apply keeps_external; [reflexivity|]. intros w.
  destruct (hasAssignment id (assignments w)); simpl; [|apply steps_refl].
  apply steps_set_assignments; [|apply steps_refl].
  apply (map_identity_patch (fun r => String.eqb (assignment_id r) id)).
Qed.

Lemma keeps_todoist_getTasks projectId : keeps (todoist_getTasks projectId).
Proof. apply keeps_external; [reflexivity|]. intros w. apply steps_refl. Qed.

Lemma keeps_todoist_updateTask id prio due : keeps (todoist_updateTask id prio due).
Proof.
  apply keeps_external; [reflexivity|]. intros w.
  destruct (hasTask id (tasks w)); simpl; [|apply steps_refl].
  apply steps_set_tasks, steps_refl.
Qed.

Lemma keeps_todoist_createTask title projectId prio due :
  keeps (todoist_createTask title projectId prio due).
Proof.
  apply keeps_external; [reflexivity|]. intros w. simpl.
  apply steps_set_tasks, steps_refl.
Qed.

Create HintDb keeps.
#[local] Hint Resolve keeps_ret keeps_throw keeps_getNow keeps_getZone
  keeps_course_findMany keeps_assignment_findMany keeps_assignment_update
  keeps_todoist_getTasks keeps_todoist_updateTask keeps_todoist_createTask
  : keeps.

Ltac keeps_tac :=
  repeat first
    [ progress eauto with keeps
    | apply keeps_bind; [|intros ?]
    | apply keeps_tryCatch; [|intros ?] ].

Lemma keeps_relinkExisting id prio due a st :
  keeps (relinkExisting id prio due a st).
Proof. unfold relinkExisting. keeps_tac. Qed.

Lemma keeps_createNew key projectId prio due a st :
  keeps (createNew key projectId prio due a st).
Proof. unfold createNew. keeps_tac. Qed.

Lemma keeps_updateLinked id prio due a st :
  keeps (updateLinked id prio due a st).
Proof. unfold updateLinked. keeps_tac. Qed.

#[local] Hint Resolve keeps_relinkExisting keeps_createNew keeps_updateLinked
  : keeps.

Lemma keeps_syncOne cb settings a st : keeps (syncOne cb settings a st).
Proof.
  unfold syncOne.
  destruct (cb !! courseId a) as [c|]; [|keeps_tac].
  destruct (negb (truthy (todoistProjectId c))); [keeps_tac|].
  apply keeps_bind; [keeps_tac|intros today].
  apply keeps_bind; [keeps_tac|intros tz].
  destruct (negb (truthy (todoistTaskId a))); [|keeps_tac].
  destruct (truthy _); keeps_tac.
Qed.

Lemma keeps_syncLoop cb settings l : forall st, keeps (syncLoop cb settings l st).
Proof.
  induction l as [|a rest IH]; intros st; simpl; [keeps_tac|].
  apply keeps_bind; [apply keeps_syncOne|intros st1; apply IH].
Qed.

Lemma keeps_loadExistingTasks ps : forall m, keeps (loadExistingTasks ps m).
Proof.
  induction ps as [|p rest IH]; intros m; simpl; [keeps_tac|].
  apply keeps_bind; [keeps_tac|intros m1; apply IH].
Qed.

(* ===================================================================== *)
(** * 22. The external calls, case by case *)
(* ===================================================================== *)

Lemma todoist_updateTask_fails id prio due w :
  updateFails id w = true ->
  exists msg,
    todoist_updateTask id prio due w
    = (Throw msg, advance {| ev_call := PostTaskUpdate id; ev_ok := false |} w).
Proof.
  unfold updateFails, todoist_updateTask, external. intros H.
  destruct (apiFaults w (tick w)); [eauto|]. simpl in H.
  destruct (hasTask id (tasks w)); [discriminate|]. eauto.
Qed.

Lemma todoist_updateTask_ok id prio due w :
  updateFails id w = false ->
  todoist_updateTask id prio due w
  = (Ok tt, advance {| ev_call := PostTaskUpdate id; ev_ok := true |}
              (set_tasks (retask id prio due (tasks w)) (taskSeq w) w)).
Proof.
  unfold updateFails, todoist_updateTask, external. intros H.
  destruct (apiFaults w (tick w)); [discriminate|]. simpl in H.
  destruct (hasTask id (tasks w)); [reflexivity|discriminate].
Qed.

Lemma todoist_createTask_ok title projectId prio due w :
  apiFaults w (tick w) = false ->
  todoist_createTask title projectId prio due w
  = (Ok (natStr (taskSeq w)),
     advance {| ev_call := PostTaskCreate projectId title; ev_ok := true |}
       (set_tasks
          (tasks w ++ [{| task_id := natStr (taskSeq w); content := title;
                          project_id := projectId; priority := prio;
                          due := due |}])
          (S (taskSeq w)) w)).
Proof. unfold todoist_createTask, external. intros ->. reflexivity. Qed.

Lemma todoist_createTask_fails title projectId prio due w :
  apiFaults w (tick w) = true ->
  todoist_createTask title projectId prio due w
  = (Throw "Request failed",
     advance {| ev_call := PostTaskCreate projectId title; ev_ok := false |} w).
Proof. unfold todoist_createTask, external. intros ->. reflexivity. Qed.

Lemma assignment_update_ok id p w :
  storeFaults w (tick w) = false ->
  hasAssignment id (assignments w) = true ->
  assignment_update id p w
  = (Ok tt, advance {| ev_call := AssignmentUpdate id; ev_ok := true |}
              (set_assignments (patchWhere id p (assignments w)) w)).
Proof. unfold assignment_update, external. intros -> ->. reflexivity. Qed.

Lemma assignment_update_fails id p w :
  storeFaults w (tick w) = true ->
  assignment_update id p w
  = (Throw "Request failed",
     advance {| ev_call := AssignmentUpdate id; ev_ok := false |} w).
Proof. unfold assignment_update, external. intros ->. reflexivity. Qed.

(** Todoist never hands out an empty id. *)
Lemma natStr_truthy (n : nat) : truthy (Some (natStr n)) = true.
Proof.
  unfold natStr, NilZero.string_of_uint.
  destruct (Nat.to_uint n); reflexivity.
Qed.

Lemma truthy_Some (o : option string) :
  truthy o = true -> o = Some (nullish o "").
Proof. destruct o; [reflexivity|discriminate]. Qed.

(* ===================================================================== *)
(** * 23. The loop body, branch by branch *)
(* ===================================================================== *)

Lemma syncOne_skip cb settings a st w :
  actionable cb a = false ->
  syncOne cb settings a st w = (Ok (addSkipped st), w).
Proof.
  unfold actionable, syncOne. destruct (cb !! courseId a) as [c|];
    [intros ->|]; reflexivity.
Qed.

Lemma syncOne_linked cb settings a st w c :
  cb !! courseId a = Some c ->
  truthy (todoistProjectId c) = true ->
  truthy (todoistTaskId a) = true ->
  syncOne cb settings a st w
  = updateLinked (nullish (todoistTaskId a) "") (priorityFor w settings a)
      (toTodoistDate (tzOffset w) (dueDate a)) a st w.
Proof. unfold syncOne. intros -> -> ->. reflexivity. Qed.

Lemma syncOne_relink cb settings a st w c :
  cb !! courseId a = Some c ->
  truthy (todoistProjectId c) = true ->
  truthy (todoistTaskId a) = false ->
  truthy (existingTasksByKey st
            !! makeTaskKey (nullish (todoistProjectId c) "") (name a)) = true ->
  syncOne cb settings a st w
  = relinkExisting
      (nullish (existingTasksByKey st
                  !! makeTaskKey (nullish (todoistProjectId c) "") (name a)) "")
      (priorityFor w settings a)
      (toTodoistDate (tzOffset w) (dueDate a)) a st w.
Proof.
  unfold syncOne. intros -> -> -> H. simpl.
  unfold bind, getNow, getZone. simpl. rewrite H. reflexivity.
Qed.

Lemma syncOne_create cb settings a st w c :
  cb !! courseId a = Some c ->
  truthy (todoistProjectId c) = true ->
  truthy (todoistTaskId a) = false ->
  truthy (existingTasksByKey st
            !! makeTaskKey (nullish (todoistProjectId c) "") (name a)) = false ->
  syncOne cb settings a st w
  = createNew (makeTaskKey (nullish (todoistProjectId c) "") (name a))
      (nullish (todoistProjectId c) "") (priorityFor w settings a)
      (toTodoistDate (tzOffset w) (dueDate a)) a st w.
Proof.
  unfold syncOne. intros -> -> -> H. simpl.
  unfold bind, getNow, getZone. simpl. rewrite H. reflexivity.
Qed.

(** The linked branch, whether the update goes through or not, when the
    store write that follows succeeds. *)
Lemma updateLinked_spec id prio due a st w :
  storeFaults w (S (tick w)) = false ->
  hasAssignment (assignment_id a) (assignments w) = true ->
  updateLinked id prio due a st w
  = (Ok (if updateFails id w then addSkipped st else st),
     advance {| ev_call := AssignmentUpdate (assignment_id a); ev_ok := true |}
       (set_assignments
          (patchWhere (assignment_id a)
             {| set_todoistTaskId :=
                  if updateFails id w then Some None else None;
                set_lastSyncedAt := clock w (S (tick w)) |}
             (assignments w))
          (advance {| ev_call := PostTaskUpdate id;
                      ev_ok := negb (updateFails id w) |}
             (if updateFails id w then w
              else set_tasks (retask id prio due (tasks w)) (taskSeq w) w)))).
Proof.
  intros Hs Ha. unfold updateLinked, tryCatch, bind.
  destruct (updateFails id w) eqn:Hu.
  - destruct (todoist_updateTask_fails id prio due w Hu) as [msg ->].
    unfold getNow. rewrite assignment_update_ok by assumption. reflexivity.
  - rewrite (todoist_updateTask_ok id prio due w Hu).
    unfold getNow. rewrite assignment_update_ok by assumption. reflexivity.
Qed.

Lemma length_retask id prio due (l : list TodoistTask) :
  length (retask id prio due l) = length l.
Proof. unfold retask. apply length_map. Qed.

(** An update changes neither the project nor the title of a task. *)
Lemma keyOfTask_retask id prio due (l : list TodoistTask) :
  map keyOfTask (retask id prio due l) = map keyOfTask l.
Proof.
  unfold retask. rewrite map_map. apply map_ext. intros t.
  destruct (String.eqb (task_id t) id); reflexivity.
Qed.

(** The relink branch never throws and never creates a task. *)
Lemma relinkExisting_spec id prio due a st w :
  exists st' w',
    relinkExisting id prio due a st w = (Ok st', w')
    /\ st_created st' = st_created st
    /\ existingTasksByKey st' = existingTasksByKey st
    /\ length (tasks w') = length (tasks w)
    /\ map keyOfTask (tasks w') = map keyOfTask (tasks w)
    /\ List.filter (fun e => isTaskCreation e) (trace w')
       = List.filter (fun e => isTaskCreation e) (trace w)
    /\ (updateFails id w = true ->
        st' = st /\ assignments w' = assignments w /\ tasks w' = tasks w
        /\ trace w'
           = {| ev_call := PostTaskUpdate id; ev_ok := false |} :: trace w)
    /\ (updateFails id w = false ->
        storeFaults w (S (tick w)) = false ->
        hasAssignment (assignment_id a) (assignments w) = true ->
        st' = addSkipped st
        /\ assignments w'
           = patchWhere (assignment_id a)
               {| set_todoistTaskId := Some (Some id);
                  set_lastSyncedAt := clock w (S (tick w)) |} (assignments w)
        /\ tasks w' = retask id prio due (tasks w)
        /\ trace w'
           = {| ev_call := AssignmentUpdate (assignment_id a); ev_ok := true |}
             :: {| ev_call := PostTaskUpdate id; ev_ok := true |} :: trace w).
Proof.
  unfold relinkExisting, tryCatch, bind.
  destruct (updateFails id w) eqn:Hu.
  - destruct (todoist_updateTask_fails id prio due w Hu) as [msg ->].
    eexists _, _. split; [reflexivity|]. simpl.
    repeat split; try reflexivity; try discriminate.
  - rewrite (todoist_updateTask_ok id prio due w Hu). unfold getNow.
    unfold assignment_update at 1, external at 1. simpl.
    destruct (storeFaults w (S (tick w))) eqn:Hs.
    + eexists _, _. split; [reflexivity|]. simpl.
      rewrite length_retask, keyOfTask_retask.
      repeat split; try reflexivity; try discriminate.
    + destruct (hasAssignment (assignment_id a) (assignments w)) eqn:Ha.
      * eexists _, _. split; [reflexivity|]. simpl.
        rewrite length_retask, keyOfTask_retask.
        repeat split; try reflexivity; try discriminate.
      * eexists _, _. split; [reflexivity|]. simpl.
        rewrite length_retask, keyOfTask_retask.
        repeat split; try reflexivity; try discriminate.
Qed.

(** The creation branch when Todoist and the store both answer. *)
Lemma createNew_ok key projectId prio due a st w :
  apiFaults w (tick w) = false ->
  storeFaults w (S (tick w)) = false ->
  hasAssignment (assignment_id a) (assignments w) = true ->
  createNew key projectId prio due a st w
  = (Ok (addCreated key (natStr (taskSeq w)) st),
     advance {| ev_call := AssignmentUpdate (assignment_id a); ev_ok := true |}
       (set_assignments
          (patchWhere (assignment_id a)
             {| set_todoistTaskId := Some (Some (natStr (taskSeq w)));
                set_lastSyncedAt := clock w (S (tick w)) |}
             (assignments w))
          (advance {| ev_call := PostTaskCreate projectId (name a);
                      ev_ok := true |}
             (set_tasks
                (tasks w ++ [{| task_id := natStr (taskSeq w);
                                content := name a; project_id := projectId;
                                priority := prio; due := due |}])
                (S (taskSeq w)) w)))).
Proof.
  intros Hapi Hs Ha. unfold createNew, tryCatch, bind.
  rewrite todoist_createTask_ok by assumption.
  unfold getNow. rewrite assignment_update_ok by assumption. reflexivity.
Qed.

(** The creation branch when the request to Todoist throws. *)
Lemma createNew_fails key projectId prio due a st w :
  apiFaults w (tick w) = true ->
  createNew key projectId prio due a st w
  = (Ok (addSkipped st),
     advance {| ev_call := PostTaskCreate projectId (name a); ev_ok := false |}
       w).
Proof.
  intros Hapi. unfold createNew, tryCatch, bind.
  rewrite todoist_createTask_fails by assumption. reflexivity.
Qed.

(* ===================================================================== *)
(** * 24. The state machine of one assignment *)
(* ===================================================================== *)

Lemma hasAssignment_In (a : Assignment) (l : list Assignment) :
  In a l -> hasAssignment (assignment_id a) l = true.
Proof.
  intros H. unfold hasAssignment. apply existsb_exists.
  exists a. split; [exact H|apply String.eqb_refl].
Qed.

Lemma In_patchWhere (id : string) (p : AssignmentPatch) (a : Assignment)
    (l : list Assignment) :
  In a l -> assignment_id a = id -> In (patchAssignment p a) (patchWhere id p l).
Proof.
  intros H <-. unfold patchWhere. apply in_map_iff.
  exists a. rewrite String.eqb_refl. auto.
Qed.

Lemma patchWhere_inv (id : string) (p : AssignmentPatch) (r : Assignment)
    (l : list Assignment) :
  In r (patchWhere id p l) -> assignment_id r = id ->
  exists r0, In r0 l /\ r = patchAssignment p r0.
Proof.
  unfold patchWhere. intros H Hid. apply in_map_iff in H.
  destruct H as (r0 & Hr & Hin). exists r0. split; [exact Hin|].
  destruct (String.eqb_spec (assignment_id r0) id) as [_|Hne]; [auto|].
  subst r. contradiction.
Qed.

(** C3 -- the code at the failing input.  The assignment is unlinked, the
    cache holds a task of the same project and trimmed title, and the update
    of that task throws: the run issues no creation request, leaves the
    assignment unlinked and counts it neither as created nor as skipped. *)
Lemma failed_relink_creates_nothing :
  let '(res, w') := syncAssignmentsToTodoist "u" ["c"] None relinkFails in
  res = Ok {| created := 0; skipped := 0 |}
  /\ tasks w' = tasks relinkFails
  /\ assignments w' = assignments relinkFails
  /\ rev (trace w')
     = [ev (UserFindUnique "u") true; ev (SyncRunCreate 1) true;
        ev CourseFindMany true; ev AssignmentFindMany true;
        ev (GetTasks "P") true; ev (PostTaskUpdate "77") false;
        ev (SyncRunUpdate 1 SUCCESS) true].
Proof. vm_compute. repeat split; reflexivity. Qed.

(** The same, for every unlinked assignment with a cached task whose update
    throws: the iteration ends with the loop state, the tables and the task
    list as they were. *)
Lemma relink_failure_skips_creation cb settings a st w c :
  cb !! courseId a = Some c ->
  truthy (todoistProjectId c) = true ->
  truthy (todoistTaskId a) = false ->
  let key := makeTaskKey (nullish (todoistProjectId c) "") (name a) in
  truthy (existingTasksByKey st !! key) = true ->
  updateFails (nullish (existingTasksByKey st !! key) "") w = true ->
  exists w',
    syncOne cb settings a st w = (Ok st, w')
    /\ assignments w' = assignments w
    /\ tasks w' = tasks w
    /\ trace w'
       = ev (PostTaskUpdate (nullish (existingTasksByKey st !! key) "")) false
         :: trace w.
Proof.
  intros Hc Hp Hl key Hk Hu.
  rewrite (syncOne_relink _ _ _ _ _ _ Hc Hp Hl Hk). fold key.
  destruct (relinkExisting_spec (nullish (existingTasksByKey st !! key) "")
              (priorityFor w settings a)
              (toTodoistDate (tzOffset w) (dueDate a)) a st w)
    as (st' & w' & E & _ & _ & _ & _ & _ & Hfail & _).
  destruct (Hfail Hu) as (-> & Ha & Ht & Htr).
  exists w'. auto.
Qed.



(** Two unlinked assignments of the same title in the same project, an empty
    project: one run creates one task and links both assignments to it. *)
Example same_title_twice_creates_once :
  let '(res, w') := syncAssignmentsToTodoist "u" ["c"] None sameTitleTwice in
  res = Ok {| created := 1; skipped := 1 |}
  /\ map task_id (tasks w') = ["100"]
  /\ map todoistTaskId (assignments w') = [Some "100"; Some "100"].
Proof. vm_compute. repeat split; reflexivity. Qed.



(** The same over two runs: the first run clears the link and counts one
    skipped, the second creates the task anew and counts one created. *)
Example recreation_over_two_runs :
  let '(res1, w1) := syncAssignmentsToTodoist "u" ["c"] None deletedRemotely in
  let '(res2, w2) := syncAssignmentsToTodoist "u" ["c"] None w1 in
  res1 = Ok {| created := 0; skipped := 1 |}
  /\ map todoistTaskId (assignments w1) = [None]
  /\ res2 = Ok {| created := 1; skipped := 0 |}
  /\ map todoistTaskId (assignments w2) = [Some "100"]
  /\ map content (tasks w2) = ["HW1"].
Proof. vm_compute. repeat split; reflexivity. Qed.

(** C10, as stated, fails.  [lastSyncedAt] does not record the most recent
    sync attempt of every assignment: when the creation of the task of an
    unlinked assignment throws, the run has attempted the assignment and
    counts it as skipped, and its [lastSyncedAt] stays null. *)
Lemma failed_creation_leaves_lastSyncedAt :
  let '(res, w') := syncAssignmentsToTodoist "u" ["c"] None creationFails in
  res = Ok {| created := 0; skipped := 1 |}
  /\ In (ev (PostTaskCreate "P" "HW1") false) (trace w')
  /\ map lastSyncedAt (assignments w') = [None].
Proof. vm_compute. repeat split. right. left. reflexivity. Qed.

(** C10, amended -- for a linked assignment, the iteration writes the current
    time to [lastSyncedAt] whether the update of the task succeeds or fails;
    when it fails, the same write clears [todoistTaskId] and the assignment
    is counted as skipped.  So the [lastSyncedAt] of a linked assignment is
    the time of the last attempt, not of the last success, and a non-null
    [lastSyncedAt] does not imply a link. *)
Theorem linked_update_stamps_lastSyncedAt cb settings a st w c
    (Hc : cb !! courseId a = Some c)
    (Hp : truthy (todoistProjectId c) = true)
    (Hl : truthy (todoistTaskId a) = true)
    (Hs : storeFaults w (S (tick w)) = false)
    (Ha : hasAssignment (assignment_id a) (assignments w) = true) :
  let failed := updateFails (nullish (todoistTaskId a) "") w in
  let stamp := clock w (S (tick w)) in
  exists w',
    syncOne cb settings a st w
    = (Ok (if failed then addSkipped st else st), w')
    /\ assignments w'
       = patchWhere (assignment_id a)
           {| set_todoistTaskId := if failed then Some None else None;
              set_lastSyncedAt := stamp |} (assignments w)
    /\ forall r, In r (assignments w') ->
                 assignment_id r = assignment_id a ->
                 lastSyncedAt r = Some stamp
                 /\ (if failed then todoistTaskId r = None else True).
Proof.
  intros failed stamp.
  rewrite (syncOne_linked _ _ _ _ _ _ Hc Hp Hl).
  rewrite (updateLinked_spec _ _ _ _ _ _ Hs Ha). fold failed. fold stamp.
  eexists. split; [reflexivity|]. simpl. split; [reflexivity|].
  intros r Hr Hid.
  destruct (patchWhere_inv _ _ _ _ Hr Hid) as (r0 & _ & ->).
  split; [reflexivity|].
  destruct failed; [reflexivity|exact I].
Qed.

(** The assignment linked to a task that is gone: the write of the first
    iteration, one second after the start. *)
Lemma linked_update_stamps_lastSyncedAt_witness :
  let a := homework "a1" (Some "gone") in
  let w := exampleWorld never [a] [] in
  exists w',
    syncOne exampleCourses exampleSettings a emptyState w
    = (Ok (addSkipped emptyState), w')
    /\ forall r, In r (assignments w') -> assignment_id r = "a1" ->
                 lastSyncedAt r = Some (1000 + 1766404800000)
                 /\ todoistTaskId r = None.
Proof.
  intros a w.
  destruct (linked_update_stamps_lastSyncedAt exampleCourses exampleSettings a
              emptyState w exampleCourse
              ltac:(vm_compute; reflexivity) ltac:(vm_compute; reflexivity)
              ltac:(vm_compute; reflexivity) ltac:(vm_compute; reflexivity)
              ltac:(vm_compute; reflexivity))
    as (w' & E & _ & H).
  exists w'. split; [exact E|]. exact H.
Defined.

(* ===================================================================== *)
(** * 25. Run bracketing *)
(* ===================================================================== *)

Lemma finalizations_app (a b : list Event) :
  finalizations (a ++ b) = (finalizations a + finalizations b)%nat.
Proof. unfold finalizations. now rewrite List.filter_app, length_app. Qed.

Lemma noRunCalls_spec (evs : list Event) :
  forallb (fun e => negb (isRunCall (ev_call e))) evs = true ->
  finalizations evs = 0%nat
  /\ forallb (fun e => match ev_call e with
                       | SyncRunCreate _ => false
                       | _ => true
                       end) evs = true.
Proof.
  induction evs as [|e evs IH]; simpl; [auto|].
  intros H. apply andb_true_iff in H. destruct H as [He H].
  destruct (IH H) as [IH1 IH2]. unfold finalizations in *. simpl.
  unfold isFinalization. destruct (ev_call e); simpl in *;
    try discriminate; rewrite ?IH2; auto.
Qed.

Lemma syncRun_update_cases id fin s msg w :
  hasRun id (syncRuns w) = true ->
  syncRun_update id fin s msg w
  = if storeFaults w (tick w)
    then (Throw "Request failed", advance (ev (SyncRunUpdate id s) false) w)
    else (Ok tt, advance (ev (SyncRunUpdate id s) true)
                   (set_syncRuns (finalizeRun id fin s msg (syncRuns w)) w)).
Proof.
  intros H. unfold syncRun_update, external. rewrite H.
  destruct (storeFaults w (tick w)); reflexivity.
Qed.

Lemma markSuccess_eq run c s w :
  markSuccess run c s w
  = syncRun_update (run_id run) (clock w (tick w)) SUCCESS
      (successMessage c s) w.
Proof. reflexivity. Qed.

Lemma markError_eq run err w :
  markError run err w
  = syncRun_update (run_id run) (clock w (tick w)) ERROR err w.
Proof. reflexivity. Qed.

Lemma finishes_markSuccess run c s :
  finishes run (do! markSuccess run c s in ret {| created := c; skipped := s |}).
Proof.
  intros w Hrun. unfold bind. rewrite markSuccess_eq.
  rewrite (syncRun_update_cases _ _ _ _ _ Hrun).
  destruct (storeFaults w (tick w)); simpl.
  - split; [reflexivity|]. split; [reflexivity|].
    eexists [_]. split; [reflexivity|]. auto.
  - split; [reflexivity|]. split; [reflexivity|].
    eexists [_]. split; [reflexivity|]. split; [reflexivity|].
    split; [reflexivity|]. eexists. reflexivity.
Qed.

Lemma finishes_bind_keeps {A : Type} run (m : M A) (f : A -> M SyncResult) :
  keeps m -> (forall a, finishes run (f a)) -> finishes run (bind m f).
Proof.
  intros Hm Hf w Hrun. unfold bind. specialize (Hm w).
  destruct (m w) as [[a|msg] w1]; simpl in Hm |- *;
    destruct Hm as [Hsf _ Hcl _ _ _ Hruns _ (evs1 & Ht1 & Hp1)];
    destruct (noRunCalls_spec _ Hp1) as [Hfin1 Hnc1].
  - rewrite <- Hruns in Hrun.
    destruct (Hf a w1 Hrun) as (Hsf2 & Hcl2 & evs2 & Ht2 & Hnc2 & Hres).
    split; [congruence|]. split; [congruence|].
    exists (evs2 ++ evs1). split; [rewrite Ht2, Ht1; apply app_assoc|].
    split; [rewrite forallb_app, Hnc1, Hnc2; reflexivity|].
    rewrite finalizations_app, Hfin1, Nat.add_0_r.
    destruct ((f a w1).1); rewrite <- Hruns; exact Hres.
  - split; [exact Hsf|]. split; [exact Hcl|].
    exists evs1. auto.
Qed.

Lemma finishes_syncBody run userId courseIds settings :
  finishes run (syncBody run userId courseIds settings).
Proof.
  unfold syncBody.
  apply finishes_bind_keeps; [apply keeps_course_findMany|intros cs].
  destruct (Nat.eqb (length cs) 0); [apply finishes_markSuccess|].
  apply finishes_bind_keeps; [apply keeps_assignment_findMany|intros l].
  apply finishes_bind_keeps; [apply keeps_loadExistingTasks|intros index].
  apply finishes_bind_keeps; [apply keeps_syncLoop|intros st].
  apply finishes_markSuccess.
Qed.

(** The record a store creates has an id of its own: finalizing it touches
    no older record. *)
Lemma run_id_below_fresh (l : list SyncRun) (r : SyncRun) :
  In r l -> (run_id r < freshRunId l)%nat.
Proof.
  unfold freshRunId. induction l as [|x l IH]; simpl; [tauto|].
  intros [->|H]; [lia|]. specialize (IH H). lia.
Qed.

Lemma finalizeRun_fresh (l : list SyncRun) (run : SyncRun) fin s msg :
  run_id run = freshRunId l ->
  finalizeRun (run_id run) fin s msg (l ++ [run])
  = l ++ [{| run_id := run_id run; run_userId := run_userId run;
            finishedAt := Some fin; status := s; message := msg |}].
Proof.
  intros Hid. unfold finalizeRun. rewrite map_app. simpl.
  rewrite Nat.eqb_refl. f_equal.
  rewrite <- (map_id l) at 2. apply map_ext_in. intros r Hr.
  pose proof (run_id_below_fresh _ _ Hr) as Hlt.
  destruct (Nat.eqb_spec (run_id r) (run_id run)); [lia|reflexivity].
Qed.

Lemma hasRun_last (l : list SyncRun) (run : SyncRun) :
  hasRun (run_id run) (l ++ [run]) = true.
Proof.
  unfold hasRun. rewrite existsb_app. simpl.
  rewrite Nat.eqb_refl. apply orb_true_iff. right. reflexivity.
Qed.

Lemma hasAssignment_identity (id : string) (l l' : list Assignment) :
  map identity l' = map identity l ->
  hasAssignment id l' = hasAssignment id l.
Proof.
  assert (H : forall k, hasAssignment id k
                        = existsb (fun x => String.eqb x.1.1.1 id)
                            (map identity k)).
  { induction k as [|r k IH]; simpl; [reflexivity|]. now rewrite IH. }
  intros E. now rewrite !H, E.
Qed.

Lemma loadExistingTasks_total ps :
  forall m w, exists m' w', loadExistingTasks ps m w = (Ok m', w').
Proof.
  induction ps as [|p rest IH]; intros m w; simpl; [eexists _, _; reflexivity|].
  unfold bind at 1, tryCatch, bind.
  destruct (todoist_getTasks p w) as [[d|msg] w1]; simpl; apply IH.
Qed.

Lemma syncOne_total cb settings a st w :
  (forall n, storeFaults w n = false) ->
  hasAssignment (assignment_id a) (assignments w) = true ->
  exists st' w', syncOne cb settings a st w = (Ok st', w').
Proof.
  intros Hrel Ha.
  destruct (actionable cb a) eqn:Hact.
  2: { rewrite (syncOne_skip _ _ _ _ _ Hact). eexists _, _. reflexivity. }
  unfold actionable in Hact.
  destruct (cb !! courseId a) as [c|] eqn:Hc; [|discriminate].
  destruct (truthy (todoistTaskId a)) eqn:Hl.
  - rewrite (syncOne_linked _ _ _ _ _ _ Hc Hact Hl).
    rewrite (updateLinked_spec _ _ _ _ _ _ (Hrel _) Ha).
    eexists _, _. reflexivity.
  - destruct (truthy (existingTasksByKey st
                !! makeTaskKey (nullish (todoistProjectId c) "") (name a)))
      eqn:Hk.
    + rewrite (syncOne_relink _ _ _ _ _ _ Hc Hact Hl Hk).
      destruct (relinkExisting_spec
                  (nullish (existingTasksByKey st
                     !! makeTaskKey (nullish (todoistProjectId c) "") (name a))
                     "")
                  (priorityFor w settings a)
                  (toTodoistDate (tzOffset w) (dueDate a)) a st w)
        as (st' & w' & E & _).
      eexists _, _. exact E.
    + rewrite (syncOne_create _ _ _ _ _ _ Hc Hact Hl Hk).
      destruct (apiFaults w (tick w)) eqn:Hapi.
      * rewrite createNew_fails by assumption. eexists _, _. reflexivity.
      * rewrite createNew_ok by auto. eexists _, _. reflexivity.
Qed.

Lemma syncLoop_total cb settings l :
  forall st w,
    (forall n, storeFaults w n = false) ->
    (forall a, In a l -> hasAssignment (assignment_id a) (assignments w) = true) ->
    exists st' w', syncLoop cb settings l st w = (Ok st', w').
Proof.
  induction l as [|a rest IH]; intros st w Hrel Hl; simpl;
    [eexists _, _; reflexivity|].
  unfold bind.
  destruct (syncOne_total cb settings a st w Hrel (Hl a (or_introl eq_refl)))
    as (st1 & w1 & E).
  pose proof (keeps_syncOne cb settings a st w) as Hk. rewrite E in *.
  simpl in Hk. apply IH.
  - intros n. rewrite (steps_storeFaults _ _ Hk). apply Hrel.
  - intros b Hb.
    rewrite (hasAssignment_identity _ _ _ (steps_identity _ _ Hk)).
    apply Hl. right. exact Hb.
Qed.

Lemma In_filter_hasAssignment (f : Assignment -> bool) (l : list Assignment)
    (a : Assignment) :
  In a (List.filter f l) -> hasAssignment (assignment_id a) l = true.
Proof.
  intros H. apply hasAssignment_In. apply filter_In in H. tauto.
Qed.

#[local] Arguments syncBody : simpl never.
#[local] Arguments markError : simpl never.
#[local] Arguments markSuccess : simpl never.
#[local] Arguments startMessage : simpl never.
#[local] Arguments successMessage : simpl never.
#[local] Arguments freshRunId : simpl never.
#[local] Arguments syncLoop : simpl never.
#[local] Arguments loadExistingTasks : simpl never.
#[local] Arguments courseMap : simpl never.
#[local] Arguments projectIdsOf : simpl never.
#[local] Arguments normalizePrioritySettings : simpl never.

Lemma markSuccess_total run c s w :
  (forall n, storeFaults w n = false) ->
  hasRun (run_id run) (syncRuns w) = true ->
  exists w',
    (do! markSuccess run c s in ret {| created := c; skipped := s |}) w
    = (Ok {| created := c; skipped := s |}, w').
Proof.
  intros Hrel Hrun. unfold bind. rewrite markSuccess_eq.
  rewrite (syncRun_update_cases _ _ _ _ _ Hrun), Hrel.
  eexists. reflexivity.
Qed.

(** With a store that answers, the [try] block returns: no failure of the
    Todoist API makes it throw. *)
Lemma syncBody_total run userId courseIds settings w :
  (forall n, storeFaults w n = false) ->
  hasRun (run_id run) (syncRuns w) = true ->
  exists r w', syncBody run userId courseIds settings w = (Ok r, w').
Proof.
  intros Hrel Hrun. unfold syncBody. unfold bind at 1.
  unfold course_findMany, external. rewrite Hrel.
  set (cs := selectCourses _ _ (courses w)).
  set (w1 := advance _ w).
  destruct (Nat.eqb (length cs) 0).
  { destruct (markSuccess_total run 0 0 w1 Hrel Hrun) as (w' & E).
    eexists _, _. exact E. }
  unfold bind at 1. unfold assignment_findMany, external.
  change (storeFaults w1 (tick w1)) with (storeFaults w (S (tick w))).
  rewrite Hrel.
  set (l := selectAssignments _ (assignments w1)).
  set (w2 := advance _ w1).
  unfold bind at 1.
  destruct (loadExistingTasks_total (projectIdsOf cs) ∅ w2) as (index & w3 & E3).
  pose proof (keeps_loadExistingTasks (projectIdsOf cs) ∅ w2) as K3.
  rewrite E3 in *. simpl in K3.
  assert (Hrel3 : forall n, storeFaults w3 n = false).
  { intros n. rewrite (steps_storeFaults _ _ K3). apply Hrel. }
  assert (Hl3 : forall a, In a l ->
                hasAssignment (assignment_id a) (assignments w3) = true).
  { intros a Ha.
    rewrite (hasAssignment_identity _ _ _ (steps_identity _ _ K3)).
    exact (In_filter_hasAssignment _ _ _ Ha). }
  unfold bind at 1.
  destruct (syncLoop_total (courseMap cs) settings l
              {| st_created := 0; st_skipped := 0;
                 existingTasksByKey := index |} w3 Hrel3 Hl3)
    as (st & w4 & E4).
  pose proof (keeps_syncLoop (courseMap cs) settings l
                {| st_created := 0; st_skipped := 0;
                   existingTasksByKey := index |} w3) as K4.
  rewrite E4 in *. simpl in K4.
  assert (Hrel4 : forall n, storeFaults w4 n = false).
  { intros n. rewrite (steps_storeFaults _ _ K4). apply Hrel3. }
  assert (Hrun4 : hasRun (run_id run) (syncRuns w4) = true).
  { rewrite (steps_syncRuns _ _ K4), (steps_syncRuns _ _ K3). exact Hrun. }
  destruct (markSuccess_total run (st_created st) (st_skipped st) w4
              Hrel4 Hrun4) as (w' & E).
  eexists _, _. exact E.
Qed.

(** The invocation up to the [try] block, when the user lookup and the
    insert of the SyncRun record go through. *)
Lemma sync_prelude w userId courseIds prioritySettings tok :
  Nat.eqb (length courseIds) 0 = false ->
  storeFaults w (tick w) = false ->
  List.find (fun u => String.eqb (user_id u) userId) (users w)
    ≫= todoistAccount = Some tok ->
  storeFaults w (S (tick w)) = false ->
  syncAssignmentsToTodoist userId courseIds prioritySettings w
  = tryCatch
      (syncBody (startedRun userId courseIds w) userId courseIds
         (normalizePrioritySettings prioritySettings))
      (fun err => do! markError (startedRun userId courseIds w) err in throw err)
      (afterStart userId courseIds w).
Proof.
  intros Hne Hf0 Hacc Hf1. unfold syncAssignmentsToTodoist. rewrite Hne.
  unfold bind at 1. unfold user_findUnique, external. rewrite Hf0, Hacc.
  unfold bind at 1. unfold syncRun_create, external. simpl. rewrite Hf1.
  reflexivity.
Qed.

(** C2, as stated, fails.  An invocation with an empty list of course ids
    returns zero created and zero skipped before anything else: no SyncRun
    record is created, none is finalized. *)
Lemma empty_course_list_creates_no_run :
  let '(res, w') := syncAssignmentsToTodoist "u" [] None deletedRemotely in
  res = Ok {| created := 0; skipped := 0 |}
  /\ syncRuns w' = []
  /\ trace w' = [].
Proof. vm_compute. repeat split; reflexivity. Qed.

(** C2, amended -- Run bracketing.  An invocation with a non-empty list of
    course ids, for a user whose Todoist account the store returns, and whose
    SyncRun insert succeeds, adds exactly one SyncRun record; the insert is
    the second external call, after the user lookup and before every other
    call, the calls to the destination among them.  The record is finalized
    at most once: when the invocation returns, it is SUCCESS with the
    created/skipped summary (so in the zero-course case too); when it throws,
    it is ERROR with the message of the exception thrown, unless the
    finalizing write itself failed, which leaves it RUNNING.  With a store
    that answers the invocation returns whatever the destination API does:
    its failures never finalize the run as ERROR. *)
Theorem sync_run_bracketing w userId courseIds prioritySettings tok
    (Hne : Nat.eqb (length courseIds) 0 = false)
    (Hf0 : storeFaults w (tick w) = false)
    (Hacc : List.find (fun u => String.eqb (user_id u) userId) (users w)
              ≫= todoistAccount = Some tok)
    (Hf1 : storeFaults w (S (tick w)) = false) :
  let id := freshRunId (syncRuns w) in
  let out := syncAssignmentsToTodoist userId courseIds prioritySettings w in
  exists evs run,
    trace out.2
    = evs ++ ev (SyncRunCreate id) true
          :: ev (UserFindUnique userId) true :: trace w
    /\ forallb (fun e => match ev_call e with
                         | SyncRunCreate _ => false
                         | _ => true
                         end) evs = true
    /\ syncRuns out.2 = syncRuns w ++ [run]
    /\ run_id run = id /\ run_userId run = userId
    /\ match out.1 with
       | Ok r =>
           status run = SUCCESS
           /\ message run = successMessage (created r) (skipped r)
           /\ finalizations evs = 1%nat
       | Throw msg =>
           (status run = ERROR /\ message run = msg
            /\ finalizations evs = 1%nat)
           \/ (status run = RUNNING /\ finalizations evs = 0%nat)
       end
    /\ ((forall n, storeFaults w n = false) ->
        exists r, out.1 = Ok r /\ status run = SUCCESS).
Proof.
  intros id out.
  set (run := startedRun userId courseIds w).
  set (w2 := afterStart userId courseIds w).
  assert (Hout : out
                 = tryCatch
                     (syncBody run userId courseIds
                        (normalizePrioritySettings prioritySettings))
                     (fun err => do! markError run err in throw err) w2)
    by (apply (sync_prelude _ _ _ _ tok); assumption).
  assert (Hrun2 : hasRun (run_id run) (syncRuns w2) = true)
    by apply hasRun_last.
  destruct (finishes_syncBody run userId courseIds
              (normalizePrioritySettings prioritySettings) w2 Hrun2)
    as (Hsf & Hcl & evs & Ht & Hnc & Hres).
  unfold tryCatch in Hout.
  destruct (syncBody run userId courseIds
              (normalizePrioritySettings prioritySettings) w2)
    as [[r|msg] w3] eqn:E; simpl in Hsf, Hcl, Ht, Hres.
  - destruct Hres as (Hfin & fin & Hruns). rewrite Hout. simpl.
    exists evs. eexists. split; [exact Ht|]. split; [exact Hnc|].
    split; [rewrite Hruns; apply (finalizeRun_fresh (syncRuns w) run);
            reflexivity|].
    simpl. repeat split; try reflexivity; try assumption.
    intros _. eexists. split; reflexivity.
  - destruct Hres as (Hfin & Hruns).
    assert (Hrun3 : hasRun (run_id run) (syncRuns w3) = true)
      by (rewrite Hruns; exact Hrun2).
    unfold bind in Hout. rewrite markError_eq in Hout.
    rewrite (syncRun_update_cases _ _ _ _ _ Hrun3) in Hout.
    destruct (storeFaults w3 (tick w3)) eqn:Hf3; rewrite Hout; simpl.
    + exists (ev (SyncRunUpdate (run_id run) ERROR) false :: evs), run.
      split; [rewrite Ht; reflexivity|]. split; [exact Hnc|].
      split; [exact Hruns|].
      repeat split; try reflexivity.
      * right. split; [reflexivity|]. exact Hfin.
      * intros Hrel. rewrite Hsf in Hf3. simpl in Hf3.
        rewrite Hrel in Hf3. discriminate.
    + exists (ev (SyncRunUpdate (run_id run) ERROR) true :: evs).
      eexists. split; [rewrite Ht; reflexivity|]. split; [exact Hnc|].
      split; [rewrite Hruns; apply (finalizeRun_fresh (syncRuns w) run);
              reflexivity|].
      simpl. repeat split; try reflexivity.
      * left. repeat split.
        change (S (finalizations evs) = 1%nat). now rewrite Hfin.
      * intros Hrel.
        assert (Hrel2 : forall n, storeFaults w2 n = false) by exact Hrel.
        destruct (syncBody_total run userId courseIds
                    (normalizePrioritySettings prioritySettings) w2
                    Hrel2 Hrun2) as (r & w' & E').
        rewrite E' in E. discriminate.
Qed.

(** A run whose only destination update throws, over a store that answers. *)
Lemma sync_run_bracketing_witness :
  let out := syncAssignmentsToTodoist "u" ["c"] None relinkFails in
  exists evs run,
    trace out.2
    = evs ++ [ev (SyncRunCreate 1) true; ev (UserFindUnique "u") true]
    /\ syncRuns out.2 = [run]
    /\ exists r, out.1 = Ok r /\ status run = SUCCESS.
Proof.
  intros out.
  destruct (sync_run_bracketing relinkFails "u" ["c"] None "token"
              ltac:(vm_compute; reflexivity) ltac:(vm_compute; reflexivity)
              ltac:(vm_compute; reflexivity) ltac:(vm_compute; reflexivity))
    as (evs & run & Ht & _ & Hruns & _ & _ & _ & Hok).
  exists evs, run. split; [exact Ht|]. split; [exact Hruns|].
  apply Hok. reflexivity.
Defined.

(** The zero-course case: the only course asked for has no project. *)
Example zero_course_run_succeeds :
  let '(res, w') := syncAssignmentsToTodoist "u" ["c"] None nothingMapped in
  res = Ok {| created := 0; skipped := 0 |}
  /\ map (fun r => (status r, message r)) (syncRuns w')
     = [(SUCCESS, "Created 0 task(s), skipped 0.")]
  /\ forallb (fun e => negb (isDestinationCall (ev_call e))) (trace w') = true.
Proof. vm_compute. repeat split; reflexivity. Qed.

(** The store stops answering at the listing of the assignments: the run is
    finalized as ERROR with the message of the exception. *)
Example store_failure_finalizes_error :
  let '(res, w') := syncAssignmentsToTodoist "u" ["c"] None (storeBreaksAt 3) in
  res = Throw "Request failed"
  /\ map (fun r => (status r, message r)) (syncRuns w')
     = [(ERROR, "Request failed")].
Proof. vm_compute. repeat split; reflexivity. Qed.

(* ===================================================================== *)
(** * 26. Idempotence *)
(* ===================================================================== *)

Lemma sameData_refl (w : World) : sameData w w.
Proof. split; reflexivity. Qed.

Lemma sameData_trans (w1 w2 w3 : World) :
  sameData w1 w2 -> sameData w2 w3 -> sameData w1 w3.
Proof. intros [] []. split; congruence. Qed.

Lemma quiet_ret {A : Type} (a : A) : quiet (ret a).
Proof. intros w. apply sameData_refl. Qed.

Lemma quiet_bind {A B : Type} (m : M A) (f : A -> M B) :
  quiet m -> (forall a, quiet (f a)) -> quiet (bind m f).
Proof.
  intros Hm Hf w. unfold bind. specialize (Hm w).
  destruct (m w) as [[a|msg] w1]; simpl in *; [|exact Hm].
  exact (sameData_trans _ _ _ Hm (Hf a w1)).
Qed.

Lemma quiet_tryCatch {A : Type} (body : M A) (handler : string -> M A) :
  quiet body -> (forall msg, quiet (handler msg)) -> quiet (tryCatch body handler).
Proof.
  intros Hm Hf w. unfold tryCatch. specialize (Hm w).
  destruct (body w) as [[a|msg] w1]; simpl in *; [exact Hm|].
  exact (sameData_trans _ _ _ Hm (Hf msg w1)).
Qed.

Lemma quiet_external {A : Type} (faults : World -> nat -> bool) (c : Call)
    (effect : World -> Outcome A * World) :
  (forall ok, isFailedWrite (ev c ok) = false) ->
  (forall ok, isTaskCreation (ev c ok) = false) ->
  (forall w, sameData w (effect w).2) ->
  quiet (external faults c effect).
Proof.
  intros Hfw Hcr He w. unfold external.
  assert (Hadv : forall ok w1, sameData w w1 ->
                   sameData w (advance {| ev_call := c; ev_ok := ok |} w1)).
  { intros ok w1 [a b c0 d e f g]. split; simpl; try assumption.
    - unfold failedWrites in *. simpl. fold (ev c ok). now rewrite Hfw.
    - fold (ev c ok). now rewrite Hcr. }
  destruct (faults w (tick w)); simpl; [apply Hadv, sameData_refl|].
  specialize (He w). destruct (effect w) as [[a|msg] w1]; simpl in *;
    apply Hadv; exact He.
Qed.

Lemma quiet_getTasks projectId : quiet (todoist_getTasks projectId).
Proof.
  apply quiet_external; try reflexivity. intros w. apply sameData_refl.
Qed.

Lemma quiet_loadExistingTasks ps : forall m, quiet (loadExistingTasks ps m).
Proof.
  induction ps as [|p rest IH]; intros m.
  - apply quiet_ret.
  - change (loadExistingTasks (p :: rest) m)
      with (bind (tryCatch
                    (bind (todoist_getTasks p)
                       (fun data => ret (foldl (rememberTask p) m data)))
                    (fun _ => ret m))
                 (fun m1 => loadExistingTasks rest m1)).
    apply quiet_bind; [|intros m1; apply IH].
    apply quiet_tryCatch; [|intros _; apply quiet_ret].
    apply quiet_bind; [apply quiet_getTasks|intros d; apply quiet_ret].
Qed.

Lemma failedWrites_steps (w w' : World) :
  steps w w' -> (failedWrites (trace w) <= failedWrites (trace w'))%nat.
Proof.
  intros [_ _ _ _ _ _ _ _ (evs & -> & _)].
  unfold failedWrites. rewrite List.filter_app, length_app. lia.
Qed.

Lemma actionable_courseId cb (a b : Assignment) :
  courseId a = courseId b -> actionable cb a = actionable cb b.
Proof. unfold actionable. now intros ->. Qed.

Lemma courseMap_lookup (cs : list Course) (k : string) (c : Course) :
  courseMap cs !! k = Some c -> In k (map course_id cs).
Proof.
  unfold courseMap.
  assert (H : forall (m : gmap string Course),
             foldl (fun m c => <[course_id c := c]> m) m cs !! k = Some c ->
             m !! k = Some c \/ In k (map course_id cs)).
  { induction cs as [|x cs IH]; intros m Hm; simpl in *; [auto|].
    destruct (IH _ Hm) as [Hx|Hin]; [|auto].
    destruct (decide (course_id x = k)) as [->|Hne]; [auto|].
    rewrite lookup_insert_ne in Hx by exact Hne. auto. }
  intros Hk. destruct (H ∅ Hk) as [Hempty|Hin]; [|exact Hin].
  rewrite lookup_empty in Hempty. discriminate.
Qed.

Lemma inList_In (x : string) (l : list string) :
  In x l -> inList x l = true.
Proof.
  intros H. unfold inList. apply existsb_exists. exists x.
  split; [exact H|apply String.eqb_refl].
Qed.

Lemma patchWhere_In_inv (id : string) (p : AssignmentPatch) (r : Assignment)
    (l : list Assignment) :
  In r (patchWhere id p l) ->
  exists r0, In r0 l
             /\ r = if String.eqb (assignment_id r0) id
                    then patchAssignment p r0 else r0.
Proof.
  unfold patchWhere. intros H. apply in_map_iff in H.
  destruct H as (r0 & <- & Hin). eauto.
Qed.

Lemma failedWrites_cons (e : Event) (t : list Event) :
  failedWrites (e :: t)
  = ((if isFailedWrite e then 1 else 0) + failedWrites t)%nat.
Proof. unfold failedWrites. simpl. now destruct (isFailedWrite e). Qed.

(** An iteration without a failed task update or creation, over a store
    that answers: what it writes to the assignment table. *)
Lemma syncOne_clean cb settings a st w st' w' :
  (forall n, storeFaults w n = false) ->
  hasAssignment (assignment_id a) (assignments w) = true ->
  syncOne cb settings a st w = (Ok st', w') ->
  failedWrites (trace w') = failedWrites (trace w) ->
  (actionable cb a = false -> assignments w' = assignments w)
  /\ (actionable cb a = true -> truthy (todoistTaskId a) = true ->
      exists stamp,
        assignments w'
        = patchWhere (assignment_id a)
            {| set_todoistTaskId := None; set_lastSyncedAt := stamp |}
            (assignments w))
  /\ (actionable cb a = true -> truthy (todoistTaskId a) = false ->
      exists tid stamp,
        truthy (Some tid) = true
        /\ assignments w'
           = patchWhere (assignment_id a)
               {| set_todoistTaskId := Some (Some tid);
                  set_lastSyncedAt := stamp |} (assignments w)).
Proof.
  intros Hrel Ha E Hclean.
  destruct (actionable cb a) eqn:Hact.
  2: { rewrite (syncOne_skip _ _ _ _ _ Hact) in E. injection E as <- <-.
       repeat split; intros; try discriminate; reflexivity. }
  unfold actionable in Hact.
  destruct (cb !! courseId a) as [c|] eqn:Hc; [|discriminate].
  destruct (truthy (todoistTaskId a)) eqn:Hl.
  - rewrite (syncOne_linked _ _ _ _ _ _ Hc Hact Hl) in E.
    rewrite (updateLinked_spec _ _ _ _ _ _ (Hrel _) Ha) in E.
    injection E as <- <-.
    destruct (updateFails (nullish (todoistTaskId a) "") w) eqn:Hu.
    + simpl in Hclean. rewrite !failedWrites_cons in Hclean.
      simpl in Hclean. lia.
    + split; [discriminate|]. split; [|discriminate].
      intros _ _. eexists. reflexivity.
  - set (key := makeTaskKey (nullish (todoistProjectId c) "") (name a)) in *.
    destruct (truthy (existingTasksByKey st !! key)) eqn:Hk.
    + rewrite (syncOne_relink _ _ _ _ _ _ Hc Hact Hl Hk) in E. fold key in E.
      destruct (relinkExisting_spec
                  (nullish (existingTasksByKey st !! key) "")
                  (priorityFor w settings a)
                  (toTodoistDate (tzOffset w) (dueDate a)) a st w)
        as (st2 & w2 & E2 & _ & _ & _ & _ & _ & Hfail & Hok).
      rewrite E2 in E. injection E as <- <-.
      destruct (updateFails (nullish (existingTasksByKey st !! key) "") w)
        eqn:Hu.
      * destruct (Hfail eq_refl) as (_ & _ & _ & Htr).
        rewrite Htr, failedWrites_cons in Hclean. simpl in Hclean. lia.
      * destruct (Hok eq_refl (Hrel _) Ha) as (_ & Has & _ & _).
        split; [discriminate|]. split; [discriminate|].
        intros _ _. eexists _, _. split; [|exact Has].
        rewrite <- (truthy_Some _ Hk). exact Hk.
    + rewrite (syncOne_create _ _ _ _ _ _ Hc Hact Hl Hk) in E. fold key in E.
      destruct (apiFaults w (tick w)) eqn:Hapi.
      * rewrite createNew_fails in E by assumption. injection E as <- <-.
        simpl in Hclean. rewrite failedWrites_cons in Hclean.
        simpl in Hclean. lia.
      * rewrite createNew_ok in E by auto. injection E as <- <-.
        split; [discriminate|]. split; [discriminate|].
        intros _ _. eexists _, _. split; [apply natStr_truthy|reflexivity].
Qed.

Lemma linkedOrPending_step cb a rest w w' :
  linkedOrPending cb (a :: rest) w ->
  (actionable cb a = false -> assignments w' = assignments w) ->
  (actionable cb a = true -> truthy (todoistTaskId a) = true ->
   exists stamp,
     assignments w'
     = patchWhere (assignment_id a)
         {| set_todoistTaskId := None; set_lastSyncedAt := stamp |}
         (assignments w)) ->
  (actionable cb a = true -> truthy (todoistTaskId a) = false ->
   exists tid stamp,
     truthy (Some tid) = true
     /\ assignments w'
        = patchWhere (assignment_id a)
            {| set_todoistTaskId := Some (Some tid);
               set_lastSyncedAt := stamp |} (assignments w)) ->
  linkedOrPending cb rest w'.
Proof.
  intros Inv H1 H2 H3 r' Hr' Hact'.
  destruct (actionable cb a) eqn:Hact.
  - destruct (truthy (todoistTaskId a)) eqn:Hl.
    + destruct (H2 eq_refl eq_refl) as (stamp & Has). rewrite Has in Hr'.
      destruct (patchWhere_In_inv _ _ _ _ Hr') as (r0 & Hr0 & ->).
      assert (Hsame : forall (b : bool) p,
                set_todoistTaskId p = None ->
                let r' := if b then patchAssignment p r0 else r0 in
                assignment_id r' = assignment_id r0
                /\ courseId r' = courseId r0
                /\ todoistTaskId r' = todoistTaskId r0).
      { intros b p Hp. destruct b; simpl; rewrite ?Hp; auto. }
      destruct (Hsame (String.eqb (assignment_id r0) (assignment_id a))
                  {| set_todoistTaskId := None; set_lastSyncedAt := stamp |}
                  eq_refl) as (Hid & Hcid & Hlink).
      rewrite (actionable_courseId cb _ r0 Hcid) in Hact'.
      rewrite Hlink, Hid, Hcid.
      destruct (Inv r0 Hr0 Hact') as [Hlinked|(a0 & [<-|Hin] & Hi & Hci & Hun)];
        [left; exact Hlinked|congruence|].
      right. exists a0. auto.
    + destruct (H3 eq_refl eq_refl) as (tid & stamp & Htid & Has).
      rewrite Has in Hr'.
      destruct (patchWhere_In_inv _ _ _ _ Hr') as (r0 & Hr0 & ->).
      destruct (String.eqb_spec (assignment_id r0) (assignment_id a))
        as [Heq|Hne]; [left; exact Htid|].
      destruct (Inv r0 Hr0 Hact') as [Hlinked|(a0 & [<-|Hin] & Hi & Hci & Hun)];
        [left; exact Hlinked|congruence|].
      right. exists a0. auto.
  - rewrite (H1 eq_refl) in Hr'.
    destruct (Inv r' Hr' Hact') as [Hlinked|(a0 & [<-|Hin] & Hi & Hci & Hun)];
      [left; exact Hlinked| |].
    + rewrite (actionable_courseId cb _ _ Hci) in Hact. congruence.
    + right. exists a0. auto.
Qed.

(** A loop without a failed task update or creation, over a store that
    answers, leaves every assignment it acts on linked. *)
Lemma syncLoop_clean cb settings l :
  forall st w st' w',
    (forall n, storeFaults w n = false) ->
    (forall a, In a l -> hasAssignment (assignment_id a) (assignments w) = true) ->
    syncLoop cb settings l st w = (Ok st', w') ->
    failedWrites (trace w') = failedWrites (trace w) ->
    linkedOrPending cb l w ->
    linkedOrPending cb [] w'.
Proof.
  induction l as [|a rest IH]; intros st w st' w' Hrel Hl E Hclean Inv.
  - injection E as <- <-. exact Inv.
  - change (syncLoop cb settings (a :: rest) st w)
      with (bind (syncOne cb settings a st)
              (fun st1 => syncLoop cb settings rest st1) w) in E.
    unfold bind in E.
    pose proof (keeps_syncOne cb settings a st w) as K1.
    destruct (syncOne cb settings a st w) as [[st1|msg] w1] eqn:E1;
      [|discriminate].
    simpl in K1.
    pose proof (keeps_syncLoop cb settings rest st1 w1) as K2.
    rewrite E in K2. simpl in K2.
    pose proof (failedWrites_steps _ _ K1) as M1.
    pose proof (failedWrites_steps _ _ K2) as M2.
    assert (Hc1 : failedWrites (trace w1) = failedWrites (trace w)) by lia.
    assert (Hc2 : failedWrites (trace w') = failedWrites (trace w1)) by lia.
    destruct (syncOne_clean _ _ _ _ _ _ _ Hrel (Hl a (or_introl eq_refl))
                E1 Hc1) as (H1 & H2 & H3).
    apply (IH st1 w1 st' w'); try assumption.
    + intros n. rewrite (steps_storeFaults _ _ K1). apply Hrel.
    + intros b Hb.
      rewrite (hasAssignment_identity _ _ _ (steps_identity _ _ K1)).
      apply Hl. right. exact Hb.
    + exact (linkedOrPending_step _ _ _ _ _ Inv H1 H2 H3).
Qed.

(** An iteration over an assignment that is linked, or that the loop does
    not act on, creates nothing. *)
Lemma syncOne_no_create cb settings a st w :
  (forall n, storeFaults w n = false) ->
  hasAssignment (assignment_id a) (assignments w) = true ->
  (actionable cb a = true -> truthy (todoistTaskId a) = true) ->
  exists st' w',
    syncOne cb settings a st w = (Ok st', w')
    /\ st_created st' = st_created st
    /\ List.filter (fun e => isTaskCreation e) (trace w')
       = List.filter (fun e => isTaskCreation e) (trace w)
    /\ length (tasks w') = length (tasks w).
Proof.
  intros Hrel Ha Hlinked.
  destruct (actionable cb a) eqn:Hact.
  2: { rewrite (syncOne_skip _ _ _ _ _ Hact). eexists _, _.
       split; [reflexivity|]. auto. }
  specialize (Hlinked eq_refl). unfold actionable in Hact.
  destruct (cb !! courseId a) as [c|] eqn:Hc; [|discriminate].
  rewrite (syncOne_linked _ _ _ _ _ _ Hc Hact Hlinked).
  rewrite (updateLinked_spec _ _ _ _ _ _ (Hrel _) Ha).
  eexists _, _. split; [reflexivity|].
  destruct (updateFails (nullish (todoistTaskId a) "") w); simpl;
    unfold retask; rewrite ?length_map; auto.
Qed.

Lemma syncLoop_no_create cb settings l :
  forall st w,
    (forall n, storeFaults w n = false) ->
    (forall a, In a l -> hasAssignment (assignment_id a) (assignments w) = true) ->
    (forall a, In a l -> actionable cb a = true ->
               truthy (todoistTaskId a) = true) ->
    exists st' w',
      syncLoop cb settings l st w = (Ok st', w')
      /\ st_created st' = st_created st
      /\ List.filter (fun e => isTaskCreation e) (trace w')
         = List.filter (fun e => isTaskCreation e) (trace w)
      /\ length (tasks w') = length (tasks w).
Proof.
  induction l as [|a rest IH]; intros st w Hrel Hl Hlinked.
  - eexists _, _. split; [reflexivity|]. auto.
  - change (syncLoop cb settings (a :: rest) st w)
      with (bind (syncOne cb settings a st)
              (fun st1 => syncLoop cb settings rest st1) w).
    unfold bind.
    destruct (syncOne_no_create cb settings a st w Hrel
                (Hl a (or_introl eq_refl)) (Hlinked a (or_introl eq_refl)))
      as (st1 & w1 & E1 & Hc1 & Ht1 & Hn1).
    pose proof (keeps_syncOne cb settings a st w) as K1.
    rewrite E1 in *. simpl in K1.
    destruct (IH st1 w1) as (st' & w' & E & Hc & Ht & Hn).
    + intros n. rewrite (steps_storeFaults _ _ K1). apply Hrel.
    + intros b Hb.
      rewrite (hasAssignment_identity _ _ _ (steps_identity _ _ K1)).
      apply Hl. right. exact Hb.
    + intros b Hb. apply Hlinked. right. exact Hb.
    + exists st', w'. split; [exact E|]. repeat split; congruence.
Qed.

Lemma markSuccess_quiet run c s w :
  (forall n, storeFaults w n = false) ->
  hasRun (run_id run) (syncRuns w) = true ->
  exists w',
    (do! markSuccess run c s in ret {| created := c; skipped := s |}) w
    = (Ok {| created := c; skipped := s |}, w')
    /\ sameData w w'.
Proof.
  intros Hrel Hrun. unfold bind. rewrite markSuccess_eq.
  rewrite (syncRun_update_cases _ _ _ _ _ Hrun), Hrel.
  eexists. split; [reflexivity|]. split; reflexivity.
Qed.

(** A run over a store that answers: the listing of the existing tasks, the
    loop, the finalization. *)
Lemma syncBody_shape run userId courseIds settings w :
  (forall n, storeFaults w n = false) ->
  hasRun (run_id run) (syncRuns w) = true ->
  let cs := selectCourses courseIds userId (courses w) in
  let l := selectAssignments (map course_id cs) (assignments w) in
  exists wp index st w4 w1,
    sameData w wp
    /\ (if Nat.eqb (length cs) 0 then st_created st = 0%nat /\ w4 = wp
        else syncLoop (courseMap cs) settings l
               {| st_created := 0; st_skipped := 0;
                  existingTasksByKey := index |} wp = (Ok st, w4))
    /\ sameData w4 w1
    /\ syncBody run userId courseIds settings w
       = (Ok {| created := st_created st; skipped := st_skipped st |}, w1).
Proof.
  intros Hrel Hrun cs l. unfold syncBody. unfold bind at 1.
  unfold course_findMany, external. rewrite Hrel. fold cs.
  set (wa := advance _ w).
  assert (Sa : sameData w wa) by (split; reflexivity).
  destruct (Nat.eqb (length cs) 0) eqn:Hcs.
  { destruct (markSuccess_quiet run 0 0 wa Hrel Hrun) as (w' & E & S').
    exists wa, ∅,
      {| st_created := 0; st_skipped := 0; existingTasksByKey := ∅ |}, wa, w'.
    auto. }
  unfold bind at 1. unfold assignment_findMany, external.
  change (storeFaults wa (tick wa)) with (storeFaults w (S (tick w))).
  rewrite Hrel.
  change (selectAssignments (map course_id cs) (assignments wa)) with l.
  set (wb := advance _ wa).
  assert (Sb : sameData w wb) by (split; reflexivity).
  unfold bind at 1.
  destruct (loadExistingTasks_total (projectIdsOf cs) ∅ wb) as (index & w3 & E3).
  pose proof (quiet_loadExistingTasks (projectIdsOf cs) ∅ wb) as Q3.
  rewrite E3 in *. simpl in Q3.
  pose proof (sameData_trans _ _ _ Sb Q3) as S3.
  assert (Hrel3 : forall n, storeFaults w3 n = false).
  { intros n. rewrite (sd_storeFaults _ _ S3). apply Hrel. }
  assert (Hl3 : forall a, In a l ->
                hasAssignment (assignment_id a) (assignments w3) = true).
  { intros a Ha. rewrite (sd_assignments _ _ S3).
    exact (In_filter_hasAssignment _ _ _ Ha). }
  unfold bind at 1.
  destruct (syncLoop_total (courseMap cs) settings l
              {| st_created := 0; st_skipped := 0;
                 existingTasksByKey := index |} w3 Hrel3 Hl3)
    as (st & w4 & E4).
  pose proof (keeps_syncLoop (courseMap cs) settings l
                {| st_created := 0; st_skipped := 0;
                   existingTasksByKey := index |} w3) as K4.
  pose proof (keeps_loadExistingTasks (projectIdsOf cs) ∅ wb) as K3.
  rewrite E4 in *. rewrite E3 in K3. simpl in K4, K3.
  assert (Hrel4 : forall n, storeFaults w4 n = false).
  { intros n. rewrite (steps_storeFaults _ _ K4). apply Hrel3. }
  assert (Hrun4 : hasRun (run_id run) (syncRuns w4) = true).
  { rewrite (steps_syncRuns _ _ K4), (steps_syncRuns _ _ K3). exact Hrun. }
  destruct (markSuccess_quiet run (st_created st) (st_skipped st) w4
              Hrel4 Hrun4) as (w' & E & S').
  exists w3, index, st, w4, w'. auto.
Qed.

Lemma sync_shape w userId courseIds prioritySettings tok :
  (forall n, storeFaults w n = false) ->
  Nat.eqb (length courseIds) 0 = false ->
  List.find (fun u => String.eqb (user_id u) userId) (users w)
    ≫= todoistAccount = Some tok ->
  let cs := selectCourses courseIds userId (courses w) in
  let l := selectAssignments (map course_id cs) (assignments w) in
  exists wp index st w4 w1,
    sameData w wp
    /\ (if Nat.eqb (length cs) 0 then st_created st = 0%nat /\ w4 = wp
        else syncLoop (courseMap cs)
               (normalizePrioritySettings prioritySettings) l
               {| st_created := 0; st_skipped := 0;
                  existingTasksByKey := index |} wp = (Ok st, w4))
    /\ sameData w4 w1
    /\ syncAssignmentsToTodoist userId courseIds prioritySettings w
       = (Ok {| created := st_created st; skipped := st_skipped st |}, w1).
Proof.
  intros Hrel Hne Hacc cs l.
  rewrite (sync_prelude _ _ _ _ tok Hne (Hrel _) Hacc (Hrel _)).
  set (run := startedRun userId courseIds w).
  set (w2 := afterStart userId courseIds w).
  assert (S2 : sameData w w2) by (split; reflexivity).
  destruct (syncBody_shape run userId courseIds
              (normalizePrioritySettings prioritySettings) w2 Hrel
              (hasRun_last _ _))
    as (wp & index & st & w4 & w1 & Sp & Hloop & S4 & E).
  unfold tryCatch. rewrite E.
  exists wp, index, st, w4, w1.
  split; [exact (sameData_trans _ _ _ S2 Sp)|]. auto.
Qed.

(** C1, as stated, fails.  The first run completes with SUCCESS: the task of
    the linked assignment is gone, the update fails, the run clears the link
    and counts one skipped.  Nothing changes in between; the second run, with
    the same arguments, creates a task and returns [created = 1]. *)
Lemma second_run_recreates_deleted_task :
  let '(res1, w1) := syncAssignmentsToTodoist "u" ["c"] None deletedRemotely in
  let '(res2, w2) := syncAssignmentsToTodoist "u" ["c"] None w1 in
  res1 = Ok {| created := 0; skipped := 1 |}
  /\ map status (syncRuns w1) = [SUCCESS]
  /\ res2 = Ok {| created := 1; skipped := 0 |}.
Proof. vm_compute. repeat split; reflexivity. Qed.

Lemma selectCourses_In (courseIds : list string) (userId : string)
    (l : list Course) (c : Course) :
  In c (selectCourses courseIds userId l) -> inList (course_id c) courseIds = true.
Proof.
  unfold selectCourses. intros H. apply filter_In in H. destruct H as [_ H].
  apply andb_true_iff in H. destruct H as [H _].
  apply andb_true_iff in H. tauto.
Qed.

Lemma actionable_selected (cs : list Course) (l : list Assignment)
    (r : Assignment) :
  In r l -> actionable (courseMap cs) r = true ->
  In r (selectAssignments (map course_id cs) l).
Proof.
  intros Hr Hact. unfold selectAssignments. apply filter_In.
  split; [exact Hr|]. apply inList_In.
  unfold actionable in Hact.
  destruct (courseMap cs !! courseId r) as [c|] eqn:Hc; [|discriminate].
  exact (courseMap_lookup _ _ _ Hc).
Qed.

(** C1, amended -- Idempotence of the sync cycle.  Over a store that answers,
    if a first call returns (its SyncRun is then SUCCESS) and none of its task
    updates and task creations failed, then every assignment the loop acts on
    is linked afterwards, and a second call with the same arguments on the
    state the first one left returns [created = 0]: it issues no creation
    request and the task list keeps its length. *)
Theorem sync_idempotent_after_clean_run w userId courseIds prioritySettings
    r1 w1
    (Hrel : forall n, storeFaults w n = false)
    (Hrun1 : syncAssignmentsToTodoist userId courseIds prioritySettings w
             = (Ok r1, w1))
    (Hclean : failedWrites (trace w1) = failedWrites (trace w)) :
  (forall r, In r (assignments w1) ->
     actionable (courseMap (selectCourses courseIds userId (courses w1))) r
     = true ->
     truthy (todoistTaskId r) = true)
  /\ exists s2 w2,
       syncAssignmentsToTodoist userId courseIds prioritySettings w1
       = (Ok {| created := 0; skipped := s2 |}, w2)
       /\ List.filter (fun e => isTaskCreation e) (trace w2)
          = List.filter (fun e => isTaskCreation e) (trace w1)
       /\ length (tasks w2) = length (tasks w1).
Proof.
  destruct (Nat.eqb (length courseIds) 0) eqn:Hne.
  { unfold syncAssignmentsToTodoist in Hrun1 |- *. rewrite Hne in Hrun1 |- *.
    injection Hrun1 as <- <-. split.
    - intros r _ Hact. unfold actionable in Hact.
      destruct (courseMap _ !! courseId r) as [c|] eqn:Hc; [|discriminate].
      apply courseMap_lookup, in_map_iff in Hc.
      destruct Hc as (c' & _ & Hc'). apply selectCourses_In in Hc'.
      destruct courseIds; [discriminate Hc'|discriminate Hne].
    - exists 0%nat, w. auto. }
  destruct (List.find (fun u => String.eqb (user_id u) userId) (users w)
              ≫= todoistAccount) as [tok|] eqn:Hacc.
  2: { unfold syncAssignmentsToTodoist in Hrun1. rewrite Hne in Hrun1.
       unfold bind at 1 in Hrun1. unfold user_findUnique, external in Hrun1.
       rewrite Hrel, Hacc in Hrun1. discriminate. }
  destruct (sync_shape w userId courseIds prioritySettings tok Hrel Hne Hacc)
    as (wp & index & st & w4 & w1' & Sp & Hloop & S4 & E1).
  rewrite E1 in Hrun1. injection Hrun1 as <- <-.
  set (settings := normalizePrioritySettings prioritySettings) in *.
  set (cs := selectCourses courseIds userId (courses w)) in *.
  set (l := selectAssignments (map course_id cs) (assignments w)) in *.
  (* what the first run left *)
  assert (Hd : storeFaults w1' = storeFaults w /\ users w1' = users w
               /\ courses w1' = courses w
               /\ assignments w1' = assignments w4
               /\ failedWrites (trace w4) = failedWrites (trace wp)
               /\ (forall n, storeFaults wp n = false)).
  { destruct (Nat.eqb (length cs) 0) eqn:Hcs.
    - destruct Hloop as [_ ->].
      pose proof (sameData_trans _ _ _ Sp S4) as S.
      destruct S, S4, Sp.
      repeat split; first [congruence | intros n; congruence].
    - pose proof (keeps_syncLoop (courseMap cs) settings l
                    {| st_created := 0; st_skipped := 0;
                       existingTasksByKey := index |} wp) as K.
      rewrite Hloop in K. simpl in K.
      destruct K, S4, Sp.
      repeat split; first [congruence | intros n; congruence]. }
  destruct Hd as (Hsf & Hus & Hcs1 & Has1 & Hfw & Hrelp).
  assert (Hrel1 : forall n, storeFaults w1' n = false)
    by (intros n; rewrite Hsf; apply Hrel).
  assert (Hacc1 : List.find (fun u => String.eqb (user_id u) userId)
                    (users w1') ≫= todoistAccount = Some tok)
    by (rewrite Hus; exact Hacc).
  rewrite Hcs1. fold cs.
  (* every assignment the loop acts on is linked *)
  assert (Hlinked : forall r, In r (assignments w1') ->
                      actionable (courseMap cs) r = true ->
                      truthy (todoistTaskId r) = true).
  { destruct (Nat.eqb (length cs) 0) eqn:Hcs.
    - intros r _ Hact. unfold actionable in Hact.
      destruct (courseMap cs !! courseId r) as [c|] eqn:Hc; [|discriminate].
      apply courseMap_lookup in Hc. apply Nat.eqb_eq in Hcs.
      destruct cs; [destruct Hc|discriminate Hcs].
    - assert (Hinv : linkedOrPending (courseMap cs) l wp).
      { intros r Hr Hact. rewrite (sd_assignments _ _ Sp) in Hr.
        destruct (truthy (todoistTaskId r)) eqn:Hl; [left; reflexivity|].
        right. exists r.
        split; [exact (actionable_selected _ _ _ Hr Hact)|auto]. }
      assert (Hlp : forall a, In a l ->
                hasAssignment (assignment_id a) (assignments wp) = true).
      { intros a Ha. rewrite (sd_assignments _ _ Sp).
        exact (In_filter_hasAssignment _ _ _ Ha). }
      pose proof (syncLoop_clean _ _ _ _ _ _ _ Hrelp Hlp Hloop Hfw Hinv)
        as Hend.
      intros r Hr Hact. rewrite Has1 in Hr.
      destruct (Hend r Hr Hact) as [H|(a & [] & _)]. exact H. }
  split; [exact Hlinked|].
  (* the second run *)
  destruct (sync_shape w1' userId courseIds prioritySettings tok
              Hrel1 Hne Hacc1)
    as (wp2 & index2 & st2 & w42 & w2 & Sp2 & Hloop2 & S42 & E2).
  rewrite Hcs1 in Hloop2. fold cs in Hloop2. fold settings in Hloop2.
  assert (Hnone : st_created st2 = 0%nat
                  /\ List.filter (fun e => isTaskCreation e) (trace w42)
                     = List.filter (fun e => isTaskCreation e) (trace wp2)
                  /\ length (tasks w42) = length (tasks wp2)).
  { destruct (Nat.eqb (length cs) 0).
    - destruct Hloop2 as [H ->]. auto.
    - set (l2 := selectAssignments (map course_id cs) (assignments w1')) in *.
      destruct (syncLoop_no_create (courseMap cs) settings l2
                  {| st_created := 0; st_skipped := 0;
                     existingTasksByKey := index2 |} wp2)
        as (st' & w' & E' & Hc' & Ht' & Hn').
      + intros n. rewrite (sd_storeFaults _ _ Sp2). apply Hrel1.
      + intros a Ha. rewrite (sd_assignments _ _ Sp2).
        exact (In_filter_hasAssignment _ _ _ Ha).
      + intros a Ha Hact. apply Hlinked; [|exact Hact].
        unfold l2, selectAssignments in Ha. apply filter_In in Ha. tauto.
      + rewrite E' in Hloop2. injection Hloop2 as <- <-. auto. }
  destruct Hnone as (Hc0 & Htr & Hlen).
  exists (st_skipped st2), w2. rewrite E2, Hc0.
  split; [reflexivity|].
  destruct Sp2, S42. split; congruence.
Qed.

(** One assignment to relink, one already linked, no call failing. *)
Lemma sync_idempotent_after_clean_run_witness :
  let w := exampleWorld never [homework "a1" None; homework "a2" (Some "77")]
             [existingTask] in
  exists r1 w1 s2 w2,
    syncAssignmentsToTodoist "u" ["c"] None w = (Ok r1, w1)
    /\ failedWrites (trace w1) = failedWrites (trace w)
    /\ syncAssignmentsToTodoist "u" ["c"] None w1
       = (Ok {| created := 0; skipped := s2 |}, w2).
Proof.
  intros w.
  assert (Hres : (syncAssignmentsToTodoist "u" ["c"] None w).1
                 = Ok {| created := 0; skipped := 1 |}
                 /\ failedWrites
                      (trace (syncAssignmentsToTodoist "u" ["c"] None w).2)
                    = 0%nat)
    by (vm_compute; split; reflexivity).
  destruct (syncAssignmentsToTodoist "u" ["c"] None w) as [res1 w1] eqn:E1.
  simpl in Hres. destruct Hres as [-> Hfw].
  destruct (sync_idempotent_after_clean_run w "u" ["c"] None _ w1
              ltac:(intros n; reflexivity) E1 Hfw)
    as (_ & s2 & w2 & E2 & _).
  exists {| created := 0; skipped := 1 |}, w1, s2, w2. auto.
Defined.

(* ===================================================================== *)
(** * 27. A key of the task index is never created again *)
(* ===================================================================== *)

Lemma tasksWithKey_by_keys (key : string) (l l' : list TodoistTask) :
  map keyOfTask l' = map keyOfTask l ->
  length (tasksWithKey key l') = length (tasksWithKey key l).
Proof.
  assert (H : forall k, length (tasksWithKey key k)
                        = length (List.filter (fun x => String.eqb x key)
                                    (map keyOfTask k))).
  { induction k as [|t k IH]; simpl; [reflexivity|].
    destruct (String.eqb (keyOfTask t) key); simpl; now rewrite IH. }
  intros E. now rewrite !H, E.
Qed.

(** The linked branch, whatever the calls answer, changes neither the
    titles and projects of the tasks nor the index. *)
Lemma updateLinked_tasks id prio due a st w :
  map keyOfTask (tasks (updateLinked id prio due a st w).2)
  = map keyOfTask (tasks w)
  /\ forall st', (updateLinked id prio due a st w).1 = Ok st' ->
                 existingTasksByKey st' = existingTasksByKey st.
Proof.
  unfold updateLinked, tryCatch, bind, getNow, todoist_updateTask,
    assignment_update, external.
  destruct (apiFaults w (tick w)); simpl.
  - destruct (storeFaults w (S (tick w))); simpl;
      [split; [reflexivity|discriminate]|].
    destruct (hasAssignment (assignment_id a) (assignments w)); simpl;
      (split; [reflexivity|intros st' H; inversion H; reflexivity]).
  - destruct (hasTask id (tasks w)); simpl.
    + destruct (storeFaults w (S (tick w))); simpl.
      * destruct (storeFaults w (S (S (tick w)))); simpl;
          [rewrite keyOfTask_retask; split; [reflexivity|discriminate]|].
        destruct (hasAssignment (assignment_id a) (assignments w)); simpl;
          rewrite keyOfTask_retask;
          (split; [reflexivity|intros st' H; inversion H; reflexivity]).
      * destruct (hasAssignment (assignment_id a) (assignments w)) eqn:Ha;
          simpl; rewrite ?Ha; simpl.
        -- rewrite keyOfTask_retask.
           split; [reflexivity|intros st' H; inversion H; reflexivity].
        -- destruct (storeFaults w (S (S (tick w)))); simpl;
             rewrite ?Ha; simpl; rewrite keyOfTask_retask;
             (split; [reflexivity|intros st' H; inversion H; reflexivity]).
    + destruct (storeFaults w (S (tick w))); simpl;
        [split; [reflexivity|discriminate]|].
      destruct (hasAssignment (assignment_id a) (assignments w)); simpl;
        (split; [reflexivity|intros st' H; inversion H; reflexivity]).
Qed.

(** The creation branch never throws; it adds at most one task, filed under
    the key of the assignment, and touches no other key of the index. *)
Lemma createNew_tasks key projectId prio due a st w :
  key = makeTaskKey projectId (name a) ->
  exists st' w',
    createNew key projectId prio due a st w = (Ok st', w')
    /\ (tasks w' = tasks w
        \/ exists t, tasks w' = tasks w ++ [t] /\ keyOfTask t = key)
    /\ forall k, k <> key ->
         existingTasksByKey st' !! k = existingTasksByKey st !! k.
Proof.
  intros ->.
  unfold createNew, tryCatch, bind, getNow, todoist_createTask,
    assignment_update, external.
  destruct (apiFaults w (tick w)); simpl.
  { eexists _, _. split; [reflexivity|]. simpl. auto. }
  destruct (storeFaults w (S (tick w))); simpl.
  { eexists _, _. split; [reflexivity|]. simpl. split; [|auto].
    right. eexists. split; reflexivity. }
  destruct (hasAssignment (assignment_id a) (assignments w)); simpl.
  - eexists _, _. split; [reflexivity|]. simpl. split.
    + right. eexists. split; reflexivity.
    + intros k Hk. apply lookup_insert_ne. congruence.
  - eexists _, _. split; [reflexivity|]. simpl. split; [|auto].
    right. eexists. split; reflexivity.
Qed.

Lemma syncOne_indexed_key cb settings a st w st' w' key :
  truthy (existingTasksByKey st !! key) = true ->
  syncOne cb settings a st w = (Ok st', w') ->
  existingTasksByKey st' !! key = existingTasksByKey st !! key
  /\ length (tasksWithKey key (tasks w')) = length (tasksWithKey key (tasks w)).
Proof.
  intros Hkey E.
  destruct (actionable cb a) eqn:Hact.
  2: { rewrite (syncOne_skip _ _ _ _ _ Hact) in E. injection E as <- <-.
       auto. }
  unfold actionable in Hact.
  destruct (cb !! courseId a) as [c|] eqn:Hc; [|discriminate].
  destruct (truthy (todoistTaskId a)) eqn:Hl.
  - rewrite (syncOne_linked _ _ _ _ _ _ Hc Hact Hl) in E.
    destruct (updateLinked_tasks (nullish (todoistTaskId a) "")
                (priorityFor w settings a)
                (toTodoistDate (tzOffset w) (dueDate a)) a st w) as [Ht Hi].
    rewrite E in Ht, Hi. simpl in Ht, Hi.
    rewrite (Hi st' eq_refl). split; [reflexivity|].
    exact (tasksWithKey_by_keys _ _ _ Ht).
  - set (key' := makeTaskKey (nullish (todoistProjectId c) "") (name a)) in *.
    destruct (truthy (existingTasksByKey st !! key')) eqn:Hk.
    + rewrite (syncOne_relink _ _ _ _ _ _ Hc Hact Hl Hk) in E. fold key' in E.
      destruct (relinkExisting_spec
                  (nullish (existingTasksByKey st !! key') "")
                  (priorityFor w settings a)
                  (toTodoistDate (tzOffset w) (dueDate a)) a st w)
        as (st2 & w2 & E2 & _ & Hi & _ & Ht & _).
      rewrite E2 in E. injection E as <- <-. rewrite Hi.
      split; [reflexivity|]. exact (tasksWithKey_by_keys _ _ _ Ht).
    + rewrite (syncOne_create _ _ _ _ _ _ Hc Hact Hl Hk) in E. fold key' in E.
      destruct (createNew_tasks key' (nullish (todoistProjectId c) "")
                  (priorityFor w settings a)
                  (toTodoistDate (tzOffset w) (dueDate a)) a st w eq_refl)
        as (st2 & w2 & E2 & Ht & Hi).
      rewrite E2 in E. injection E as <- <-.
      assert (Hne : key <> key') by (intros ->; congruence).
      split; [exact (Hi key Hne)|].
      destruct Ht as [->|(t & -> & Hk')]; [reflexivity|].
      unfold tasksWithKey. rewrite List.filter_app, length_app. simpl.
      rewrite Hk'.
      destruct (String.eqb_spec key' key) as [Heq|_]; [congruence|].
      simpl. lia.
Qed.

(** Relink without duplication, over the rest of the run: once a key is in
    the task index with a non-empty id, whether listed at the start or
    recorded at a creation, the loop keeps the entry and creates no further
    task of that project and trimmed title. *)
Lemma syncLoop_indexed_key cb settings l :
  forall st w st' w' key,
    truthy (existingTasksByKey st !! key) = true ->
    syncLoop cb settings l st w = (Ok st', w') ->
    existingTasksByKey st' !! key = existingTasksByKey st !! key
    /\ length (tasksWithKey key (tasks w'))
       = length (tasksWithKey key (tasks w)).
Proof.
  induction l as [|a rest IH]; intros st w st' w' key Hkey E.
  - injection E as <- <-. auto.
  - change (syncLoop cb settings (a :: rest) st w)
      with (bind (syncOne cb settings a st)
              (fun st1 => syncLoop cb settings rest st1) w) in E.
    unfold bind in E.
    destruct (syncOne cb settings a st w) as [[st1|msg] w1] eqn:E1;
      [|discriminate].
    destruct (syncOne_indexed_key _ _ _ _ _ _ _ _ Hkey E1) as [Hi1 Ht1].
    assert (Hkey1 : truthy (existingTasksByKey st1 !! key) = true)
      by (rewrite Hi1; exact Hkey).
    destruct (IH _ _ _ _ _ Hkey1 E) as [Hi Ht].
    split; congruence.
Qed.

(* ===================================================================== *)
(** * 28. Settings, buckets and labels *)
(* ===================================================================== *)

Lemma normalized_thresholds_ordered (input : option PrioritySettingsInput) :
  let cfg := normalizePrioritySettings input in
  1 <= to (range cfg p1) /\ to (range cfg p1) <= to (range cfg p2)
  /\ to (range cfg p2) <= to (range cfg p3) /\ to (range cfg p3) <= 5
  /\ to (range cfg p4) = 5.
Proof.
  intros cfg.
  destruct (normalized_thresholds input) as (E1 & E2 & E3 & E4 & B1 & B2 & B3).
  fold cfg in E1, E2, E3, E4.
  set (raw1 := clampDay (nullish (opt_to (input ≫= in_p1)) (ofZ 2))) in *.
  set (raw2 := clampDay (nullish (opt_to (input ≫= in_p2)) (ofZ 3))) in *.
  set (raw3 := clampDay (nullish (opt_to (input ≫= in_p3)) (ofZ 4))) in *.
  assert (H2 : raw1 <= to (range cfg p2) <= 5).
  { rewrite E2. destruct (Z.ltb_spec raw2 raw1); lia. }
  assert (H3 : to (range cfg p2) <= to (range cfg p3) <= 5).
  { rewrite E3. destruct (Z.ltb_spec raw3 (to (range cfg p2))); lia. }
  rewrite E1. repeat split; lia.
Qed.

Lemma localMidnight_mono (tz a b : Z) :
  a <= b -> localMidnight tz a <= localMidnight tz b.
Proof.
  intros H. unfold localMidnight, msPerDay.
  assert (Hd : (a + tz) / (1000 * 60 * 60 * 24) <= (b + tz) / (1000 * 60 * 60 * 24))
    by (apply Z.div_le_mono; lia).
  lia.
Qed.

Lemma mathRoundDiv_mono (a b d : Z) :
  0 < d -> a <= b -> mathRoundDiv a d <= mathRoundDiv b d.
Proof. intros Hd H. unfold mathRoundDiv. apply Z.div_le_mono; lia. Qed.

Lemma diffDaysOf_mono (tz now a b : Z) :
  a <= b -> diffDaysOf tz now a <= diffDaysOf tz now b.
Proof.
  intros H. unfold diffDaysOf. apply mathRoundDiv_mono; [reflexivity|].
  pose proof (localMidnight_mono tz a b H). lia.
Qed.

Lemma classifyBucket_reference_mono (d d' t1 t2 t3 : Z) :
  t1 <= t2 -> t2 <= t3 -> d <= d' ->
  rank (classifyBucket_reference (Some d) 0 t1 t2 t3)
  <= rank (classifyBucket_reference (Some d') 0 t1 t2 t3).
Proof.
  intros H12 H23 Hd. unfold classifyBucket_reference. cbv zeta.
  rewrite !Z.sub_0_r.
  destruct (Z.leb_spec d 0); destruct (Z.leb_spec d' 0); try lia;
    repeat match goal with
           | |- context [Z.leb ?x ?y] => destruct (Z.leb_spec x y)
           end; simpl; lia.
Qed.

(** X1 -- A later due date never gives a more urgent bucket: with the
    normalised thresholds, whatever the settings sent, the bucket of the sync
    loop is monotone in the due date, and an assignment without due date is
    in the least urgent bucket. *)
Theorem later_due_never_more_urgent (tz now due due' : Z)
    (input : option PrioritySettingsInput) (Hdue : due <= due') :
  let cfg := normalizePrioritySettings input in
  rank (conceptualBucket tz now (Some due) cfg)
  <= rank (conceptualBucket tz now (Some due') cfg)
  /\ rank (conceptualBucket tz now (Some due') cfg)
     <= rank (conceptualBucket tz now None cfg).
Proof.
  intros cfg. split.
  - simpl. rewrite !computeConceptualBucket_reference.
    destruct (normalized_thresholds_ordered input) as (_ & H12 & H23 & _).
    apply classifyBucket_reference_mono; try assumption.
    now apply diffDaysOf_mono.
  - simpl. destruct (computeConceptualBucket _ cfg); simpl; lia.
Qed.

(** Due in one day and due in four days, thresholds sent out of order. *)
Lemma later_due_never_more_urgent_witness :
  let input := Some {| in_p1 := Some {| in_enabled := None;
                                        in_to := Some (ofZ 3);
                                        in_todoistPriority := None |};
                       in_p2 := Some {| in_enabled := None;
                                        in_to := Some (ofZ 1);
                                        in_todoistPriority := None |};
                       in_p3 := None; in_p4 := None |} in
  let cfg := normalizePrioritySettings input in
  rank (conceptualBucket 0 0 (Some msPerDay) cfg)
  <= rank (conceptualBucket 0 0 (Some (4 * msPerDay)) cfg).
Proof.
  intros input cfg.
  apply (later_due_never_more_urgent 0 0 msPerDay (4 * msPerDay) input).
  vm_compute. discriminate.
Defined.

(** Settings whose thresholds are in range and in order are a fixed point
    of the normalisation. *)
Lemma normalize_fixed (n : NormalizedPrioritySettings) :
  1 <= to (range n p1) -> to (range n p1) <= to (range n p2) ->
  to (range n p2) <= to (range n p3) -> to (range n p3) <= 5 ->
  to (range n p4) = 5 ->
  normalizePrioritySettings (Some (settingsAsInput n)) = n.
Proof.
  destruct n as [[[e1 t1 q1] [e2 t2 q2] [e3 t3 q3] [e4 t4 q4]]]. simpl.
  intros H1 H12 H23 H3 ->.
  unfold normalizePrioritySettings. simpl.
  assert (C1 : clampDay (ofZ t1) = t1) by (rewrite clampDay_ofZ; lia).
  assert (C2 : clampDay (ofZ t2) = t2) by (rewrite clampDay_ofZ; lia).
  assert (C3 : clampDay (ofZ t3) = t3) by (rewrite clampDay_ofZ; lia).
  rewrite !C1, !C2, !C3.
  destruct (Z.ltb_spec t2 t1); [lia|].
  destruct (Z.ltb_spec t3 t2); [lia|].
  reflexivity.
Qed.

(** X2 -- Normalising twice is normalising once: the settings the backend
    has normalised, sent again with every field present, come back
    unchanged. *)
Theorem normalize_idempotent (input : option PrioritySettingsInput) :
  normalizePrioritySettings
    (Some (settingsAsInput (normalizePrioritySettings input)))
  = normalizePrioritySettings input.
Proof.
  destruct (normalized_thresholds_ordered input) as (H1 & H12 & H23 & H3 & H4).
  now apply normalize_fixed.
Qed.

(** X3 -- The priority sent to Todoist is one of 1, 2, 3, 4 whenever the
    configured priorities of the buckets are: the fallback for the case that
    every bucket is disabled is in range too. *)
Theorem priority_in_range (bucket : PriorityKey)
    (settings : NormalizedPrioritySettings)
    (Hcfg : forall k, 1 <= todoistPriority (range settings k) <= 4) :
  1 <= bucketToTodoistPriority bucket settings <= 4.
Proof.
  rewrite bucketToTodoistPriority_reference. unfold resolvePriority_reference.
  destruct (List.find _ _) as [k|]; [apply Hcfg|lia].
Qed.

Lemma priority_in_range_witness :
  1 <= bucketToTodoistPriority p4 (normalizePrioritySettings None) <= 4.
Proof.
  apply priority_in_range. intros k. destruct k; vm_compute; split; discriminate.
Defined.

(** X4 -- The default mapping.  When the request carries no settings, and
    with [days] the number of calendar days from today to the due date (the
    calendar days of the clock reading and of the due instant in the server's
    zone, taken with one offset), an assignment with [days <= 2], so one that
    is overdue, due today or due within two days, gets Todoist priority 4,
    one due in three days 3, and every other one, the undated included, 2:
    the fourth bucket is off by default, so priority 1 is never sent. *)
Theorem default_priorities (tz now : Z) (due : option Z) :
  let cfg := normalizePrioritySettings None in
  bucketToTodoistPriority (conceptualBucket tz now due cfg) cfg
  = match due with
    | None => 2
    | Some d =>
        let days := calendarDay tz d - calendarDay tz now in
        if days <=? 2 then 4
        else if days =? 3 then 3
        else 2
    end.
Proof.
  intros cfg. destruct due as [d|]; [|reflexivity]. simpl.
  rewrite computeConceptualBucket_reference.
  rewrite <- (diffDaysOf_calendarDay tz now d).
  change (to (range cfg p1)) with 2. change (to (range cfg p2)) with 3.
  change (to (range cfg p3)) with 4.
  unfold classifyBucket_reference. cbv zeta. rewrite Z.sub_0_r.
  generalize (diffDaysOf tz now d). intros dd.
  destruct (Z.leb_spec dd 0).
  { destruct (Z.leb_spec dd 2); [reflexivity|lia]. }
  destruct (Z.leb_spec dd 2).
  { destruct (Z.leb_spec (Z.max 1 (Z.min 5 dd)) 2); [reflexivity|lia]. }
  destruct (Z.leb_spec (Z.max 1 (Z.min 5 dd)) 2); [lia|].
  destruct (Z.eqb_spec dd 3).
  { subst dd. reflexivity. }
  destruct (Z.leb_spec (Z.max 1 (Z.min 5 dd)) 3); [lia|].
  destruct (Z.leb_spec (Z.max 1 (Z.min 5 dd)) 4); reflexivity.
Qed.

(** Due on the third day after today, at any hour of it: priority 3. *)
Example default_priority_three_days :
  let cfg := normalizePrioritySettings None in
  let now := 1766404800000 in                (* 2025-12-22 12:00 UTC *)
  bucketToTodoistPriority
    (conceptualBucket 0 now (Some (now + 3 * msPerDay - 12 * 3600000)) cfg)
    cfg = 3
  /\ bucketToTodoistPriority
       (conceptualBucket 0 now (Some (now + 3 * msPerDay + 11 * 3600000)) cfg)
       cfg = 3.
Proof. split; vm_compute; reflexivity. Qed.

Lemma normalizePriorityCuts_ordered (s0 : NormalizedPrioritySettings) :
  let s := normalizePriorityCuts s0 in
  1 <= to (range s p1) /\ to (range s p1) <= to (range s p2)
  /\ to (range s p2) <= to (range s p3) /\ to (range s p3) <= 5
  /\ to (range s p4) = 5.
Proof.
  destruct s0 as [[[e1 t1 q1] [e2 t2 q2] [e3 t3 q3] [e4 t4 q4]]].
  unfold normalizePriorityCuts. simpl. rewrite !clampDay_ofZ.
  destruct (Z.ltb_spec (Z.max 1 (Z.min 5 t2)) (Z.max 1 (Z.min 5 t1)));
    match goal with
    | |- context [Z.ltb ?x ?y] => destruct (Z.ltb_spec x y)
    end; lia.
Qed.

Lemma adjustForEnabled_reference (s : NormalizedPrioritySettings)
    (bucket : PriorityKey) :
  adjustForEnabled s bucket
  = match List.find (fun k => enabled (range s k))
            (towardB1 bucket ++ towardB4 bucket) with
    | Some k => k
    | None => bucket
    end.
Proof.
  destruct s as [[[e1 t1 q1] [e2 t2 q2] [e3 t3 q3] [e4 t4 q4]]].
  unfold adjustForEnabled.
  destruct bucket, e1, e2, e3, e4; reflexivity.
Qed.

Lemma find_enabled_none (s : NormalizedPrioritySettings)
    (bucket : PriorityKey) :
  List.find (fun k => enabled (range s k)) (towardB1 bucket ++ towardB4 bucket)
  = None ->
  existsb (fun k => enabled (range s k)) order = false.
Proof.
  intros H. apply not_true_is_false. intros Hex.
  apply existsb_exists in Hex. destruct Hex as (k & _ & Hk).
  pose proof (List.find_none _ _ H k) as Hn.
  rewrite Hn in Hk; [discriminate|].
  destruct bucket, k; simpl; tauto.
Qed.

(** X5 -- The label of the assignment list mirrors the backend, for a
    browser that reads the same clock in the same time zone as the server.
    The settings the frontend keeps (it stores them through
    [normalizePriorityCuts]) pass the backend's normalisation unchanged, the
    frontend computes the same conceptual bucket, and, when some bucket is
    enabled, the bucket whose label the list shows is enabled and the
    priority the backend sends is the configured priority of that bucket.
    When every bucket is disabled, the list shows the label of the
    conceptual bucket itself and the backend sends 2. *)
Theorem frontend_label_mirrors_backend (s0 : NormalizedPrioritySettings)
    (tz now : Z) (due : option Z) :
  let s := normalizePriorityCuts s0 in
  let sent := normalizePrioritySettings (Some (settingsAsInput s)) in
  let conceptual := match due with
                    | None => p4
                    | Some d => clampAndBucket s (diffDaysOf tz now d)
                    end in
  let shown := adjustForEnabled s conceptual in
  sent = s
  /\ conceptualBucket tz now due sent = conceptual
  /\ formatPriorityLabel s tz now due = labelOf shown
  /\ if existsb (fun k => enabled (range s k)) order
     then enabled (range s shown) = true
          /\ bucketToTodoistPriority (conceptualBucket tz now due sent) sent
             = todoistPriority (range s shown)
     else shown = conceptual
          /\ bucketToTodoistPriority (conceptualBucket tz now due sent) sent
             = 2.
Proof.
  intros s sent conceptual shown.
  assert (Hsent : sent = s).
  { destruct (normalizePriorityCuts_ordered s0) as (H1 & H12 & H23 & H3 & H4).
    now apply normalize_fixed. }
  assert (Hc : conceptualBucket tz now due sent = conceptual).
  { rewrite Hsent. destruct due; reflexivity. }
  split; [exact Hsent|]. split; [exact Hc|].
  split; [destruct due; reflexivity|].
  rewrite Hc, Hsent. subst shown.
  rewrite adjustForEnabled_reference, bucketToTodoistPriority_reference.
  unfold resolvePriority_reference.
  destruct (List.find _ (towardB1 conceptual ++ towardB4 conceptual))
    as [k|] eqn:Hfind.
  - pose proof (List.find_some _ _ Hfind) as [_ Hk].
    assert (Hex : existsb (fun k => enabled (range s k)) order = true).
    { apply existsb_exists. exists k. split; [|exact Hk].
      destruct k; simpl; tauto. }
    rewrite Hex. auto.
  - rewrite (find_enabled_none _ _ Hfind). auto.
Qed.

(* ===================================================================== *)
(** * 29. What a run may change *)
(* ===================================================================== *)

Section Frames.

Variable R : World -> World -> Prop.
Hypothesis HR : frame R.

Lemma respects_ret {A : Type} (a : A) : respects R (ret a).
Proof. intros w. apply (frame_refl R HR). Qed.

Lemma respects_throw {A : Type} (msg : string) : respects R (@throw A msg).
Proof. intros w. apply (frame_refl R HR). Qed.

Lemma respects_getNow : respects R getNow.
Proof. intros w. apply (frame_refl R HR). Qed.

Lemma respects_getZone : respects R getZone.
Proof. intros w. apply (frame_refl R HR). Qed.

Lemma respects_bind {A B : Type} (m : M A) (f : A -> M B) :
  respects R m -> (forall a, respects R (f a)) -> respects R (bind m f).
Proof.
  intros Hm Hf w. unfold bind. specialize (Hm w).
  destruct (m w) as [[a|msg] w1]; simpl in *; [|exact Hm].
  exact (frame_trans R HR _ _ _ Hm (Hf a w1)).
Qed.

Lemma respects_tryCatch {A : Type} (body : M A) (handler : string -> M A) :
  respects R body -> (forall msg, respects R (handler msg)) ->
  respects R (tryCatch body handler).
Proof.
  intros Hm Hf w. unfold tryCatch. specialize (Hm w).
  destruct (body w) as [[a|msg] w1]; simpl in *; [exact Hm|].
  exact (frame_trans R HR _ _ _ Hm (Hf msg w1)).
Qed.

Lemma respects_external {A : Type} (faults : World -> nat -> bool) (c : Call)
    (effect : World -> Outcome A * World) :
  (forall w, R w (effect w).2) -> respects R (external faults c effect).
Proof.
  intros He w. unfold external.
  destruct (faults w (tick w)); simpl; [apply (frame_advance R HR)|].
  specialize (He w). destruct (effect w) as [[a|msg] w1]; simpl in *;
    exact (frame_trans R HR _ _ _ He (frame_advance R HR _ _)).
Qed.

Lemma respects_user_findUnique userId : respects R (user_findUnique userId).
Proof. apply respects_external. intros w. apply (frame_refl R HR). Qed.

Lemma respects_syncRun_create userId s msg :
  respects R (syncRun_create userId s msg).
Proof.
  intros w. unfold syncRun_create.
  apply (respects_external storeFaults). intros w1. apply (frame_insertRun R HR).
Qed.

Lemma respects_syncRun_update id fin s msg :
  respects R (syncRun_update id fin s msg).
Proof.
  apply respects_external. intros w.
  destruct (hasRun id (syncRuns w)); simpl;
    [apply (frame_finalize R HR)|apply (frame_refl R HR)].
Qed.

Lemma respects_course_findMany ids userId :
  respects R (course_findMany ids userId).
Proof. apply respects_external. intros w. apply (frame_refl R HR). Qed.

Lemma respects_assignment_findMany ids : respects R (assignment_findMany ids).
Proof. apply respects_external. intros w. apply (frame_refl R HR). Qed.

Lemma respects_assignment_update id p : respects R (assignment_update id p).
Proof.
  apply respects_external. intros w.
  destruct (hasAssignment id (assignments w)); simpl;
    [apply (frame_patch R HR)|apply (frame_refl R HR)].
Qed.

Lemma respects_todoist_getTasks projectId :
  respects R (todoist_getTasks projectId).
Proof. apply respects_external. intros w. apply (frame_refl R HR). Qed.

Lemma respects_todoist_updateTask id prio due_date :
  respects R (todoist_updateTask id prio due_date).
Proof.
  apply respects_external. intros w.
  destruct (hasTask id (tasks w)); simpl;
    [apply (frame_retask R HR)|apply (frame_refl R HR)].
Qed.

Lemma respects_todoist_createTask title projectId prio due_date :
  respects R (todoist_createTask title projectId prio due_date).
Proof. apply respects_external. intros w. apply (frame_create R HR). Qed.

Ltac respects_tac :=
  repeat first
    [ apply respects_ret | apply respects_throw
    | apply respects_getNow | apply respects_getZone
    | apply respects_user_findUnique | apply respects_syncRun_create
    | apply respects_syncRun_update | apply respects_course_findMany
    | apply respects_assignment_findMany | apply respects_assignment_update
    | apply respects_todoist_getTasks | apply respects_todoist_updateTask
    | apply respects_todoist_createTask
    | apply respects_bind; [|intros ?]
    | apply respects_tryCatch; [|intros ?] ].

Lemma respects_syncOne cb settings a st :
  respects R (syncOne cb settings a st).
Proof.
  unfold syncOne, relinkExisting, createNew, updateLinked.
  destruct (cb !! courseId a) as [c|]; [|respects_tac].
  destruct (negb (truthy (todoistProjectId c))); [respects_tac|].
  apply respects_bind; [respects_tac|intros today].
  apply respects_bind; [respects_tac|intros tz].
  destruct (negb (truthy (todoistTaskId a))); [|respects_tac].
  destruct (truthy _); respects_tac.
Qed.

Lemma respects_syncLoop cb settings l :
  forall st, respects R (syncLoop cb settings l st).
Proof.
  induction l as [|a rest IH]; intros st.
  - apply respects_ret.
  - change (syncLoop cb settings (a :: rest) st)
      with (bind (syncOne cb settings a st)
                 (fun st1 => syncLoop cb settings rest st1)).
    apply respects_bind; [apply respects_syncOne|intros st1; apply IH].
Qed.

Lemma respects_loadExistingTasks ps :
  forall m, respects R (loadExistingTasks ps m).
Proof.
  induction ps as [|p rest IH]; intros m.
  - apply respects_ret.
  - change (loadExistingTasks (p :: rest) m)
      with (bind (tryCatch
                    (bind (todoist_getTasks p)
                       (fun data => ret (foldl (rememberTask p) m data)))
                    (fun _ => ret m))
                 (fun m1 => loadExistingTasks rest m1)).
    apply respects_bind; [respects_tac|intros m1; apply IH].
Qed.

Lemma respects_markSuccess run c s : respects R (markSuccess run c s).
Proof. unfold markSuccess. respects_tac. Qed.

Lemma respects_markError run err : respects R (markError run err).
Proof. unfold markError. respects_tac. Qed.

Lemma respects_syncBody run userId courseIds settings :
  respects R (syncBody run userId courseIds settings).
Proof.
  unfold syncBody.
  apply respects_bind; [respects_tac|intros cs].
  destruct (Nat.eqb (length cs) 0).
  - apply respects_bind; [apply respects_markSuccess|intros _; respects_tac].
  - apply respects_bind; [respects_tac|intros l].
    apply respects_bind; [apply respects_loadExistingTasks|intros index].
    apply respects_bind; [apply respects_syncLoop|intros st].
    apply respects_bind; [apply respects_markSuccess|intros _; respects_tac].
Qed.

Lemma respects_syncAssignmentsToTodoist userId courseIds prioritySettings :
  respects R (syncAssignmentsToTodoist userId courseIds prioritySettings).
Proof.
  unfold syncAssignmentsToTodoist.
  destruct (Nat.eqb (length courseIds) 0); [apply respects_ret|].
  apply respects_bind; [respects_tac|intros user].
  destruct (user ≫= todoistAccount) as [tok|]; [|apply respects_throw].
  apply respects_bind; [respects_tac|intros run].
  apply respects_tryCatch; [apply respects_syncBody|intros err].
  apply respects_bind; [apply respects_markError|intros _; apply respects_throw].
Qed.

End Frames.

Lemma map_taskIdentity_retask id prio due_date (l : list TodoistTask) :
  map taskIdentity (retask id prio due_date l) = map taskIdentity l.
Proof.
  unfold retask. rewrite map_map. apply map_ext. intros t.
  destruct (String.eqb (task_id t) id); reflexivity.
Qed.

Lemma map_run_id_finalizeRun id fin s msg (l : list SyncRun) :
  map run_id (finalizeRun id fin s msg l) = map run_id l.
Proof.
  unfold finalizeRun. rewrite map_map. apply map_ext. intros r.
  destruct (Nat.eqb (run_id r) id); reflexivity.
Qed.

Ltac preserved_tac :=
  split; try reflexivity; try (exists []; now rewrite ?app_nil_r).

Lemma preserved_refl (w : World) : preserved w w.
Proof. preserved_tac. Qed.

Lemma frame_preserved : frame preserved.
Proof.
  split.
  - apply preserved_refl.
  - intros w1 w2 w3 [a1 b1 c1 d1 e1 f1 g1 (t1 & Ht1) (r1 & Hr1) (v1 & Hv1 & Hk1)]
                    [a2 b2 c2 d2 e2 f2 g2 (t2 & Ht2) (r2 & Hr2) (v2 & Hv2 & Hk2)].
    split; try congruence.
    + exists (t1 ++ t2). rewrite Ht2, Ht1. now rewrite app_assoc.
    + exists (r1 ++ r2). rewrite Hr2, Hr1. now rewrite app_assoc.
    + exists (v2 ++ v1). split; [rewrite Hv2, Hv1; apply app_assoc|].
      rewrite Hk2, Hk1, length_app. lia.
  - intros e w. preserved_tac. exists [e]. split; reflexivity.
  - intros id p w. preserved_tac.
    apply (map_identity_patch (fun r => String.eqb (assignment_id r) id)).
  - intros id prio due_date w. preserved_tac.
    exists []. simpl. now rewrite map_taskIdentity_retask, app_nil_r.
  - intros t w. preserved_tac.
    exists [taskIdentity t]. simpl. now rewrite map_app.
  - intros r w. preserved_tac.
    exists [run_id r]. simpl. now rewrite map_app.
  - intros id fin s msg w. preserved_tac.
    exists []. simpl. now rewrite map_run_id_finalizeRun, app_nil_r.
Qed.

(** X6 -- Whatever the store and Todoist answer, and whether the run returns
    or throws, a run leaves the users and the courses as they were, keeps
    every assignment's id, course, name and due date, deletes no SyncRun
    record, and at Todoist deletes, renames or moves no task: the tasks it
    found keep their id, title and project, and new ones come after them.
    The log of external calls is only extended, by one entry per call
    counted. *)
Theorem run_preserves (userId : string) (courseIds : list string)
    (prioritySettings : option PrioritySettingsInput) (w : World) :
  preserved w (syncAssignmentsToTodoist userId courseIds prioritySettings w).2.
Proof.
  apply (respects_syncAssignmentsToTodoist preserved frame_preserved).
Qed.

(* ===================================================================== *)
(** * 30. The counters of a run *)
(* ===================================================================== *)

Ltac branches :=
  repeat match goal with
         | |- context [apiFaults ?w ?n] => destruct (apiFaults w n) eqn:?; simpl
         | |- context [storeFaults ?w ?n] =>
             destruct (storeFaults w n) eqn:?; simpl
         | |- context [hasTask ?i ?l] => destruct (hasTask i l) eqn:?; simpl
         | |- context [hasAssignment ?i ?l] =>
             destruct (hasAssignment i l) eqn:?; simpl
         end.

(** One iteration adds one to at most one counter, and counts a creation
    only when a task has been added. *)
Lemma syncOne_counts cb settings a st w :
  match syncOne cb settings a st w with
  | (Ok st', w') =>
      (st_created st <= st_created st')%nat
      /\ (st_skipped st <= st_skipped st')%nat
      /\ (st_created st' + st_skipped st'
          <= S (st_created st + st_skipped st))%nat
      /\ (st_created st' + length (tasks w)
          <= st_created st + length (tasks w'))%nat
      /\ (length (tasks w) <= length (tasks w'))%nat
  | (Throw _, _) => True
  end.
Proof.
  destruct (actionable cb a) eqn:Hact.
  2: { rewrite (syncOne_skip _ _ _ _ _ Hact). simpl. lia. }
  unfold actionable in Hact.
  destruct (cb !! courseId a) as [c|] eqn:Hc; [|discriminate].
  destruct (truthy (todoistTaskId a)) eqn:Hl.
  - rewrite (syncOne_linked _ _ _ _ _ _ Hc Hact Hl).
    unfold updateLinked, tryCatch, bind, getNow, todoist_updateTask,
      assignment_update, external, ret.
    branches; rewrite ?length_retask; simpl; try lia.
  - destruct (truthy (existingTasksByKey st
                !! makeTaskKey (nullish (todoistProjectId c) "") (name a)))
      eqn:Hk.
    + rewrite (syncOne_relink _ _ _ _ _ _ Hc Hact Hl Hk).
      unfold relinkExisting, tryCatch, bind, getNow, todoist_updateTask,
        assignment_update, external, ret.
      branches; rewrite ?length_retask; simpl; try lia.
    + rewrite (syncOne_create _ _ _ _ _ _ Hc Hact Hl Hk).
      unfold createNew, tryCatch, bind, getNow, todoist_createTask,
        assignment_update, external, ret.
      branches; rewrite ?length_app; simpl; try lia.
Qed.

Lemma syncLoop_counts cb settings l :
  forall st w,
    match syncLoop cb settings l st w with
    | (Ok st', w') =>
        (st_created st' + st_skipped st'
         <= st_created st + st_skipped st + length l)%nat
        /\ (st_created st' + length (tasks w)
            <= st_created st + length (tasks w'))%nat
    | (Throw _, _) => True
    end.
Proof.
  induction l as [|a rest IH]; intros st w.
  - simpl. lia.
  - change (syncLoop cb settings (a :: rest) st w)
      with (bind (syncOne cb settings a st)
                 (fun st1 => syncLoop cb settings rest st1) w).
    unfold bind. pose proof (syncOne_counts cb settings a st w) as H1.
    destruct (syncOne cb settings a st w) as [[st1|msg] w1]; [|exact I].
    specialize (IH st1 w1).
    destruct (syncLoop cb settings rest st1 w1) as [[st2|msg] w2]; [|exact I].
    simpl. lia.
Qed.

(** With a store that answers, a creation is counted whenever a task has
    been added. *)
Lemma syncOne_exact cb settings a st w :
  storeFaults w (S (tick w)) = false ->
  hasAssignment (assignment_id a) (assignments w) = true ->
  match syncOne cb settings a st w with
  | (Ok st', w') =>
      (st_created st' + length (tasks w)
       = st_created st + length (tasks w'))%nat
  | (Throw _, _) => True
  end.
Proof.
  intros Hs Ha.
  destruct (actionable cb a) eqn:Hact.
  2: { rewrite (syncOne_skip _ _ _ _ _ Hact). simpl. lia. }
  unfold actionable in Hact.
  destruct (cb !! courseId a) as [c|] eqn:Hc; [|discriminate].
  destruct (truthy (todoistTaskId a)) eqn:Hl.
  - rewrite (syncOne_linked _ _ _ _ _ _ Hc Hact Hl).
    rewrite (updateLinked_spec _ _ _ _ _ _ Hs Ha).
    destruct (updateFails _ w); simpl; rewrite ?length_retask; lia.
  - destruct (truthy (existingTasksByKey st
                !! makeTaskKey (nullish (todoistProjectId c) "") (name a)))
      eqn:Hk.
    + rewrite (syncOne_relink _ _ _ _ _ _ Hc Hact Hl Hk).
      destruct (relinkExisting_spec
                  (nullish (existingTasksByKey st
                     !! makeTaskKey (nullish (todoistProjectId c) "") (name a))
                     "")
                  (priorityFor w settings a)
                  (toTodoistDate (tzOffset w) (dueDate a)) a st w)
        as (st' & w' & -> & Hcr & _ & Hlen & _).
      lia.
    + rewrite (syncOne_create _ _ _ _ _ _ Hc Hact Hl Hk).
      destruct (apiFaults w (tick w)) eqn:Hapi.
      * rewrite createNew_fails by assumption. simpl. lia.
      * rewrite createNew_ok by auto. simpl. rewrite length_app. simpl. lia.
Qed.

Lemma syncLoop_exact cb settings l :
  forall st w,
    (forall n, storeFaults w n = false) ->
    (forall a, In a l -> hasAssignment (assignment_id a) (assignments w) = true) ->
    match syncLoop cb settings l st w with
    | (Ok st', w') =>
        (st_created st' + length (tasks w)
         = st_created st + length (tasks w'))%nat
    | (Throw _, _) => True
    end.
Proof.
  induction l as [|a rest IH]; intros st w Hrel Hl.
  - simpl. lia.
  - change (syncLoop cb settings (a :: rest) st w)
      with (bind (syncOne cb settings a st)
                 (fun st1 => syncLoop cb settings rest st1) w).
    unfold bind.
    pose proof (syncOne_exact cb settings a st w (Hrel _)
                  (Hl a (or_introl eq_refl))) as H1.
    pose proof (keeps_syncOne cb settings a st w) as Hk.
    destruct (syncOne cb settings a st w) as [[st1|msg] w1]; [|exact I].
    simpl in Hk.
    assert (Hrel1 : forall n, storeFaults w1 n = false).
    { intros n. rewrite (steps_storeFaults _ _ Hk). apply Hrel. }
    assert (Hl1 : forall b, In b rest ->
                  hasAssignment (assignment_id b) (assignments w1) = true).
    { intros b Hb.
      rewrite (hasAssignment_identity _ _ _ (steps_identity _ _ Hk)).
      apply Hl. right. exact Hb. }
    specialize (IH st1 w1 Hrel1 Hl1).
    destruct (syncLoop cb settings rest st1 w1) as [[st2|msg] w2]; [|exact I].
    lia.
Qed.

(** How a call that returns got there. *)
Lemma bind_returns {A B : Type} (m : M A) (f : A -> M B) w b w2 :
  bind m f w = (Ok b, w2) ->
  exists a w1, m w = (Ok a, w1) /\ f a w1 = (Ok b, w2).
Proof.
  unfold bind. destruct (m w) as [[a|msg] w1]; [|discriminate].
  intros H. exists a, w1. auto.
Qed.

Lemma external_returns {A : Type} (faults : World -> nat -> bool) (c : Call)
    (effect : World -> Outcome A * World) w a w2 :
  external faults c effect w = (Ok a, w2) ->
  faults w (tick w) = false
  /\ exists w1, effect w = (Ok a, w1) /\ w2 = advance (ev c true) w1.
Proof.
  unfold external. destruct (faults w (tick w)); [discriminate|].
  destruct (effect w) as [[x|msg] w1]; [|discriminate].
  intros H. injection H as <- <-. split; [reflexivity|].
  exists w1. auto.
Qed.

Lemma quiet_markSuccess run c s : quiet (markSuccess run c s).
Proof.
  intros w. rewrite markSuccess_eq. revert w.
  intros w. unfold syncRun_update.
  apply (quiet_external storeFaults); try reflexivity.
  intros w1. destruct (hasRun _ _); simpl; split; reflexivity.
Qed.

Lemma quiet_markError run err : quiet (markError run err).
Proof.
  intros w. rewrite markError_eq. unfold syncRun_update.
  apply (quiet_external storeFaults); try reflexivity.
  intros w1. destruct (hasRun _ _); simpl; split; reflexivity.
Qed.

(** A run body that returns: the courses and assignments it selected, the
    loop it ran over them, and the result it reports. *)
Lemma syncBody_returns run userId courseIds settings w r w' :
  syncBody run userId courseIds settings w = (Ok r, w') ->
  let cs := selectCourses courseIds userId (courses w) in
  let l := selectAssignments (map course_id cs) (assignments w) in
  exists wp index st w4,
    sameData w wp
    /\ (if Nat.eqb (length cs) 0
        then st_created st = 0%nat /\ st_skipped st = 0%nat /\ w4 = wp
        else syncLoop (courseMap cs) settings l
               {| st_created := 0; st_skipped := 0;
                  existingTasksByKey := index |} wp = (Ok st, w4))
    /\ sameData w4 w'
    /\ r = {| created := st_created st; skipped := st_skipped st |}.
Proof.
  intros H cs l. unfold syncBody in H.
  apply bind_returns in H as (cs' & wa & H1 & H).
  apply external_returns in H1 as (F1 & w1 & E1 & ->).
  injection E1 as <- <-. fold cs in H.
  set (wa := advance _ w) in H.
  assert (Sa : sameData w wa) by (split; reflexivity).
  destruct (Nat.eqb (length cs) 0) eqn:Hcs.
  { apply bind_returns in H as ([] & wb & H2 & H).
    injection H as <- <-.
    pose proof (quiet_markSuccess run 0 0 wa) as Q. rewrite H2 in Q.
    exists wa, ∅,
      {| st_created := 0; st_skipped := 0; existingTasksByKey := ∅ |}, wa.
    simpl in Q. auto. }
  apply bind_returns in H as (l' & wb & H2 & H).
  apply external_returns in H2 as (F2 & w2 & E2 & ->).
  injection E2 as <- <-.
  change (selectAssignments (map course_id cs) (assignments wa)) with l in H.
  set (wb := advance _ wa) in H.
  assert (Sb : sameData w wb) by (split; reflexivity).
  apply bind_returns in H as (index & w3 & H3 & H).
  pose proof (quiet_loadExistingTasks (projectIdsOf cs) ∅ wb) as Q3.
  rewrite H3 in Q3. simpl in Q3.
  apply bind_returns in H as (st & w4 & H4 & H).
  apply bind_returns in H as ([] & w5 & H5 & H).
  injection H as <- <-.
  pose proof (quiet_markSuccess run (st_created st) (st_skipped st) w4) as Q5.
  rewrite H5 in Q5. simpl in Q5.
  exists w3, index, st, w4.
  split; [exact (sameData_trans _ _ _ Sb Q3)|]. auto.
Qed.

(** A run that returns, likewise; a run without course ids returns at once. *)
Lemma sync_returns userId courseIds prioritySettings w r w' :
  syncAssignmentsToTodoist userId courseIds prioritySettings w = (Ok r, w') ->
  let cs := selectCourses courseIds userId (courses w) in
  let l := selectAssignments (map course_id cs) (assignments w) in
  (courseIds = [] /\ r = {| created := 0; skipped := 0 |} /\ w' = w)
  \/ exists wp index st w4,
       sameData w wp
       /\ (if Nat.eqb (length cs) 0
           then st_created st = 0%nat /\ st_skipped st = 0%nat /\ w4 = wp
           else syncLoop (courseMap cs)
                  (normalizePrioritySettings prioritySettings) l
                  {| st_created := 0; st_skipped := 0;
                     existingTasksByKey := index |} wp = (Ok st, w4))
       /\ sameData w4 w'
       /\ r = {| created := st_created st; skipped := st_skipped st |}.
Proof.
  intros H cs l. unfold syncAssignmentsToTodoist in H.
  destruct courseIds as [|c0 ids].
  { left. injection H as <- <-. auto. }
  right. simpl Nat.eqb in H. cbv iota in H.
  apply bind_returns in H as (user & wa & H1 & H).
  apply external_returns in H1 as (F1 & w1 & E1 & ->).
  injection E1 as <- <-.
  destruct (_ ≫= todoistAccount) as [tok|]; [|discriminate].
  apply bind_returns in H as (run & wb & H2 & H).
  unfold syncRun_create in H2.
  apply external_returns in H2 as (F2 & w2 & E2 & ->).
  injection E2 as <- <-.
  unfold tryCatch in H.
  match type of H with
  | context [syncBody ?run ?u ?ids ?s ?w0] =>
      destruct (syncBody run u ids s w0) as [[r0|msg] w5] eqn:E5
  end.
  - injection H as <- <-.
    apply syncBody_returns in E5.
    destruct E5 as (wp & index & st & w4 & Sp & Hloop & S4 & ->).
    exists wp, index, st, w4.
    split; [|auto].
    refine (sameData_trans _ _ _ _ Sp). split; reflexivity.
  - apply bind_returns in H as ([] & w6 & _ & H). discriminate H.
Qed.

(** X7 -- The counters a run returns never add up to more than the number
    of assignments of the selected courses, and [created] never exceeds the
    number of tasks the run has added at Todoist. *)
Theorem counters_bounded (userId : string) (courseIds : list string)
    (prioritySettings : option PrioritySettingsInput) (w : World)
    (r : SyncResult)
    (Hret : (syncAssignmentsToTodoist userId courseIds prioritySettings w).1
            = Ok r) :
  let w' := (syncAssignmentsToTodoist userId courseIds prioritySettings w).2 in
  let cs := selectCourses courseIds userId (courses w) in
  let l := selectAssignments (map course_id cs) (assignments w) in
  (created r + skipped r <= length l)%nat
  /\ (length (tasks w) + created r <= length (tasks w'))%nat.
Proof.
  intros w' cs l. subst w'.
  destruct (syncAssignmentsToTodoist userId courseIds prioritySettings w)
    as [o w'] eqn:E.
  simpl in Hret |- *. subst o.
  destruct (sync_returns _ _ _ _ _ _ E)
    as [(_ & -> & ->)|(wp & index & st & w4 & Sp & Hloop & S4 & ->)].
  { simpl. lia. }
  fold cs l in Hloop. simpl.
  destruct (Nat.eqb (length cs) 0).
  - destruct Hloop as (-> & -> & ->).
    rewrite (sd_tasks _ _ S4), (sd_tasks _ _ Sp). lia.
  - pose proof (syncLoop_counts (courseMap cs)
                  (normalizePrioritySettings prioritySettings) l
                  {| st_created := 0; st_skipped := 0;
                     existingTasksByKey := index |} wp) as Hc.
    rewrite Hloop in Hc. simpl in Hc.
    rewrite (sd_tasks _ _ S4). rewrite (sd_tasks _ _ Sp) in Hc. lia.
Qed.

(** A creation that Todoist accepts while the store write that follows it
    throws: a task has been added, and the run reports none created. *)
Lemma counters_bounded_witness :
  let w := storeBreaksAt 6 in
  let w' := (syncAssignmentsToTodoist "u" ["c"] None w).2 in
  (0 + 1 <= 1)%nat /\ (length (tasks w) + 0 <= length (tasks w'))%nat.
Proof.
  exact (counters_bounded "u" ["c"] None (storeBreaksAt 6)
           {| created := 0; skipped := 1 |}
           ltac:(vm_compute; reflexivity)).
Defined.

Example unrecorded_creation :
  let w := storeBreaksAt 6 in
  let out := syncAssignmentsToTodoist "u" ["c"] None w in
  out.1 = Ok {| created := 0; skipped := 1 |}
  /\ map taskIdentity (tasks out.2) = [("100", "HW1", "P")]
  /\ map todoistTaskId (assignments out.2) = [None].
Proof. vm_compute. repeat split; reflexivity. Qed.

(** X8 -- Over a store that answers every call, [created] is exactly the
    number of tasks the run has added at Todoist. *)
Theorem created_counts_new_tasks (userId : string) (courseIds : list string)
    (prioritySettings : option PrioritySettingsInput) (w : World)
    (r : SyncResult)
    (Hstore : forall n, storeFaults w n = false)
    (Hret : (syncAssignmentsToTodoist userId courseIds prioritySettings w).1
            = Ok r) :
  let w' := (syncAssignmentsToTodoist userId courseIds prioritySettings w).2 in
  length (tasks w') = (length (tasks w) + created r)%nat.
Proof.
  intros w'. subst w'.
  destruct (syncAssignmentsToTodoist userId courseIds prioritySettings w)
    as [o w'] eqn:E.
  simpl in Hret |- *. subst o.
  destruct (sync_returns _ _ _ _ _ _ E)
    as [(_ & -> & ->)|(wp & index & st & w4 & Sp & Hloop & S4 & ->)].
  { simpl. lia. }
  simpl.
  set (cs := selectCourses courseIds userId (courses w)) in Hloop.
  set (l := selectAssignments (map course_id cs) (assignments w)) in Hloop.
  destruct (Nat.eqb (length cs) 0).
  - destruct Hloop as (-> & _ & ->).
    rewrite (sd_tasks _ _ S4), (sd_tasks _ _ Sp). lia.
  - assert (Hrelp : forall n, storeFaults wp n = false).
    { intros n. rewrite (sd_storeFaults _ _ Sp). apply Hstore. }
    assert (Hlp : forall a, In a l ->
                  hasAssignment (assignment_id a) (assignments wp) = true).
    { intros a Ha. rewrite (sd_assignments _ _ Sp).
      exact (In_filter_hasAssignment _ _ _ Ha). }
    pose proof (syncLoop_exact (courseMap cs)
                  (normalizePrioritySettings prioritySettings) l
                  {| st_created := 0; st_skipped := 0;
                     existingTasksByKey := index |} wp Hrelp Hlp) as Hc.
    rewrite Hloop in Hc. simpl in Hc.
    rewrite (sd_tasks _ _ S4). rewrite (sd_tasks _ _ Sp) in Hc. lia.
Qed.

Lemma created_counts_new_tasks_witness :
  let w := sameTitleTwice in
  let w' := (syncAssignmentsToTodoist "u" ["c"] None w).2 in
  length (tasks w') = (length (tasks w) + 1)%nat.
Proof.
  exact (created_counts_new_tasks "u" ["c"] None sameTitleTwice
           {| created := 1; skipped := 1 |}
           ltac:(intros n; reflexivity)
           ltac:(vm_compute; reflexivity)).
Defined.

(* ===================================================================== *)
(** * 31. The assignments a run may write *)
(* ===================================================================== *)

Lemma In_patchWhere_other (id : string) (p : AssignmentPatch) (r : Assignment)
    (l : list Assignment) :
  In r l -> assignment_id r <> id -> In r (patchWhere id p l).
Proof.
  intros H Hne. unfold patchWhere. apply in_map_iff. exists r.
  destruct (String.eqb_spec (assignment_id r) id); [contradiction|auto].
Qed.

(** An iteration writes the record of its own assignment only. *)
Lemma syncOne_others cb settings a st w (r : Assignment) :
  In r (assignments w) -> assignment_id r <> assignment_id a ->
  In r (assignments (syncOne cb settings a st w).2).
Proof.
  intros Hr Hne.
  destruct (actionable cb a) eqn:Hact.
  2: { rewrite (syncOne_skip _ _ _ _ _ Hact). exact Hr. }
  unfold actionable in Hact.
  destruct (cb !! courseId a) as [c|] eqn:Hc; [|discriminate].
  destruct (truthy (todoistTaskId a)) eqn:Hl.
  - rewrite (syncOne_linked _ _ _ _ _ _ Hc Hact Hl).
    unfold updateLinked, tryCatch, bind, getNow, todoist_updateTask,
      assignment_update, external, ret.
    branches; auto using In_patchWhere_other.
  - destruct (truthy (existingTasksByKey st
                !! makeTaskKey (nullish (todoistProjectId c) "") (name a)))
      eqn:Hk.
    + rewrite (syncOne_relink _ _ _ _ _ _ Hc Hact Hl Hk).
      unfold relinkExisting, tryCatch, bind, getNow, todoist_updateTask,
        assignment_update, external, ret.
      branches; auto using In_patchWhere_other.
    + rewrite (syncOne_create _ _ _ _ _ _ Hc Hact Hl Hk).
      unfold createNew, tryCatch, bind, getNow, todoist_createTask,
        assignment_update, external, ret.
      branches; auto using In_patchWhere_other.
Qed.

Lemma syncLoop_others cb settings l (r : Assignment) :
  (forall a, In a l -> assignment_id r <> assignment_id a) ->
  forall st w,
    In r (assignments w) ->
    In r (assignments (syncLoop cb settings l st w).2).
Proof.
  induction l as [|a rest IH]; intros Hl st w Hr; [exact Hr|].
  change (syncLoop cb settings (a :: rest) st w)
    with (bind (syncOne cb settings a st)
               (fun st1 => syncLoop cb settings rest st1) w).
  unfold bind.
  pose proof (syncOne_others cb settings a st w r Hr
                (Hl a (or_introl eq_refl))) as H1.
  destruct (syncOne cb settings a st w) as [[st1|msg] w1]; [|exact H1].
  apply IH; [|exact H1]. intros b Hb. apply Hl. right. exact Hb.
Qed.

(** The world a run body leaves, whatever its outcome: the world it found,
    up to the log and the SyncRun table, or such a world after the loop. *)
Lemma syncBody_world run userId courseIds settings w :
  let cs := selectCourses courseIds userId (courses w) in
  let l := selectAssignments (map course_id cs) (assignments w) in
  let w' := (syncBody run userId courseIds settings w).2 in
  sameData w w'
  \/ exists wp index w4,
       sameData w wp
       /\ w4 = (syncLoop (courseMap cs) settings l
                  {| st_created := 0; st_skipped := 0;
                     existingTasksByKey := index |} wp).2
       /\ sameData w4 w'.
Proof.
  intros cs l w'. subst w'.
  remember (syncBody run userId courseIds settings w) as out eqn:E.
  unfold syncBody in E. unfold bind at 1 in E.
  unfold course_findMany, external in E.
  destruct (storeFaults w (tick w)); [subst out; left; split; reflexivity|].
  fold cs in E. set (wa := advance _ w) in E.
  assert (Sa : sameData w wa) by (split; reflexivity).
  destruct (Nat.eqb (length cs) 0).
  { left. unfold bind in E.
    pose proof (quiet_markSuccess run 0 0 wa) as Q.
    destruct (markSuccess run 0 0 wa) as [[[]|msg] wb]; subst out;
      simpl in *; exact (sameData_trans _ _ _ Sa Q). }
  unfold bind at 1 in E. unfold assignment_findMany, external in E.
  destruct (storeFaults wa (tick wa)); [subst out; left; split; reflexivity|].
  change (selectAssignments (map course_id cs) (assignments wa)) with l in E.
  set (wb := advance _ wa) in E.
  assert (Sb : sameData w wb) by (split; reflexivity).
  unfold bind at 1 in E.
  destruct (loadExistingTasks_total (projectIdsOf cs) ∅ wb) as (index & w3 & E3).
  pose proof (quiet_loadExistingTasks (projectIdsOf cs) ∅ wb) as Q3.
  rewrite E3 in E, Q3. simpl in Q3.
  pose proof (sameData_trans _ _ _ Sb Q3) as S3.
  right. exists w3, index. eexists. split; [exact S3|]. split; [reflexivity|].
  unfold bind at 1 in E.
  destruct (syncLoop (courseMap cs) settings l _ w3) as [[st|msg] w4];
    [|subst out; apply sameData_refl].
  unfold bind in E.
  pose proof (quiet_markSuccess run (st_created st) (st_skipped st) w4) as Q.
  destruct (markSuccess run (st_created st) (st_skipped st) w4)
    as [[[]|msg] w5]; subst out; simpl in *; exact Q.
Qed.

Lemma sync_world userId courseIds prioritySettings w :
  let cs := selectCourses courseIds userId (courses w) in
  let l := selectAssignments (map course_id cs) (assignments w) in
  let w' := (syncAssignmentsToTodoist userId courseIds prioritySettings w).2 in
  sameData w w'
  \/ exists wp index w4,
       sameData w wp
       /\ w4 = (syncLoop (courseMap cs)
                  (normalizePrioritySettings prioritySettings) l
                  {| st_created := 0; st_skipped := 0;
                     existingTasksByKey := index |} wp).2
       /\ sameData w4 w'.
Proof.
  intros cs l w'. subst w'.
  remember (syncAssignmentsToTodoist userId courseIds prioritySettings w)
    as out eqn:E.
  unfold syncAssignmentsToTodoist in E.
  destruct (Nat.eqb (length courseIds) 0);
    [subst out; left; apply sameData_refl|].
  unfold bind at 1 in E. unfold user_findUnique, external in E.
  destruct (storeFaults w (tick w)); [subst out; left; split; reflexivity|].
  set (wa := advance _ w) in E.
  destruct (_ ≫= todoistAccount) as [tok|];
    [|subst out; left; split; reflexivity].
  unfold bind at 1 in E. unfold syncRun_create, external in E.
  destruct (storeFaults wa (tick wa)); [subst out; left; split; reflexivity|].
  set (run := {| run_id := freshRunId (syncRuns wa) |}) in E.
  set (wb := advance _ _) in E.
  assert (Sb : sameData w wb) by (split; reflexivity).
  unfold tryCatch in E.
  set (body := syncBody run userId courseIds
                 (normalizePrioritySettings prioritySettings) wb) in E.
  assert (Hb : sameData wb body.2
               \/ exists wp index w4,
                    sameData wb wp
                    /\ w4 = (syncLoop (courseMap cs)
                               (normalizePrioritySettings prioritySettings) l
                               {| st_created := 0; st_skipped := 0;
                                  existingTasksByKey := index |} wp).2
                    /\ sameData w4 body.2)
    by exact (syncBody_world run userId courseIds
                (normalizePrioritySettings prioritySettings) wb).
  clearbody body.
  destruct body as [[r|msg] w5]; simpl in Hb.
  - subst out. simpl.
    destruct Hb as [S5|(wp & index & w4 & Sp & E4 & S4)].
    + left. exact (sameData_trans _ _ _ Sb S5).
    + right. exists wp, index, w4.
      split; [exact (sameData_trans _ _ _ Sb Sp)|]. auto.
  - unfold bind in E.
    pose proof (quiet_markError run msg w5) as Q.
    assert (Hout : out.2 = (markError run msg w5).2).
    { subst out. destruct (markError run msg w5) as [[[]|msg'] w6];
        reflexivity. }
    rewrite Hout.
    destruct Hb as [S5|(wp & index & w4 & Sp & E4 & S4)].
    + left. exact (sameData_trans _ _ _ (sameData_trans _ _ _ Sb S5) (Q)).
    + right. exists wp, index, w4.
      split; [exact (sameData_trans _ _ _ Sb Sp)|].
      split; [exact E4|exact (sameData_trans _ _ _ S4 Q)].
Qed.

Lemma NoDup_map_eq {A B : Type} (f : A -> B) (l : list A) (a b : A) :
  List.NoDup (map f l) -> In a l -> In b l -> f a = f b -> a = b.
Proof.
  induction l as [|x l IH]; simpl; [tauto|].
  intros Hnd Ha Hb Hf. apply List.NoDup_cons_iff in Hnd. destruct Hnd as [Hx Hnd].
  destruct Ha as [->|Ha], Hb as [->|Hb]; auto.
  - exfalso. apply Hx. rewrite Hf. now apply in_map.
  - exfalso. apply Hx. rewrite <- Hf. now apply in_map.
Qed.

(** X9 -- A run writes the records of the assignments of the selected
    courses only (the courses asked for that are the user's and have a
    project).  With assignment ids unique, as the store keeps them, the
    record of any other assignment is after the run what it was before,
    link and time stamp included, whatever fails on the way. *)
Theorem unselected_assignments_untouched (userId : string)
    (courseIds : list string)
    (prioritySettings : option PrioritySettingsInput) (w : World)
    (r : Assignment)
    (Hids : List.NoDup (map assignment_id (assignments w)))
    (Hr : In r (assignments w))
    (Hout : inList (courseId r)
              (map course_id (selectCourses courseIds userId (courses w)))
            = false) :
  In r (assignments
          (syncAssignmentsToTodoist userId courseIds prioritySettings w).2).
Proof.
  destruct (sync_world userId courseIds prioritySettings w)
    as [S|(wp & index & w4 & Sp & E4 & S4)].
  { rewrite (sd_assignments _ _ S). exact Hr. }
  rewrite (sd_assignments _ _ S4), E4.
  apply syncLoop_others.
  - intros a Ha Heq. unfold selectAssignments in Ha.
    apply filter_In in Ha. destruct Ha as [Ha Hsel].
    assert (r = a) by exact (NoDup_map_eq _ _ _ _ Hids Hr Ha Heq).
    subst a. rewrite Hout in Hsel. discriminate.
  - rewrite (sd_assignments _ _ Sp). exact Hr.
Qed.

Lemma unselected_assignments_untouched_witness :
  let other := {| assignment_id := "b1"; courseId := "d"; name := "Essay";
                  dueDate := None; todoistTaskId := Some "55";
                  lastSyncedAt := Some 7 |} in
  let w := exampleWorld never [homework "a1" None; other] [] in
  In other (assignments (syncAssignmentsToTodoist "u" ["c"; "d"] None w).2).
Proof.
  intros other w.
  apply (unselected_assignments_untouched "u" ["c"; "d"] None w other).
  - apply List.NoDup_cons; [simpl; intros [H|[]]; discriminate|].
    apply List.NoDup_cons; [simpl; tauto|apply List.NoDup_nil].
  - right. left. reflexivity.
  - vm_compute. reflexivity.
Defined.

(* ===================================================================== *)
(** * 32. Failures inside the loop *)
(* ===================================================================== *)

(** X10 -- The loop swallows every failure but one.  An iteration throws
    only for an assignment that is linked, after the update of its task or
    the write of its time stamp has thrown, when the write that clears the
    link throws as well.  No record has been written by then. *)
Theorem only_unlinking_aborts cb settings (a : Assignment) (st : LoopState)
    (w : World) (msg : string)
    (Hthrow : (syncOne cb settings a st w).1 = Throw msg) :
  let taskId := nullish (todoistTaskId a) "" in
  let w' := (syncOne cb settings a st w).2 in
  truthy (todoistTaskId a) = true
  /\ actionable cb a = true
  /\ assignments w' = assignments w
  /\ exists evs,
       trace w'
       = ev (AssignmentUpdate (assignment_id a)) false :: evs ++ trace w
       /\ (evs = [ev (PostTaskUpdate taskId) false]
           \/ evs = [ev (AssignmentUpdate (assignment_id a)) false;
                     ev (PostTaskUpdate taskId) true]).
Proof.
  intros taskId w'. subst taskId w'. revert Hthrow.
  destruct (actionable cb a) eqn:Hact.
  2: { rewrite (syncOne_skip _ _ _ _ _ Hact). discriminate. }
  unfold actionable in Hact.
  destruct (cb !! courseId a) as [c|] eqn:Hc; [|discriminate].
  destruct (truthy (todoistTaskId a)) eqn:Hl.
  - rewrite (syncOne_linked _ _ _ _ _ _ Hc Hact Hl).
    unfold updateLinked, tryCatch, bind, getNow, todoist_updateTask,
      assignment_update, external, ret.
    branches; intros Hthrow; try discriminate Hthrow;
      (split; [reflexivity|]); (split; [reflexivity|]);
      (split; [reflexivity|]);
      first [ exists [ev (PostTaskUpdate (nullish (todoistTaskId a) "")) false];
              split; [reflexivity|left; reflexivity]
            | exists [ev (AssignmentUpdate (assignment_id a)) false;
                      ev (PostTaskUpdate (nullish (todoistTaskId a) "")) true];
              split; [reflexivity|right; reflexivity] ].
  - destruct (truthy (existingTasksByKey st
                !! makeTaskKey (nullish (todoistProjectId c) "") (name a)))
      eqn:Hk.
    + rewrite (syncOne_relink _ _ _ _ _ _ Hc Hact Hl Hk).
      unfold relinkExisting, tryCatch, bind, getNow, todoist_updateTask,
        assignment_update, external, ret.
      branches; discriminate.
    + rewrite (syncOne_create _ _ _ _ _ _ Hc Hact Hl Hk).
      unfold createNew, tryCatch, bind, getNow, todoist_createTask,
        assignment_update, external, ret.
      branches; discriminate.
Qed.

Lemma only_unlinking_aborts_witness :
  let a := homework "a1" (Some "gone") in
  let w := storeBreaksAt 1 in
  truthy (todoistTaskId a) = true
  /\ assignments (syncOne exampleCourses exampleSettings a emptyState w).2
     = assignments w.
Proof.
  intros a w.
  destruct (only_unlinking_aborts exampleCourses exampleSettings a emptyState
              w "Request failed" ltac:(vm_compute; reflexivity))
    as (Hl & _ & Ha & _).
  exact (conj Hl Ha).
Defined.

(** A run with such an iteration: it throws and is finalized as ERROR, the
    second assignment never visited. *)
Example failed_unlink_ends_run :
  let w := {| tick := 0; storeFaults := onlyAt 6; apiFaults := never;
              clock := fun n => Z.of_nat n * 1000 + 1766404800000;
              tzOffset := 0;
              users := [{| user_id := "u"; todoistAccount := Some "token" |}];
              courses := [exampleCourse];
              assignments := [homework "a1" (Some "gone"); homework "a2" None];
              syncRuns := []; tasks := []; taskSeq := 100; trace := [] |} in
  let out := syncAssignmentsToTodoist "u" ["c"] None w in
  out.1 = Throw "Request failed"
  /\ map status (syncRuns out.2) = [ERROR]
  /\ map todoistTaskId (assignments out.2) = [Some "gone"; None]
  /\ tasks out.2 = [].
Proof. vm_compute. repeat split; reflexivity. Qed.

(** X11 -- The handler that clears the link of a task deleted at Todoist
    also catches a failure of the store.  When Todoist accepts the update of
    a linked assignment's task and the write of the time stamp throws, the
    iteration clears the link and counts the assignment as skipped (the
    skipped count goes up by one, the created count stays), while the task
    is still there. *)
Theorem store_failure_unlinks_live_task cb settings (a : Assignment)
    (st : LoopState) (w : World) (c : Course)
    (Hc : cb !! courseId a = Some c)
    (Hp : truthy (todoistProjectId c) = true)
    (Hlinked : truthy (todoistTaskId a) = true)
    (Hupdate : updateFails (nullish (todoistTaskId a) "") w = false)
    (Hstamp : storeFaults w (S (tick w)) = true)
    (Hclear : storeFaults w (S (S (tick w))) = false)
    (Hrec : In a (assignments w)) :
  let out := syncOne cb settings a st w in
  (exists st', out.1 = Ok st'
               /\ st_skipped st' = S (st_skipped st)
               /\ st_created st' = st_created st
               /\ existingTasksByKey st' = existingTasksByKey st)
  /\ hasTask (nullish (todoistTaskId a) "") (tasks out.2) = true
  /\ In {| assignment_id := assignment_id a; courseId := courseId a;
           name := name a; dueDate := dueDate a; todoistTaskId := None;
           lastSyncedAt := Some (clock w (S (S (tick w)))) |}
        (assignments out.2).
Proof.
  intros out. subst out.
  rewrite (syncOne_linked _ _ _ _ _ _ Hc Hp Hlinked).
  unfold updateLinked, tryCatch, bind.
  rewrite (todoist_updateTask_ok _ _ _ _ Hupdate).
  unfold getNow.
  rewrite assignment_update_fails by exact Hstamp.
  rewrite assignment_update_ok;
    [|exact Hclear|exact (hasAssignment_In _ _ Hrec)].
  simpl. split; [eexists; repeat split; reflexivity|]. split.
  - unfold updateFails in Hupdate. apply orb_false_iff in Hupdate.
    destruct Hupdate as [_ Hhas]. apply negb_false_iff in Hhas.
    unfold hasTask in *. apply existsb_exists in Hhas.
    destruct Hhas as (t & Hin & Hid). apply existsb_exists.
    eexists. split; [unfold retask; apply in_map; exact Hin|].
    simpl. rewrite Hid. simpl. exact Hid.
  - exact (In_patchWhere (assignment_id a)
             {| set_todoistTaskId := Some None;
                set_lastSyncedAt := clock w (S (S (tick w))) |}
             a (assignments w) Hrec eq_refl).
Qed.

Lemma store_failure_unlinks_live_task_witness :
  let a := homework "a1" (Some "77") in
  let w := {| tick := 0; storeFaults := onlyAt 1; apiFaults := never;
              clock := fun n => Z.of_nat n * 1000 + 1766404800000;
              tzOffset := 0; users := []; courses := [exampleCourse];
              assignments := [a]; syncRuns := []; tasks := [existingTask];
              taskSeq := 100; trace := [] |} in
  let out := syncOne exampleCourses exampleSettings a emptyState w in
  (exists st', out.1 = Ok st' /\ st_skipped st' = 1%nat
               /\ st_created st' = 0%nat)
  /\ hasTask "77" (tasks out.2) = true
  /\ map todoistTaskId (assignments out.2) = [None].
Proof.
  intros a w out.
  destruct (store_failure_unlinks_live_task exampleCourses exampleSettings a
              emptyState w exampleCourse
              ltac:(vm_compute; reflexivity) ltac:(reflexivity)
              ltac:(reflexivity) ltac:(vm_compute; reflexivity)
              ltac:(reflexivity) ltac:(reflexivity)
              ltac:(left; reflexivity))
    as ((st' & H1 & Hsk & Hcr & _) & H2 & _).
  split; [exists st'; split; [exact H1|]; split; [exact Hsk|exact Hcr]|].
  split; [exact H2|]. vm_compute. reflexivity.
Defined.

(* ===================================================================== *)
(** * 33. The index of existing tasks *)
(* ===================================================================== *)

Lemma rememberTask_cases p (m : gmap string string) (t : TodoistTask)
    (key : string) :
  rememberTask p m t !! key
  = match m !! key with
    | Some id => Some id
    | None => if decide (makeTaskKey p (content t) = key)
              then Some (task_id t) else None
    end.
Proof.
  unfold rememberTask.
  destruct (m !! makeTaskKey p (content t)) as [id0|] eqn:E0.
  - destruct (m !! key) as [id|] eqn:E; [reflexivity|].
    destruct (decide _) as [<-|]; [congruence|reflexivity].
  - destruct (decide (makeTaskKey p (content t) = key)) as [<-|Hne].
    + rewrite lookup_insert_eq, E0. reflexivity.
    + rewrite lookup_insert_ne by exact Hne.
      destruct (m !! key); reflexivity.
Qed.

Lemma foldl_rememberTask_keeps p (data : list TodoistTask) :
  forall (m : gmap string string) key id,
    m !! key = Some id -> foldl (rememberTask p) m data !! key = Some id.
Proof.
  induction data as [|t data IH]; intros m key id H; simpl; [exact H|].
  apply IH. rewrite rememberTask_cases, H. reflexivity.
Qed.

Lemma foldl_rememberTask_sound p (data : list TodoistTask) :
  forall (m : gmap string string) key id,
    foldl (rememberTask p) m data !! key = Some id ->
    m !! key = Some id
    \/ exists t, In t data /\ task_id t = id
                 /\ makeTaskKey p (content t) = key.
Proof.
  induction data as [|t data IH]; intros m key id H; simpl in *; [auto|].
  destruct (IH _ _ _ H) as [Hm|(t' & Hin & Hid & Hk)].
  - rewrite rememberTask_cases in Hm.
    destruct (m !! key) as [id0|]; [auto|].
    destruct (decide _) as [Hk|]; [|discriminate].
    injection Hm as <-. right. exists t. auto.
  - right. exists t'. auto.
Qed.

Lemma foldl_rememberTask_complete p (data : list TodoistTask) :
  forall (m : gmap string string) t,
    In t data ->
    is_Some (foldl (rememberTask p) m data !! makeTaskKey p (content t)).
Proof.
  induction data as [|x data IH]; intros m t Hin; simpl in *; [tauto|].
  destruct Hin as [->|Hin]; [|apply IH; exact Hin].
  assert (H : is_Some (rememberTask p m t !! makeTaskKey p (content t))).
  { rewrite rememberTask_cases.
    destruct (m !! makeTaskKey p (content t)); [eauto|].
    destruct (decide _); [eauto|contradiction]. }
  destruct H as [id H]. exists id.
  exact (foldl_rememberTask_keeps _ _ _ _ _ H).
Qed.

Lemma loadExistingTasks_index ps :
  forall (m : gmap string string) (w : World),
    exists index w',
      loadExistingTasks ps m w = (Ok index, w')
      /\ tasks w' = tasks w
      /\ (forall key id, m !! key = Some id -> index !! key = Some id)
      /\ (forall key id, index !! key = Some id ->
            m !! key = Some id
            \/ exists t, In t (tasks w) /\ task_id t = id
                         /\ keyOfTask t = key /\ In (project_id t) ps)
      /\ ((forall n, apiFaults w n = false) ->
          forall t, In t (tasks w) -> In (project_id t) ps ->
            is_Some (index !! keyOfTask t)).
Proof.
  induction ps as [|p rest IH]; intros m w.
  { exists m, w. split; [reflexivity|]. split; [reflexivity|].
    split; [auto|]. split; [auto|]. intros _ t _ []. }
  change (loadExistingTasks (p :: rest) m w)
    with (bind (tryCatch
                  (bind (todoist_getTasks p)
                     (fun data => ret (foldl (rememberTask p) m data)))
                  (fun _ => ret m))
               (fun m1 => loadExistingTasks rest m1) w).
  unfold bind at 1, tryCatch, bind, todoist_getTasks, external, ret.
  set (data := List.filter (fun t => String.eqb (project_id t) p) (tasks w)).
  assert (Hdata : forall t, In t data <-> In t (tasks w) /\ project_id t = p).
  { intros t. unfold data. rewrite filter_In.
    split; intros [H1 H2]; (split; [exact H1|]);
      [apply String.eqb_eq|apply String.eqb_eq]; exact H2. }
  destruct (apiFaults w (tick w)) eqn:Hapi.
  - set (w1 := advance _ w).
    destruct (IH m w1) as (index & w' & E & Ht & Hkeep & Hsound & Hcompl).
    exists index, w'. split; [exact E|]. split; [exact Ht|].
    split; [exact Hkeep|]. split.
    + intros key id H. destruct (Hsound _ _ H) as [Hm|(t & Hin & Hid & Hk & Hp)];
        [auto|]. right. exists t. simpl. auto.
    + intros Hno. rewrite Hno in Hapi. discriminate.
  - set (w1 := advance _ w).
    destruct (IH (foldl (rememberTask p) m data) w1)
      as (index & w' & E & Ht & Hkeep & Hsound & Hcompl).
    exists index, w'. split; [exact E|]. split; [exact Ht|]. split.
    { intros key id H. apply Hkeep.
      exact (foldl_rememberTask_keeps _ _ _ _ _ H). }
    split.
    + intros key id H.
      destruct (Hsound _ _ H) as [Hm|(t & Hin & Hid & Hk & Hp)].
      * destruct (foldl_rememberTask_sound _ _ _ _ _ Hm)
          as [Hm0|(t & Hin & Hid & Hk)]; [auto|].
        apply Hdata in Hin. destruct Hin as [Hin Hproj].
        right. exists t. split; [exact Hin|]. split; [exact Hid|].
        split; [unfold keyOfTask; rewrite Hproj; exact Hk|].
        left. symmetry. exact Hproj.
      * right. exists t. simpl. auto.
    + intros Hno t Hin [Hp|Hp].
      * assert (Hd : In t data) by (apply Hdata; auto).
        destruct (foldl_rememberTask_complete p data m t Hd) as [id Hid].
        exists id. apply Hkeep. unfold keyOfTask. rewrite <- Hp. exact Hid.
      * apply Hcompl; auto.
Qed.

(** X12 -- The index of existing tasks is sound: whatever listing fails,
    the run's listing of the projects changes no task, and every entry of
    the index it returns is the id of a task of one of the listed projects,
    filed under that task's project and trimmed title. *)
Theorem index_sound (projectIds : list string) (w : World) :
  let out := loadExistingTasks projectIds ∅ w in
  exists index,
    out.1 = Ok index
    /\ tasks out.2 = tasks w
    /\ forall key id, index !! key = Some id ->
         exists t, In t (tasks w) /\ task_id t = id /\ keyOfTask t = key
                   /\ In (project_id t) projectIds.
Proof.
  intros out. subst out.
  destruct (loadExistingTasks_index projectIds ∅ w)
    as (index & w' & E & Ht & _ & Hsound & _).
  rewrite E. exists index. split; [reflexivity|]. split; [exact Ht|].
  intros key id H. destruct (Hsound _ _ H) as [Hm|Hm]; [|exact Hm].
  rewrite lookup_empty in Hm. discriminate.
Qed.

(** X13 -- The index is complete when Todoist answers: every task of a
    listed project has an entry under its project and trimmed title. *)
Theorem index_complete (projectIds : list string) (w : World)
    (t : TodoistTask)
    (Hapi : forall n, apiFaults w n = false)
    (Htask : In t (tasks w))
    (Hproject : In (project_id t) projectIds) :
  exists index id,
    (loadExistingTasks projectIds ∅ w).1 = Ok index
    /\ index !! keyOfTask t = Some id.
Proof.
  destruct (loadExistingTasks_index projectIds ∅ w)
    as (index & w' & E & _ & _ & _ & Hcompl).
  destruct (Hcompl Hapi t Htask Hproject) as [id Hid].
  exists index, id. rewrite E. auto.
Qed.

Lemma index_complete_witness :
  let w := exampleWorld never [] [existingTask] in
  exists index id,
    (loadExistingTasks ["P"] ∅ w).1 = Ok index
    /\ index !! "P::HW1" = Some id.
Proof.
  intros w.
  exact (index_complete ["P"] w existingTask
           ltac:(intros n; reflexivity) ltac:(left; reflexivity)
           ltac:(left; reflexivity)).
Defined.

Lemma colonFree_cons (c : Ascii.ascii) (s : string) :
  colonFree (String c s) = true ->
  Ascii.nat_of_ascii c <> 58%nat /\ colonFree s = true.
Proof.
  unfold colonFree. simpl. intros H. apply andb_true_iff in H.
  destruct H as [Hc Hs]. split; [|exact Hs].
  intros E. rewrite E in Hc. discriminate Hc.
Qed.

Lemma append_nil_l (s : string) : "" +:+ s = s.
Proof. reflexivity. Qed.

Lemma append_cons_l (c : Ascii.ascii) (s t : string) :
  String c s +:+ t = String c (s +:+ t).
Proof. reflexivity. Qed.

Lemma key_prefix_inj (p p' x x' : string) :
  colonFree p = true -> colonFree p' = true ->
  p +:+ "::" +:+ x = p' +:+ "::" +:+ x' -> p = p' /\ x = x'.
Proof.
  revert p'. induction p as [|c p IH]; intros [|c' p'] Hp Hp' H;
    repeat (rewrite ?append_cons_l, ?append_nil_l in H).
  - injection H as ->. auto.
  - injection H as Hc _. apply colonFree_cons in Hp'.
    destruct Hp' as [Hne _]. rewrite <- Hc in Hne. exfalso. apply Hne.
    reflexivity.
  - injection H as Hc _. apply colonFree_cons in Hp.
    destruct Hp as [Hne _]. rewrite Hc in Hne. exfalso. apply Hne.
    reflexivity.
  - injection H as -> H. apply colonFree_cons in Hp, Hp'.
    destruct (IH p' (proj2 Hp) (proj2 Hp') H) as [-> ->]. auto.
Qed.

(** X14 -- The keys of the task index tell projects apart.  For project ids
    without a colon, two keys are equal exactly when the project is the same
    and the titles are equal once trimmed: a task is never matched with an
    assignment of another project, and surrounding white space in a title
    makes no difference. *)
Theorem task_key_separates (p p' title title' : string)
    (Hp : colonFree p = true) (Hp' : colonFree p' = true) :
  makeTaskKey p title = makeTaskKey p' title'
  <-> p = p' /\ trim title = trim title'.
Proof.
  unfold makeTaskKey. split.
  - apply key_prefix_inj; assumption.
  - intros [-> ->]. reflexivity.
Qed.

Lemma task_key_separates_witness :
  makeTaskKey "2301" " HW1" = makeTaskKey "2301" "HW1  "
  /\ makeTaskKey "2301" "HW1" <> makeTaskKey "2302" "HW1".
Proof.
  split.
  - apply (task_key_separates "2301" "2301" " HW1" "HW1  "
             ltac:(reflexivity) ltac:(reflexivity)).
    split; reflexivity.
  - intros H.
    apply (task_key_separates "2301" "2302" "HW1" "HW1"
             ltac:(reflexivity) ltac:(reflexivity)) in H.
    destruct H as [H _]. discriminate H.
Defined.

(** A no-break space before a title and a line separator after it are
    stripped like the ASCII space. *)
Example task_key_ignores_unicode_space :
  let utf8 := fun l => String.string_of_list_ascii (map Ascii.ascii_of_nat l) in
  makeTaskKey "2301" (utf8 [194; 160; 72; 87; 49; 226; 128; 168]%nat)
  = makeTaskKey "2301" " HW1 "
  /\ trim (utf8 [72; 87; 226; 128; 148; 49]%nat)
     = utf8 [72; 87; 226; 128; 148; 49]%nat.
Proof. split; reflexivity. Qed.

(** Without the restriction, "::" in a project id makes keys collide. *)
Example task_key_collision :
  makeTaskKey "a" "::b" = makeTaskKey "a::" "b".
Proof. reflexivity. Qed.

(* ===================================================================== *)
(** * 34. Paging through a Canvas collection *)
(* ===================================================================== *)

Lemma fetchAllPagesFrom_complete {T : Type} (get : nat -> Outcome (list T)) :
  forall (fuel page : nat) (all rest : list T),
    (forall k, get (page + k)%nat
               = Ok (List.firstn perPage (List.skipn (perPage * k) rest))) ->
    (length rest / perPage < fuel)%nat ->
    fetchAllPagesFrom fuel get page all = Some (Ok (all ++ rest)).
Proof.
  induction fuel as [|fuel IH]; intros page all rest Hget Hfuel; [lia|].
  simpl. pose proof (Hget 0%nat) as H0.
  rewrite Nat.add_0_r, Nat.mul_0_r in H0.
  change (List.skipn 0 rest) with rest in H0.
  rewrite H0. rewrite List.length_firstn.
  destruct (Nat.eqb_spec (Nat.min perPage (length rest)) 0) as [Hz|Hnz].
  { assert (Hr : length rest = 0%nat) by (unfold perPage in Hz; lia).
    destruct rest; [|discriminate]. now rewrite app_nil_r. }
  destruct (Nat.ltb_spec (Nat.min perPage (length rest)) perPage) as [Hlt|Hge].
  { rewrite List.firstn_all2 by lia. reflexivity. }
  assert (Hlen : (perPage <= length rest)%nat) by lia.
  rewrite (IH (S page) _ (List.skipn perPage rest)).
  - rewrite <- app_assoc, List.firstn_skipn. reflexivity.
  - intros k. replace (S page + k)%nat with (page + S k)%nat by lia.
    rewrite Hget, List.skipn_skipn. do 3 f_equal. unfold perPage. lia.
  - rewrite List.length_skipn.
    assert (Hdiv : (length rest / perPage
                    = S ((length rest - perPage) / perPage))%nat).
    { replace (length rest) with ((length rest - perPage) + 1 * perPage)%nat
        at 1 by lia.
      rewrite Nat.div_add by (unfold perPage; lia). lia. }
    lia.
Qed.

(** X15 -- [fetchAllPages] returns the whole collection of a server that
    serves it in pages of 50: all items, in order, once the number of
    requests allowed exceeds the number of full pages. *)
Theorem fetchAllPages_complete {T : Type} (items : list T) (fuel : nat)
    (Hfuel : (length items / perPage < fuel)%nat) :
  fetchAllPages fuel (pageOf perPage items) = Some (Ok items).
Proof.
  unfold fetchAllPages.
  rewrite (fetchAllPagesFrom_complete _ fuel 1 [] items); [reflexivity| |exact Hfuel].
  intros k. unfold pageOf. do 3 f_equal. unfold perPage. lia.
Qed.

Lemma fetchAllPages_complete_witness :
  fetchAllPages 3 (pageOf perPage (List.seq 0 120))
  = Some (Ok (List.seq 0 120)).
Proof.
  apply (fetchAllPages_complete (List.seq 0 120) 3).
  vm_compute. lia.
Defined.

(** A server that caps its pages below 50 is read as having a single page. *)
Example capped_pages_truncate :
  fetchAllPages 10 (pageOf 30 (List.seq 0 120)) = Some (Ok (List.seq 0 30)).
Proof. vm_compute. reflexivity. Qed.

Lemma fetchAllPagesFrom_unbounded {T : Type} (get : nat -> Outcome (list T)) :
  (forall page, exists data, get page = Ok data /\ length data = perPage) ->
  forall fuel page all, fetchAllPagesFrom fuel get page all = None.
Proof.
  intros Hfull. induction fuel as [|fuel IH]; intros page all; [reflexivity|].
  simpl. destruct (Hfull page) as (data & -> & Hlen). rewrite Hlen.
  simpl. apply IH.
Qed.

(** X16 -- The loop of [fetchAllPages] has no bound of its own: against a
    server whose every page is full (one that ignores the page number, say)
    it is still running after any number of requests. *)
Theorem fetchAllPages_unbounded {T : Type} (get : nat -> Outcome (list T))
    (fuel : nat)
    (Hfull : forall page, exists data,
               get page = Ok data /\ length data = perPage) :
  fetchAllPages fuel get = None.
Proof. apply fetchAllPagesFrom_unbounded. exact Hfull. Qed.

Lemma fetchAllPages_unbounded_witness :
  fetchAllPages 1000 (fun _ => Ok (List.seq 0 50)) = None.
Proof.
  apply (fetchAllPages_unbounded (fun _ => Ok (List.seq 0 50)) 1000).
  intros page. exists (List.seq 0 50). split; reflexivity.
Defined.

(* ===================================================================== *)
(** * 35. Calendar dates *)
(* ===================================================================== *)

Lemma checkFrom_spec (f : Z -> bool) (fuel : nat) :
  forall z, checkFrom f fuel z = true ->
    forall x, z <= x < z + Z.of_nat fuel -> f x = true.
Proof.
  induction fuel as [|fuel IH]; intros z H x Hx; [lia|].
  simpl in H. apply andb_true_iff in H. destruct H as [Hz H].
  destruct (Z.eq_dec x z) as [->|Hne]; [exact Hz|].
  apply (IH (z + 1) H). lia.
Qed.

Lemma doeOk_all : checkFrom doeOk (Z.to_nat 146097) 0 = true.
Proof. vm_compute. reflexivity. Qed.

Lemma doeOk_range (doe : Z) : 0 <= doe < 146097 -> doeOk doe = true.
Proof.
  intros H. apply (checkFrom_spec doeOk (Z.to_nat 146097) 0 doeOk_all). lia.
Qed.



(** The civil date of a day: month and day in range, and the day found
    again from the date. *)
Lemma civilFromDays_spec (D : Z) :
  exists y m d,
    civilFromDays D = (y, m, d)
    /\ 1 <= m <= 12 /\ 1 <= d <= 31
    /\ daysFromCivil y m d = D
    /\ (0 <= D -> 1600 <= y).
Proof.
  unfold civilFromDays. cbv zeta.
  set (z := D + 719468).
  set (era := z / 146097).
  set (doe := z - era * 146097).
  assert (Hdoe : 0 <= doe < 146097).
  { subst doe era. pose proof (Z.div_mod z 146097 ltac:(lia)).
    pose proof (Z.mod_pos_bound z 146097 ltac:(lia)). lia. }
  pose proof (doeOk_range doe Hdoe) as Hok. unfold doeOk in Hok.
  cbv zeta in Hok.
  set (yoe := (doe - doe / 1460 + doe / 36524 - doe / 146096) / 365) in *.
  set (doy := doe - (365 * yoe + yoe / 4 - yoe / 100)) in *.
  set (mp := (5 * doy + 2) / 153) in *.
  set (d := doy - (153 * mp + 2) / 5 + 1) in *.
  repeat (apply andb_true_iff in Hok; destruct Hok as [Hok ?]).
  assert (Hb : 0 <= yoe <= 399 /\ 0 <= doy /\ 0 <= mp <= 11 /\ 1 <= d <= 31)
    by lia.
  clear - Hb Hdoe. destruct Hb as (Hyoe & Hdoy & Hmp & Hd).
  eexists _, _, _. split; [reflexivity|].
  assert (Hm : 1 <= (if mp <? 10 then mp + 3 else mp - 9) <= 12).
  { destruct (Z.ltb_spec mp 10); lia. }
  split; [exact Hm|]. split; [exact Hd|]. split.
  - unfold daysFromCivil. cbv zeta.
    set (m := if mp <? 10 then mp + 3 else mp - 9) in *.
    assert (Hy : (if m <=? 2
                  then (if m <=? 2 then yoe + era * 400 + 1
                        else yoe + era * 400) - 1
                  else (if m <=? 2 then yoe + era * 400 + 1
                        else yoe + era * 400))
                 = yoe + era * 400).
    { destruct (m <=? 2); lia. }
    rewrite Hy.
    assert (Hera : (yoe + era * 400) / 400 = era).
    { rewrite Z.div_add by lia. rewrite Z.div_small by lia. lia. }
    rewrite Hera.
    assert (Hmp2 : (if m >? 2 then m - 3 else m + 9) = mp).
    { subst m. destruct (Z.ltb_spec mp 10);
        match goal with |- context [?a >? 2] => destruct (Z.gtb_spec a 2) end;
        lia. }
    rewrite Hmp2.
    replace (yoe + era * 400 - era * 400) with yoe by lia.
    unfold d, doy, doe, z. lia.
  - intros HD.
    assert (4 <= era).
    { subst era z. apply Z.div_le_lower_bound; lia. }
    destruct (_ <=? 2); lia.
Qed.

Lemma day_of_midday (D tz : Z) :
  - (12 * msPerHour) <= tz < 12 * msPerHour ->
  (D * msPerDay + 12 * msPerHour + tz) / msPerDay = D.
Proof.
  unfold msPerHour, msPerDay. intros H.
  symmetry. apply (Z.div_unique _ _ D (12 * (1000 * 60 * 60) + tz)); lia.
Qed.

(** [normalizeDueDate] returns midday UTC of the Pacific calendar day. *)
Lemma normalizeDueDate_midday (zone : Z -> Z) (t : Z) :
  0 <= t + zone t ->
  normalizeDueDate zone (Some t)
  = Some ((t + zone t) / msPerDay * msPerDay + 12 * msPerHour).
Proof.
  intros Hlocal. unfold normalizeDueDate, localCivil. cbv zeta.
  set (D := (t + zone t) / msPerDay).
  assert (HD : 0 <= D).
  { subst D. apply Z.div_pos; [exact Hlocal|reflexivity]. }
  destruct (civilFromDays_spec D) as (y & m & d & -> & Hm & Hd & Hback & Hy).
  specialize (Hy HD). simpl. unfold dateUTC.
  destruct (Z.leb_spec y 99); [lia|].
  rewrite andb_false_r. replace (m - 1 + 1) with m by lia.
  rewrite Hback. reflexivity.
Qed.

(** X17 -- The date a due instant is sent to Todoist with is its calendar
    date in Pacific time, on any server whose zone is from 12 hours west to
    less than 12 hours east of UTC: the midday UTC that [normalizeDueDate]
    stores reads as the same day there. *)
Theorem due_date_survives_server_zone (zone : Z -> Z) (tz t : Z)
    (Hlocal : 0 <= t + zone t)
    (Htz : - (12 * msPerHour) <= tz < 12 * msPerHour) :
  toTodoistDate tz (normalizeDueDate zone (Some t))
  = toTodoistDate (zone t) (Some t).
Proof.
  rewrite (normalizeDueDate_midday zone t Hlocal).
  unfold toTodoistDate, getFullYear, getMonth, getDate, localCivil.
  rewrite (day_of_midday _ tz Htz). reflexivity.
Qed.

Lemma due_date_survives_server_zone_witness :
  let pacific := fun _ : Z => - (8 * msPerHour) in
  (* 2025-12-23 07:59 UTC is 23:59 of 2025-12-22 in Pacific time *)
  let t := 1766476740000 in
  toTodoistDate (9 * msPerHour) (normalizeDueDate pacific (Some t))
  = Some "2025-12-22".
Proof.
  intros pacific t.
  rewrite (due_date_survives_server_zone pacific (9 * msPerHour) t
             ltac:(vm_compute; discriminate)
             ltac:(split; vm_compute; [discriminate|reflexivity])).
  vm_compute. reflexivity.
Defined.

(** Twelve hours east of UTC and beyond, the stored midday is the next day. *)
Example due_date_shifts_far_east :
  let pacific := fun _ : Z => - (8 * msPerHour) in
  toTodoistDate (12 * msPerHour) (normalizeDueDate pacific (Some 1766476740000))
  = Some "2025-12-23".
Proof. vm_compute. reflexivity. Qed.

Lemma num_gtb_ofZ (a b : Z) : num_gtb (ofZ a) (ofZ b) = (b <? a).
Proof.
  unfold num_gtb, num_ltb, ofZ. rewrite Qle_bool_inject_Z.
  destruct (Z.leb_spec a b), (Z.ltb_spec b a); try reflexivity; lia.
Qed.

(** The two day counts of a stored due date: the fetch filter counts from
    the stored midday, the sync loop in calendar days. *)
Lemma midday_day_counts (tz now D : Z) :
  - (12 * msPerHour) <= tz <= 14 * msPerHour ->
  let due := D * msPerDay + 12 * msPerHour in
  let days := calendarDay tz due - calendarDay tz now in
  diffDaysOf tz now due = days
  /\ mathRoundDiv (due - localMidnight tz now) msPerDay
     = (if (0 <=? tz) && (tz <? 12 * msPerHour) then days + 1 else days)
  /\ (due <? localMidnight tz now) = (days <? 0).
Proof.
  intros Htz due days.
  split; [apply diffDaysOf_calendarDay|].
  subst days. unfold calendarDay, localMidnight, mathRoundDiv.
  set (today := (now + tz) / msPerDay).
  assert (Hday : (due + tz) / msPerDay
                 = D + (if tz <? 12 * msPerHour then 0 else 1)).
  { subst due. unfold msPerHour, msPerDay in *.
    destruct (Z.ltb_spec tz (12 * (1000 * 60 * 60))).
    - symmetry.
      apply (Z.div_unique _ _ (D + 0) (12 * (1000 * 60 * 60) + tz)); lia.
    - symmetry.
      apply (Z.div_unique _ _ (D + 1) (tz - 12 * (1000 * 60 * 60))); lia. }
  rewrite Hday. subst due. unfold msPerHour, msPerDay in *.
  split.
  - destruct (Z.leb_spec 0 tz), (Z.ltb_spec tz (12 * (1000 * 60 * 60)));
      cbn [andb]; symmetry.
    + apply (Z.div_unique _ _ (D + 0 - today + 1) (2 * tz)); lia.
    + apply (Z.div_unique _ _ (D + 1 - today) (2 * tz)); lia.
    + apply (Z.div_unique _ _ (D + 0 - today)
               (2 * (1000 * 60 * 60 * 24) + 2 * tz)); lia.
    + lia.
  - destruct (Z.ltb_spec tz (12 * (1000 * 60 * 60)));
      match goal with
      | |- (?a <? ?b) = (?c <? ?d) =>
          destruct (Z.ltb_spec a b), (Z.ltb_spec c d)
      end; try reflexivity; exfalso; lia.
Qed.

(** X18 -- The look-ahead window of the fetch cycle counts from the stored
    midday, not in calendar days.  Take a due instant on or after 1970 in
    Pacific time, stored as [normalizeDueDate] stores it; a server whose zone
    keeps one offset, from 12 hours west to 14 hours east of UTC; a window
    [daysAhead] that is a whole number [n > 0]; and [days] the number of
    calendar days from today to the stored due date in the server's zone,
    which is the number the sync loop classifies the assignment by.  Then the
    assignment is kept iff [0 <= days] and [counted <= n], where [counted] is
    [days + 1] on a server from UTC to less than 12 hours east of it, and
    [days] on any other: from UTC eastwards up to 12 hours, a window of [n]
    days leaves out what is due on the [n]-th day. *)
Theorem fetch_window_counts_from_midday (zone : Z -> Z) (tz now t n : Z)
    (Hlocal : 0 <= t + zone t)
    (Htz : - (12 * msPerHour) <= tz <= 14 * msPerHour)
    (Hn : 0 < n) :
  let due := normalizeDueDate zone (Some t) in
  let days := match due with
              | Some d => calendarDay tz d - calendarDay tz now
              | None => 0
              end in
  let counted := if (0 <=? tz) && (tz <? 12 * msPerHour)
                 then days + 1 else days in
  match due with
  | Some d => diffDaysOf tz now d = days
  | None => False
  end
  /\ fetchKeeps tz now
       {| daysAhead := Some (ofZ n); includeNoDueDate := None |} due
     = (0 <=? days) && (counted <=? n).
Proof.
  intros due days counted. subst due days counted.
  rewrite (normalizeDueDate_midday zone t Hlocal).
  set (D := (t + zone t) / msPerDay).
  destruct (midday_day_counts tz now D Htz) as (Hdays & Hround & Hpast).
  split; [exact Hdays|].
  unfold fetchKeeps, passesWindow, maxDaysAheadOf. cbv zeta.
  cbn [daysAhead includeNoDueDate nullish].
  rewrite num_gtb_ofZ.
  destruct (Z.ltb_spec 0 n) as [_|]; [|lia].
  assert (Hsome : bool_decide
                    (is_Some (Some (D * msPerDay + 12 * msPerHour))) = true).
  { apply bool_decide_eq_true. eauto. }
  rewrite Hsome. cbn [negb andb].
  rewrite Hpast, Hround, num_gtb_ofZ.
  set (days := calendarDay tz (D * msPerDay + 12 * msPerHour)
               - calendarDay tz now).
  set (counted := if (0 <=? tz) && (tz <? 12 * msPerHour)
                  then days + 1 else days).
  destruct (Z.ltb_spec days 0), (Z.leb_spec 0 days),
           (Z.ltb_spec n counted), (Z.leb_spec counted n);
    cbn [andb]; try reflexivity; exfalso; lia.
Qed.

(** On a server in UTC, with a window of 7 days: due on the seventh day
    after today, the assignment is left out; the sync loop counts 7 days. *)
Lemma fetch_window_counts_from_midday_witness :
  let pacific := fun _ : Z => - (8 * msPerHour) in
  let now := 1766404800000 in              (* 2025-12-22 12:00 UTC *)
  let t := now + 7 * msPerDay in
  fetchKeeps 0 now {| daysAhead := Some (ofZ 7); includeNoDueDate := None |}
    (normalizeDueDate pacific (Some t))
  = false.
Proof.
  intros pacific now t.
  destruct (fetch_window_counts_from_midday pacific 0 now t 7
              ltac:(vm_compute; discriminate)
              ltac:(split; vm_compute; discriminate)
              ltac:(reflexivity)) as [_ H].
  rewrite H. vm_compute. reflexivity.
Defined.

(** Thirteen hours east of UTC the two counts agree: due on the seventh
    local day after today, the assignment is kept by a window of 7 days. *)
Example fetch_window_far_east :
  let pacific := fun _ : Z => - (8 * msPerHour) in
  let tz := 13 * msPerHour in
  let now := 1766404800000 in
  let due := normalizeDueDate pacific (Some (now + 7 * msPerDay)) in
  (calendarDay tz <$> due) = Some (calendarDay tz now + 7)
  /\ fetchKeeps tz now
       {| daysAhead := Some (ofZ 7); includeNoDueDate := None |} due
     = true.
Proof. split; vm_compute; reflexivity. Qed.


Example todoist_date_example :
  toTodoistDate (- (8 * msPerHour)) (Some 1772611200000) = Some "2026-03-04".
Proof. vm_compute. reflexivity. Qed.

(* ===================================================================== *)
(** * 36. The sync endpoint *)
(* ===================================================================== *)

(** A run over a non-empty list of course ids that returns has added one
    SyncRun record, finalized as SUCCESS with the counters it returns. *)
Lemma sync_returns_run userId courseIds prioritySettings w r w' :
  Nat.eqb (length courseIds) 0 = false ->
  syncAssignmentsToTodoist userId courseIds prioritySettings w = (Ok r, w') ->
  exists fin,
    syncRuns w'
    = syncRuns w
      ++ [{| run_id := freshRunId (syncRuns w); run_userId := userId;
             finishedAt := Some fin; status := SUCCESS;
             message := successMessage (created r) (skipped r) |}].
Proof.
  intros Hne H. unfold syncAssignmentsToTodoist in H. rewrite Hne in H.
  apply bind_returns in H as (user & wa & H1 & H).
  apply external_returns in H1 as (F1 & w1 & E1 & ->).
  injection E1 as <- <-.
  destruct (_ ≫= todoistAccount) as [tok|]; [|discriminate].
  apply bind_returns in H as (run & wb & H2 & H).
  unfold syncRun_create in H2.
  apply external_returns in H2 as (F2 & w2 & E2 & ->).
  injection E2 as <- <-.
  unfold tryCatch in H.
  match type of H with
  | context [syncBody ?run ?u ?ids ?s ?w0] =>
      pose proof (finishes_syncBody run u ids s w0 (hasRun_last _ _)) as Hfin;
      destruct (syncBody run u ids s w0) as [[r0|msg] w5] eqn:E5
  end.
  - injection H as <- <-. simpl in Hfin.
    destruct Hfin as (_ & _ & evs & _ & _ & _ & fin & Hruns).
    exists fin. rewrite Hruns.
    exact (finalizeRun_fresh (syncRuns w) (startedRun userId courseIds w) fin
             SUCCESS _ eq_refl).
  - apply bind_returns in H as ([] & w6 & _ & H). discriminate H.
Qed.

(** X20 -- The sync endpoint.  A request without a session is answered
    401, and one of a signed-in user without a non-empty array of course ids
    400; a request the engine returns from is answered 200 with the engine's
    counters, and one the engine throws on 500 with the message of the
    exception.  Conversely, an answer 401 or 400 means that nothing has been
    called or changed, and an answer 200 that the run has added one SyncRun
    record of the session's user, finalized as SUCCESS, whose message carries
    the counters of the response: the early return of the engine for an empty
    list, which records nothing, is out of reach of the endpoint. *)
Theorem sync_endpoint_answers (session : option string)
    (courseIds : option (list string))
    (prioritySettings : option PrioritySettingsInput) (w : World) :
  let out := postSyncAssignments session courseIds prioritySettings w in
  (session = None -> http_status out.1 = 401)
  /\ (forall userId,
        session = Some userId -> userId <> "" ->
        courseIds = None \/ courseIds = Some [] ->
        http_status out.1 = 400)
  /\ (forall userId ids,
        session = Some userId -> userId <> "" ->
        courseIds = Some ids -> ids <> [] ->
        match (syncAssignmentsToTodoist userId ids prioritySettings w).1 with
        | Ok r =>
            out.1 = {| http_status := 200;
                       body := Synced "Synced assignments to Todoist"
                                 (created r) (skipped r) |}
        | Throw msg =>
            out.1 = {| http_status := 500; body := Failed msg |}
        end)
  /\ match http_status out.1 with
     | 200 =>
         exists userId c s fin,
           session = Some userId
           /\ body out.1 = Synced "Synced assignments to Todoist" c s
           /\ syncRuns out.2
              = syncRuns w
                ++ [{| run_id := freshRunId (syncRuns w);
                       run_userId := userId;
                       finishedAt := Some fin; status := SUCCESS;
                       message := successMessage c s |}]
     | 400 =>
         out.2 = w /\ (courseIds = None \/ courseIds = Some [])
     | 401 => out.2 = w /\ session = None
     | _ => http_status out.1 = 500 /\ exists msg, body out.1 = Failed msg
     end.
Proof.
  intros out. subst out. split; [|split; [|split]].
  - intros ->. reflexivity.
  - intros userId -> Hid Hids. unfold postSyncAssignments, getUserIdFromRequest.
    destruct (String.eqb_spec userId ""); [contradiction|].
    destruct Hids as [->| ->]; reflexivity.
  - intros userId ids -> Hid -> Hne.
    unfold postSyncAssignments, getUserIdFromRequest.
    destruct (String.eqb_spec userId ""); [contradiction|].
    destruct ids as [|c0 ids]; [contradiction|]. simpl Nat.eqb. cbv iota.
    destruct (syncAssignmentsToTodoist userId (c0 :: ids) prioritySettings w)
      as [[r|msg] w']; reflexivity.
  - unfold postSyncAssignments.
    destruct session as [sessionUser|]; [|simpl; auto].
    unfold getUserIdFromRequest.
    destruct (String.eqb sessionUser ""); [simpl; eauto|].
    destruct courseIds as [ids|]; [|simpl; auto].
    destruct (Nat.eqb (length ids) 0) eqn:Hne.
    { simpl. split; [reflexivity|]. right.
      destruct ids; [reflexivity|discriminate]. }
    destruct (syncAssignmentsToTodoist sessionUser ids prioritySettings w)
      as [[r|msg] w'] eqn:E; [|simpl; eauto].
    simpl. destruct (sync_returns_run _ _ _ _ _ _ Hne E) as (fin & Hruns).
    exists sessionUser, (created r), (skipped r), fin. auto.
Qed.

Example sync_endpoint_rejects_empty_list :
  postSyncAssignments (Some "u") (Some []) None sameTitleTwice
  = ({| http_status := 400;
        body := Failed "courseIds must be a non-empty array" |},
     sameTitleTwice).
Proof. reflexivity. Qed.
